(** * Crawl infrastructure of the Bluesky scraper: a shallow embedding

    The development follows the JavaScript sources:
    - class ProxyManager          (src/core/proxy_manager.js)
    - class RateLimiter           (src/core/rate_limiter.js)
    - class APIClient             (core/api_client.js)
    - class Deduplicator          (src/utils/deduplicator.js)
    - class CheckpointManager     (core/checkpoint_manager.js)
    - class RelationshipsScraper  (scrapers/relationships_scraper.js)
    with the settings of src/config/settings.js and the rate table of
    src/config/endpoints.js.  The bloom-filters, redis, crypto and
    bottleneck packages, the data validator and the file manager are
    outside the repository's core; they appear through the operations the
    classes call on them.

    Redis sets are [gset string], Redis hashes and the key space are [gmap],
    JavaScript exceptions are the [Throw] case of [Result], [null] and
    [undefined] are [None].  Asynchronous methods are modelled by their
    sequential effect on the object and on the store it talks to. *)

From Stdlib Require Import ZArith QArith Qround Qminmax Lia.
From stdpp Require Import gmap strings list sets pretty.

Local Open Scope string_scope.
Local Open Scope Z_scope.

(** ** Exceptions *)

Inductive Result (A : Type) : Type :=
| Ok (a : A)
| Throw (msg : string).
Arguments Ok {A} a.
Arguments Throw {A} msg.


(** ** config/settings.js: the settings the core reads *)

Record Settings := {
  (* SETTINGS.PROXY.LIST *)
  PROXY_LIST : list string;
  (* SETTINGS.PROXY.MAX_CONSECUTIVE_FAILURES; settings.js does not define
     the key, so the lookup can be [undefined] *)
  MAX_CONSECUTIVE_FAILURES : option Z;
  (* SETTINGS.RATE_LIMITING.RANDOMIZE_DELAYS *)
  RANDOMIZE_DELAYS : bool;
  (* SETTINGS.SECURITY.MIN_REQUEST_INTERVAL *)
  MIN_REQUEST_INTERVAL : Z;
  (* SETTINGS.CHECKPOINT.MAX_CHECKPOINT_AGE *)
  MAX_CHECKPOINT_AGE : Z;
  (* SETTINGS.CHECKPOINT.AUTO_CHECKPOINT *)
  AUTO_CHECKPOINT : bool;
  (* SETTINGS.CHECKPOINT.CHECKPOINT_FREQUENCY *)
  CHECKPOINT_FREQUENCY : Z
}.

(** [n >= x] in JavaScript where [x] may be [undefined]: the comparison
    with [undefined] is false. *)
Definition js_ge (n : Z) (x : option Z) : bool :=
  match x with
  | Some t => t <=? n
  | None => false
  end.

(** ** core/proxy_manager.js *)

Module ProxyManager.

(** Per-proxy statistics hash, [bluesky:proxies:stats:<proxy>].  A
    missing field reads as ['0']. *)
Record ProxyStats := {
  requests : Z;
  successes : Z;
  failures : Z;
  consecutiveFailures : Z;
  lastUsed : option Z;
  lastSuccess : option Z;
  lastFailure : option Z
}.

Definition noStats : ProxyStats :=
  {| requests := 0; successes := 0; failures := 0; consecutiveFailures := 0;
     lastUsed := None; lastSuccess := None; lastFailure := None |}.

(** The Redis keys of [REDIS_KEYS]. *)
Record Redis := {
  PROXIES : gset string;
  HEALTHY_PROXIES : gset string;
  UNHEALTHY_PROXIES : gset string;
  RATE_LIMITED : gset string;
  STATS : gmap string ProxyStats
}.

Definition emptyRedis : Redis :=
  {| PROXIES := ∅; HEALTHY_PROXIES := ∅; UNHEALTHY_PROXIES := ∅;
     RATE_LIMITED := ∅; STATS := ∅ |}.

(** A pending [setTimeout] callback of [markProxyRateLimited]. *)
Record Timer := { timerProxy : string; timerDuration : Z }.

Record t := {
  redisClient : option Redis;
  timers : list Timer;
  healthCheckInterval : bool;
  isInitialized : bool
}.

(** [constructor()] *)
Definition new : t :=
  {| redisClient := None; timers := []; healthCheckInterval := false;
     isInitialized := false |}.

Definition withRedis (m : t) (r : Redis) : t :=
  {| redisClient := Some r; timers := timers m;
     healthCheckInterval := healthCheckInterval m;
     isInitialized := isInitialized m |}.

Definition statsOf (r : Redis) (proxy : string) : ProxyStats :=
  default noStats (STATS r !! proxy).

Inductive Action := request | success | failure.

(** [updateProxyStats(proxy, action, additionalData)] on the store;
    [additional] is the [consecutiveFailures] entry of [additionalData]. *)
Definition updateProxyStats (proxy : string) (action : Action)
    (additional : option Z) (now : Z) (r : Redis) : Redis :=
  let s := statsOf r proxy in
  let cf := default (consecutiveFailures s) additional in
  let s' :=
    match action with
    | request =>
        {| requests := requests s + 1; successes := successes s;
           failures := failures s; consecutiveFailures := cf;
           lastUsed := Some now; lastSuccess := lastSuccess s;
           lastFailure := lastFailure s |}
    | success =>
        {| requests := requests s; successes := successes s + 1;
           failures := failures s; consecutiveFailures := 0;
           lastUsed := Some now; lastSuccess := Some now;
           lastFailure := lastFailure s |}
    | failure =>
        {| requests := requests s; successes := successes s;
           failures := failures s + 1; consecutiveFailures := cf;
           lastUsed := Some now; lastSuccess := lastSuccess s;
           lastFailure := Some now |}
    end in
  {| PROXIES := PROXIES r; HEALTHY_PROXIES := HEALTHY_PROXIES r;
     UNHEALTHY_PROXIES := UNHEALTHY_PROXIES r;
     RATE_LIMITED := RATE_LIMITED r; STATS := <[proxy := s']> (STATS r) |}.

(** [addProxies(proxies)] *)
Definition addProxies (proxies : list string) (m : t) : t :=
  match redisClient m with
  | None => m
  | Some r =>
      withRedis m
        {| PROXIES := PROXIES r ∪ list_to_set proxies;
           HEALTHY_PROXIES := HEALTHY_PROXIES r ∪ list_to_set proxies;
           UNHEALTHY_PROXIES := UNHEALTHY_PROXIES r;
           RATE_LIMITED := RATE_LIMITED r; STATS := STATS r |}
  end.

(** [removeProxies(proxies)] *)
Definition removeProxies (proxies : list string) (m : t) : t :=
  match redisClient m with
  | None => m
  | Some r =>
      withRedis m
        {| PROXIES := PROXIES r ∖ list_to_set proxies;
           HEALTHY_PROXIES := HEALTHY_PROXIES r ∖ list_to_set proxies;
           UNHEALTHY_PROXIES := UNHEALTHY_PROXIES r ∖ list_to_set proxies;
           RATE_LIMITED := RATE_LIMITED r ∖ list_to_set proxies;
           STATS := STATS r |}
  end.

(** [getRandomProxy()]; [rand] is the value of [Math.random()], in
    [0, 1). *)
Definition getRandomProxy (rand : Q) (now : Z) (m : t) : option string * t :=
  match redisClient m with
  | None => (None, m)
  | Some r =>
      let healthyProxies := elements (HEALTHY_PROXIES r) in
      if (length healthyProxies =? 0)%nat then (None, m)
      else
        let randomIndex :=
          Qfloor (rand * inject_Z (Z.of_nat (length healthyProxies))) in
        match healthyProxies !! Z.to_nat randomIndex with
        | Some selectedProxy =>
            (Some selectedProxy,
             withRedis m (updateProxyStats selectedProxy request None now r))
        | None => (None, m)
        end
  end.

(** [markProxySuccess(proxy)] *)
Definition markProxySuccess (proxy : string) (now : Z) (m : t) : t :=
  match redisClient m with
  | None => m
  | Some r =>
      let r1 :=
        {| PROXIES := PROXIES r;
           HEALTHY_PROXIES := HEALTHY_PROXIES r ∪ {[proxy]};
           UNHEALTHY_PROXIES := UNHEALTHY_PROXIES r ∖ {[proxy]};
           RATE_LIMITED := RATE_LIMITED r ∖ {[proxy]};
           STATS := STATS r |} in
      withRedis m (updateProxyStats proxy success None now r1)
  end.

(** [markProxyFailure(proxy, reason)] *)
Definition markProxyFailure (S : Settings) (proxy : string) (reason : string)
    (now : Z) (m : t) : t :=
  match redisClient m with
  | None => m
  | Some r =>
      let consecutiveFailures' := consecutiveFailures (statsOf r proxy) + 1 in
      let r1 := updateProxyStats proxy failure (Some consecutiveFailures') now r in
      if js_ge consecutiveFailures' (MAX_CONSECUTIVE_FAILURES S) then
        withRedis m
          {| PROXIES := PROXIES r1;
             HEALTHY_PROXIES := HEALTHY_PROXIES r1 ∖ {[proxy]};
             UNHEALTHY_PROXIES := UNHEALTHY_PROXIES r1 ∪ {[proxy]};
             RATE_LIMITED := RATE_LIMITED r1; STATS := STATS r1 |}
      else withRedis m r1
  end.

(** [markProxyRateLimited(proxy, duration)]: moves the proxy and
    registers the cooldown callback. *)
Definition markProxyRateLimited (proxy : string) (duration : Z) (m : t) : t :=
  match redisClient m with
  | None => m
  | Some r =>
      {| redisClient :=
           Some {| PROXIES := PROXIES r;
                   HEALTHY_PROXIES := HEALTHY_PROXIES r ∖ {[proxy]};
                   UNHEALTHY_PROXIES := UNHEALTHY_PROXIES r;
                   RATE_LIMITED := RATE_LIMITED r ∪ {[proxy]};
                   STATS := STATS r |};
         timers := (timers m ++ [{| timerProxy := proxy; timerDuration := duration |}])%list;
         healthCheckInterval := healthCheckInterval m;
         isInitialized := isInitialized m |}
  end.

(** The body of the [setTimeout] callback for [proxy]. *)
Definition cooldownExpired (proxy : string) (r : Redis) : Redis :=
  let rateLimited := RATE_LIMITED r ∖ {[proxy]} in
  let isUnhealthy := bool_decide (proxy ∈ UNHEALTHY_PROXIES r) in
  {| PROXIES := PROXIES r;
     HEALTHY_PROXIES :=
       if isUnhealthy then HEALTHY_PROXIES r else HEALTHY_PROXIES r ∪ {[proxy]};
     UNHEALTHY_PROXIES := UNHEALTHY_PROXIES r;
     RATE_LIMITED := rateLimited; STATS := STATS r |}.

(** The [i]-th pending timer fires: it leaves the pending list and its
    callback runs (a callback that finds no client throws inside its own
    [try] and changes nothing). *)
Definition fireTimer (i : nat) (m : t) : t :=
  match timers m !! i with
  | None => m
  | Some tm =>
      {| redisClient := cooldownExpired (timerProxy tm) <$> redisClient m;
         timers := delete i (timers m);
         healthCheckInterval := healthCheckInterval m;
         isInitialized := isInitialized m |}
  end.

(** [loadInitialProxies()]; [valid] stands for
    [parseProxyString] followed by [validateProxy] of config/proxies.js. *)
Definition loadInitialProxies (S : Settings) (valid : string → bool) (m : t) : t :=
  let validProxies := filter (λ p, valid p = true) (PROXY_LIST S) in
  if (length validProxies =? 0)%nat then m else addProxies validProxies m.

(** [initialize()]; [connect] is the outcome of [redisClient.connect()]:
    the store's contents, or [None] when the store cannot be reached. *)
Definition initialize (S : Settings) (valid : string → bool)
    (connect : option Redis) (m : t) : Result unit * t :=
  if isInitialized m then (Ok (), m)
  else
    match connect with
    | Some r =>
        let m1 := loadInitialProxies S valid (withRedis m r) in
        (Ok (),
         {| redisClient := redisClient m1; timers := timers m1;
            healthCheckInterval := true; isInitialized := true |})
    | None =>
        (* catch: fall back to in-memory mode *)
        (Ok (),
         {| redisClient := None; timers := timers m;
            healthCheckInterval := healthCheckInterval m;
            isInitialized := isInitialized m |})
    end.

(** The reporting operations and the timer as one alphabet. *)
Inductive Op :=
| ReportSuccess (proxy : string) (now : Z)
| ReportFailure (proxy : string) (reason : string) (now : Z)
| ReportRateLimited (proxy : string) (duration : Z)
| TimerFires (i : nat).

Definition step (S : Settings) (m : t) (o : Op) : t :=
  match o with
  | ReportSuccess p now => markProxySuccess p now m
  | ReportFailure p reason now => markProxyFailure S p reason now m
  | ReportRateLimited p d => markProxyRateLimited p d m
  | TimerFires i => fireTimer i m
  end.

Definition run (S : Settings) (ops : list Op) (m : t) : t :=
  foldl (step S) m ops.

(** Status sets as predicates on the manager. *)
Definition healthy (m : t) (p : string) : Prop :=
  ∃ r, redisClient m = Some r ∧ p ∈ HEALTHY_PROXIES r.
Definition unhealthy (m : t) (p : string) : Prop :=
  ∃ r, redisClient m = Some r ∧ p ∈ UNHEALTHY_PROXIES r.
Definition rateLimited (m : t) (p : string) : Prop :=
  ∃ r, redisClient m = Some r ∧ p ∈ RATE_LIMITED r.
Definition registered (m : t) (p : string) : Prop :=
  ∃ r, redisClient m = Some r ∧ p ∈ PROXIES r.

(** [testProxyHealth(proxy)]; [probe] is the outcome of the request
    through the proxy: the status code, or [None] when the request
    throws.  On status 200 the method calls [markProxySuccess] and then
    [updateProxyStats(proxy, 'success', {responseTime})] once more; the
    [responseTime] field, which nothing reads, is not kept. *)
Definition testProxyHealth (S : Settings) (proxy : string) (probe : option Z)
    (now : Z) (m : t) : bool * t :=
  match probe with
  | Some status =>
      if status =? 200 then
        let m1 := markProxySuccess proxy now m in
        (true,
         match redisClient m1 with
         | Some r => withRedis m1 (updateProxyStats proxy success None now r)
         | None => m1
         end)
      else (false, markProxyFailure S proxy ("HTTP " ++ pretty status) now m)
  | None => (false, markProxyFailure S proxy "request failed" now m)
  end.

(** [performHealthCheck()]; [probe] gives the outcome of the test
    request of each proxy.  The tests of two proxies touch different set
    members and different statistics hashes, so the order in which they
    complete does not show; they are taken in [sMembers] order. *)
Definition performHealthCheck (S : Settings) (probe : string → option Z)
    (now : Z) (m : t) : t :=
  match redisClient m with
  | None => m
  | Some r =>
      let allProxies := elements (PROXIES r) in
      if (length allProxies =? 0)%nat then m
      else foldl (λ m proxy, (testProxyHealth S proxy (probe proxy) now m).2) m allProxies
  end.

(** [hasProxies()] *)
Definition hasProxies (m : t) : bool :=
  match redisClient m with
  | None => false
  | Some r => 0 <? Z.of_nat (size (PROXIES r))
  end.

(** [getProxyCount()] *)
Definition getProxyCount (m : t) : Z :=
  match redisClient m with
  | None => 0
  | Some r => Z.of_nat (size (PROXIES r))
  end.

(** [resetStats()]: the statistics hashes of the registered proxies
    and the two status keys are deleted, and the registered proxies are
    added to the healthy set. *)
Definition resetStats (m : t) : t :=
  match redisClient m with
  | None => m
  | Some r =>
      let allProxies := elements (PROXIES r) in
      withRedis m
        {| PROXIES := PROXIES r;
           HEALTHY_PROXIES := HEALTHY_PROXIES r ∪ list_to_set allProxies;
           UNHEALTHY_PROXIES := ∅;
           RATE_LIMITED := ∅;
           STATS := foldl (λ st proxy, delete proxy st) (STATS r) allProxies |}
  end.

End ProxyManager.

(** ** core/rate_limiter.js *)

Module RateLimiter.

(** An entry of [RATE_LIMITS] in config/endpoints.js; a missing field
    is [0], which [||] treats like [undefined]. *)
Record RateConfig := { requestsPerMinute : Z; burstLimit : Z }.

(** The global defaults [SETTINGS.RATE_LIMITING.*]. *)
Record Defaults := {
  REQUESTS_PER_MINUTE : Z;
  BURST_LIMIT : Z;
  CONCURRENT_REQUESTS : Z
}.

(** [a || b] on numbers. *)
Definition js_or (a b : Z) : Z := if a =? 0 then b else a.

(** [calculateMinTime(requestsPerMinute)]; [rand] is the value of
    [Math.random()], in [0, 1).  The arithmetic is exact. *)
Definition calculateMinTime (S : Settings) (rand : Q) (requestsPerMinute : Z) : Q :=
  let baseMinTime := 60000 / requestsPerMinute in
  if RANDOMIZE_DELAYS S then
    let jitter := (rand * (2 # 10) * inject_Z baseMinTime)%Q in
    Qmax (inject_Z baseMinTime + jitter) (inject_Z (MIN_REQUEST_INTERVAL S))
  else
    Qmax (inject_Z baseMinTime) (inject_Z (MIN_REQUEST_INTERVAL S)).

(** The options [getLimiterForEndpoint] hands to the bucket. *)
Record RateBucket := {
  reservoir : Z;
  reservoirRefreshAmount : Z;
  reservoirRefreshInterval : Z;
  maxConcurrent : Z;
  minTime : Q
}.

(** [getLimiterForEndpoint(endpoint)], the creation branch. *)
Definition getLimiterForEndpoint (S : Settings) (D : Defaults)
    (RATE_LIMITS : gmap string RateConfig) (DEFAULT : RateConfig)
    (rand : Q) (endpoint : string) : RateBucket :=
  let config := default DEFAULT (RATE_LIMITS !! endpoint) in
  {| reservoir := js_or (burstLimit config) (BURST_LIMIT D);
     reservoirRefreshAmount := js_or (burstLimit config) (BURST_LIMIT D);
     reservoirRefreshInterval := 60 * 1000;
     maxConcurrent := CONCURRENT_REQUESTS D;
     minTime :=
       calculateMinTime S rand
         (js_or (requestsPerMinute config) (REQUESTS_PER_MINUTE D)) |}.

(** An entry of [stats.endpointStats]. *)
Record EndpointStats := {
  requests : Z;
  throttled : Z;
  endpointAverageWaitTime : Q;
  lastRequest : option Z
}.

Definition zeroEndpointStats : EndpointStats :=
  {| requests := 0; throttled := 0; endpointAverageWaitTime := 0; lastRequest := None |}.

(** [this.stats] *)
Record Stats := {
  totalRequests : Z;
  throttledRequests : Z;
  averageWaitTime : Q;
  endpointStats : gmap string EndpointStats
}.

(** The limiter object: the limiters created so far, by endpoint, and
    the statistics. *)
Record t := { limiters : gmap string RateBucket; stats : Stats }.

(** [constructor()] *)
Definition new : t :=
  {| limiters := ∅;
     stats := {| totalRequests := 0; throttledRequests := 0; averageWaitTime := 0;
                 endpointStats := ∅ |} |}.

Definition set_endpointStats (x : gmap string EndpointStats) (st : Stats) : Stats :=
  {| totalRequests := totalRequests st; throttledRequests := throttledRequests st;
     averageWaitTime := averageWaitTime st; endpointStats := x |}.

(** [getLimiterForEndpoint(endpoint)] on the object: the limiter made
    earlier for the endpoint, or a new one, which is kept together with
    fresh statistics for the endpoint. *)
Definition limiterForEndpoint (S : Settings) (D : Defaults)
    (RATE_LIMITS : gmap string RateConfig) (DEFAULT : RateConfig)
    (rand : Q) (endpoint : string) (l : t) : RateBucket * t :=
  match limiters l !! endpoint with
  | Some limiter => (limiter, l)
  | None =>
      let limiter := getLimiterForEndpoint S D RATE_LIMITS DEFAULT rand endpoint in
      (limiter,
       {| limiters := <[endpoint := limiter]> (limiters l);
          stats :=
            set_endpointStats
              (<[endpoint := zeroEndpointStats]> (endpointStats (stats l))) (stats l) |})
  end.

(** [updateAverageWaitTime(waitTime)]; the arithmetic is exact. *)
Definition updateAverageWaitTime (waitTime : Z) (st : Stats) : Stats :=
  let totalThrottled := throttledRequests st in
  let currentAverage := averageWaitTime st in
  {| totalRequests := totalRequests st; throttledRequests := throttledRequests st;
     averageWaitTime :=
       ((currentAverage * inject_Z (totalThrottled - 1) + inject_Z waitTime)
        / inject_Z totalThrottled)%Q;
     endpointStats := endpointStats st |}.

(** [updateEndpointAverageWaitTime(endpoint, waitTime)] *)
Definition updateEndpointAverageWaitTime (endpoint : string) (waitTime : Z)
    (st : Stats) : Result Stats :=
  match endpointStats st !! endpoint with
  | None => Throw "TypeError: Cannot read properties of undefined"
  | Some es =>
      let totalThrottled := throttled es in
      let currentAverage := endpointAverageWaitTime es in
      if 0 <? totalThrottled then
        Ok (set_endpointStats
              (<[endpoint :=
                   {| requests := requests es; throttled := throttled es;
                      endpointAverageWaitTime :=
                        ((currentAverage * inject_Z (totalThrottled - 1) + inject_Z waitTime)
                         / inject_Z totalThrottled)%Q;
                      lastRequest := lastRequest es |}]> (endpointStats st)) st)
      else Ok st
  end.

(** [waitForSlot(endpoint)]; [now] is [Date.now()] and [waited] the outcome
    of [limiter.schedule]: the time the call had to wait, in milliseconds,
    or [None] when the limiter rejects the job. *)
Definition waitForSlot (S : Settings) (D : Defaults)
    (RATE_LIMITS : gmap string RateConfig) (DEFAULT : RateConfig)
    (rand : Q) (endpoint : string) (now : Z) (waited : option Z) (l : t)
    : Result unit * t :=
  let '(_, l1) := limiterForEndpoint S D RATE_LIMITS DEFAULT rand endpoint l in
  let st1 :=
    {| totalRequests := totalRequests (stats l1) + 1;
       throttledRequests := throttledRequests (stats l1);
       averageWaitTime := averageWaitTime (stats l1);
       endpointStats := endpointStats (stats l1) |} in
  match endpointStats st1 !! endpoint with
  | None =>
      (Throw "TypeError: Cannot read properties of undefined",
       {| limiters := limiters l1; stats := st1 |})
  | Some es =>
      let es1 :=
        {| requests := requests es + 1; throttled := throttled es;
           endpointAverageWaitTime := endpointAverageWaitTime es;
           lastRequest := Some now |} in
      let st2 := set_endpointStats (<[endpoint := es1]> (endpointStats st1)) st1 in
      match waited with
      | None => (Throw "This limiter has been stopped", {| limiters := limiters l1; stats := st2 |})
      | Some waitTime =>
          if 100 <? waitTime then
            let es2 :=
              {| requests := requests es1; throttled := throttled es1 + 1;
                 endpointAverageWaitTime := endpointAverageWaitTime es1;
                 lastRequest := lastRequest es1 |} in
            let st3 :=
              {| totalRequests := totalRequests st2;
                 throttledRequests := throttledRequests st2 + 1;
                 averageWaitTime := averageWaitTime st2;
                 endpointStats := <[endpoint := es2]> (endpointStats st2) |} in
            let st4 := updateAverageWaitTime waitTime st3 in
            match updateEndpointAverageWaitTime endpoint waitTime st4 with
            | Ok st5 => (Ok (), {| limiters := limiters l1; stats := st5 |})
            | Throw e => (Throw e, {| limiters := limiters l1; stats := st4 |})
            end
          else (Ok (), {| limiters := limiters l1; stats := st2 |})
      end
  end.

(** [resetStats()] *)
Definition resetStats (l : t) : t :=
  {| limiters := limiters l;
     stats := {| totalRequests := 0; throttledRequests := 0; averageWaitTime := 0;
                 endpointStats := (λ _, zeroEndpointStats) <$> limiters l |} |}.

(** [cleanup()] *)
Definition cleanup (l : t) : t :=
  {| limiters := ∅; stats := stats l |}.

End RateLimiter.

(** ** core/api_client.js *)

Module APIClient.

(** [this.stats] *)
Record Stats := {
  totalRequests : Z;
  successfulRequests : Z;
  failedRequests : Z;
  rateLimitedRequests : Z;
  proxyFailures : Z;
  averageResponseTime : Q
}.

Record t := {
  proxyManager : ProxyManager.t;
  rateLimiter : RateLimiter.t;
  stats : Stats;
  isInitialized : bool
}.

(** [constructor(options)] *)
Definition new : t :=
  {| proxyManager := ProxyManager.new; rateLimiter := RateLimiter.new;
     stats := {| totalRequests := 0; successfulRequests := 0; failedRequests := 0;
                 rateLimitedRequests := 0; proxyFailures := 0;
                 averageResponseTime := 0 |};
     isInitialized := false |}.

Definition set_proxyManager (x : ProxyManager.t) (c : t) : t :=
  {| proxyManager := x; rateLimiter := rateLimiter c; stats := stats c;
     isInitialized := isInitialized c |}.

Definition set_rateLimiter (x : RateLimiter.t) (c : t) : t :=
  {| proxyManager := proxyManager c; rateLimiter := x; stats := stats c;
     isInitialized := isInitialized c |}.

Definition set_stats (x : Stats) (c : t) : t :=
  {| proxyManager := proxyManager c; rateLimiter := rateLimiter c; stats := x;
     isInitialized := isInitialized c |}.

Definition incTotalRequests (c : t) : t :=
  let st := stats c in
  set_stats
    {| totalRequests := totalRequests st + 1;
       successfulRequests := successfulRequests st;
       failedRequests := failedRequests st;
       rateLimitedRequests := rateLimitedRequests st;
       proxyFailures := proxyFailures st;
       averageResponseTime := averageResponseTime st |} c.

Definition incFailedRequests (c : t) : t :=
  let st := stats c in
  set_stats
    {| totalRequests := totalRequests st;
       successfulRequests := successfulRequests st;
       failedRequests := failedRequests st + 1;
       rateLimitedRequests := rateLimitedRequests st;
       proxyFailures := proxyFailures st;
       averageResponseTime := averageResponseTime st |} c.

Definition incRateLimitedRequests (c : t) : t :=
  let st := stats c in
  set_stats
    {| totalRequests := totalRequests st;
       successfulRequests := successfulRequests st;
       failedRequests := failedRequests st;
       rateLimitedRequests := rateLimitedRequests st + 1;
       proxyFailures := proxyFailures st;
       averageResponseTime := averageResponseTime st |} c.

Definition incProxyFailures (c : t) : t :=
  let st := stats c in
  set_stats
    {| totalRequests := totalRequests st;
       successfulRequests := successfulRequests st;
       failedRequests := failedRequests st;
       rateLimitedRequests := rateLimitedRequests st;
       proxyFailures := proxyFailures st + 1;
       averageResponseTime := averageResponseTime st |} c.

(** [initialize()]; the proxy manager's [initialize] does not throw. *)
Definition initialize (S : Settings) (valid : string → bool)
    (connect : option ProxyManager.Redis) (c : t) : t :=
  if isInitialized c then c
  else
    let '(_, pm) := ProxyManager.initialize S valid connect (proxyManager c) in
    {| proxyManager := pm; rateLimiter := rateLimiter c; stats := stats c;
       isInitialized := true |}.

(** What a request attempt meets: a response with its status code, or
    a transport failure, where the request throws without a response. *)
Inductive Outcome :=
| Responded (status : Z)
| TransportError.

(** The error an attempt throws, with the flags [executeRequest]
    sets; an error thrown by the HTTP library carries none of them. *)
Record Error := {
  isRateLimit : bool;
  isClientError : bool;
  isServerError : bool;
  errorStatus : option Z
}.

Inductive Attempt :=
| Returned (status : Z)
| Raised (e : Error).

Inductive ErrorType := RATE_LIMIT | CLIENT_ERROR | SERVER_ERROR | NETWORK_ERROR.

(** [normalizeError(error)], the [type] of its result. *)
Definition normalizeError (e : Error) : ErrorType :=
  if isRateLimit e then RATE_LIMIT
  else if isClientError e then CLIENT_ERROR
  else if isServerError e then SERVER_ERROR
  else NETWORK_ERROR.

(** [if (proxy)]: [null] and the empty string are falsy. *)
Definition truthy (proxy : option string) : option string :=
  match proxy with
  | Some p => if String.eqb p "" then None else Some p
  | None => None
  end.

(** [executeRequest(config)]; [rotationEnabled] is
    [SETTINGS.PROXY.ROTATION_ENABLED] and [o] what the request meets.  The
    HTTP client is configured with [validateStatus: status < 500], so a
    status of 500 or more makes the request throw. *)
Definition executeRequest (S : Settings) (rotationEnabled : bool) (rand : Q)
    (now : Z) (o : Outcome) (c : t) : Attempt * t :=
  let '(selected, pm1) :=
    if rotationEnabled && ProxyManager.hasProxies (proxyManager c)
    then ProxyManager.getRandomProxy rand now (proxyManager c)
    else (None, proxyManager c) in
  let proxy := truthy selected in
  let c1 := set_proxyManager pm1 c in
  let tried : Attempt * t :=
    match o with
    | TransportError =>
        (Raised {| isRateLimit := false; isClientError := false;
                   isServerError := false; errorStatus := None |}, c1)
    | Responded status =>
        if 500 <=? status then
          (Raised {| isRateLimit := false; isClientError := false;
                     isServerError := false; errorStatus := Some status |}, c1)
        else if status =? 200 then
          (Returned status,
           match proxy with
           | Some p => set_proxyManager (ProxyManager.markProxySuccess p now pm1) c1
           | None => c1
           end)
        else if status =? 429 then
          let c2 := incRateLimitedRequests c1 in
          (Raised {| isRateLimit := true; isClientError := false;
                     isServerError := false; errorStatus := Some status |},
           match proxy with
           | Some p =>
               set_proxyManager (ProxyManager.markProxyRateLimited p 60000 pm1) c2
           | None => c2
           end)
        else if (400 <=? status) && (status <? 500) then
          (Raised {| isRateLimit := false; isClientError := true;
                     isServerError := false; errorStatus := Some status |}, c1)
        else
          (Raised {| isRateLimit := false; isClientError := false;
                     isServerError := true; errorStatus := Some status |},
           match proxy with
           | Some p =>
               incProxyFailures
                 (set_proxyManager
                    (ProxyManager.markProxyFailure S p ("HTTP " ++ pretty status) now pm1)
                    c1)
           | None => c1
           end)
    end in
  match tried with
  | (Returned status, c2) => (Returned status, c2)
  | (Raised e, c2) =>
      (* catch *)
      match proxy with
      | Some p =>
          if negb (isClientError e) then
            (Raised e,
             incProxyFailures
               (set_proxyManager
                  (ProxyManager.markProxyFailure S p "error" now (proxyManager c2)) c2))
          else (Raised e, c2)
      | None => (Raised e, c2)
      end
  end.

(** [pRetry(() => this.executeRequest(requestConfig), {retries})]: the
    attempt is repeated until it returns or [retries] further attempts
    have failed; [attempt i] is the [i]-th attempt.  The errors of
    [executeRequest] are of the kind the library retries; of the errors
    of the failed attempts the library hands one on, taken here to be
    the last. *)
Fixpoint pRetry (attempt : nat → t → Attempt * t) (retries : nat)
    (attemptNumber : nat) (c : t) : Attempt * t :=
  match attempt attemptNumber c with
  | (Returned status, c1) => (Returned status, c1)
  | (Raised e, c1) =>
      match retries with
      | O => (Raised e, c1)
      | Datatypes.S retries' => pRetry attempt retries' (Datatypes.S attemptNumber) c1
      end
  end.

(** [updateAverageResponseTime(responseTime)]; the arithmetic is exact. *)
Definition updateAverageResponseTime (responseTime : Z) (c : t) : t :=
  let st := stats c in
  let totalRequests' := successfulRequests st in
  set_stats
    {| totalRequests := totalRequests st;
       successfulRequests := successfulRequests st;
       failedRequests := failedRequests st;
       rateLimitedRequests := rateLimitedRequests st;
       proxyFailures := proxyFailures st;
       averageResponseTime :=
         ((averageResponseTime st * inject_Z (totalRequests' - 1) + inject_Z responseTime)
          / inject_Z totalRequests')%Q |} c.

(** What the environment supplies to one [makeRequest]: the outcome of
    the connection attempt of a first [initialize], the rate limiter's
    random draw, clock reading and scheduling outcome, the measured
    response time, and for each attempt its random draw, clock reading
    and what the request meets. *)
Record Environment := {
  connect : option ProxyManager.Redis;
  limiterRand : Q;
  limiterNow : Z;
  waited : option Z;
  responseTime : Z;
  attemptRand : nat → Q;
  attemptNow : nat → Z;
  outcome : nat → Outcome
}.

(** [makeRequest(endpoint, params, options)]; [retries] is
    [options.retries || SETTINGS.ERROR_HANDLING.MAX_RETRIES].  The result
    is the status of the response whose data is returned, or the type of
    the normalized error that is thrown. *)
Definition makeRequest (S : Settings) (valid : string → bool)
    (D : RateLimiter.Defaults) (RATE_LIMITS : gmap string RateLimiter.RateConfig)
    (DEFAULT : RateLimiter.RateConfig) (rotationEnabled : bool) (retries : nat)
    (endpoint : string) (env : Environment) (c : t) : (ErrorType + Z) * t :=
  let c0 := if isInitialized c then c else initialize S valid (connect env) c in
  let c1 := incTotalRequests c0 in
  match RateLimiter.waitForSlot S D RATE_LIMITS DEFAULT (limiterRand env) endpoint
          (limiterNow env) (waited env) (rateLimiter c1) with
  | (Throw _, l) =>
      (inl NETWORK_ERROR, incFailedRequests (set_rateLimiter l c1))
  | (Ok _, l) =>
      let c2 := set_rateLimiter l c1 in
      match pRetry (λ i, executeRequest S rotationEnabled (attemptRand env i)
                           (attemptNow env i) (outcome env i))
                   retries 0 c2 with
      | (Returned status, c3) =>
          let st := stats c3 in
          let c4 :=
            set_stats
              {| totalRequests := totalRequests st;
                 successfulRequests := successfulRequests st + 1;
                 failedRequests := failedRequests st;
                 rateLimitedRequests := rateLimitedRequests st;
                 proxyFailures := proxyFailures st;
                 averageResponseTime := averageResponseTime st |} c3 in
          (inr status, updateAverageResponseTime (responseTime env) c4)
      | (Raised e, c3) => (inl (normalizeError e), incFailedRequests c3)
      end
  end.

(** [resetStats()] *)
Definition resetStats (c : t) : t :=
  set_stats
    {| totalRequests := 0; successfulRequests := 0; failedRequests := 0;
       rateLimitedRequests := 0; proxyFailures := 0; averageResponseTime := 0 |} c.

End APIClient.

(** ** utils/deduplicator.js *)

Module Deduplicator.

Inductive DedupType := users | posts | follows.

#[global] Instance DedupType_eq_dec : EqDecision DedupType.
Proof. solve_decision. Defined.

(** The property name in [bloomFilters], [bloomConfig] and [stats]. *)
Definition typeName (ty : DedupType) : string :=
  match ty with users => "users" | posts => "posts" | follows => "follows" end.

(** The prefix of the record keys: [user:<hash>], [post:<hash>],
    [follow:<hash>]. *)
Definition recordPrefix (ty : DedupType) : string :=
  match ty with users => "user" | posts => "post" | follows => "follow" end.

(** The filter of the bloom-filters package, as far as the class uses
    it: a bit array and the positions an element hashes to.  The
    package is pinned at [^3.0.1]; its [BloomFilter] has [add], [has],
    [saveAsJSON] and the static [fromJSON], and neither a [clear] nor a
    [toJSON] method, so the calls [filter.clear()] and [filter.toJSON()]
    of the class throw a [TypeError]. *)
Record BloomFilter := { size : nat; nbHashes : nat; bits : gset nat }.

(** What [setEx] stores under a record key. *)
Record RecordData := {
  identifier : string;
  metadata : list (string * string)
}.

(** What a key of the store holds: a record, or under [bloom:<type>] a
    serialized filter, which [initializeBloomFilters] loads when it finds
    one. *)
Inductive Value :=
| VRecord (d : RecordData)
| VBloom (f : BloomFilter).

Record Entry := { value : Value; expireAt : option Z }.

(** The key-value store: server time in milliseconds and the key
    space.  A key whose expiry time has passed does not exist. *)
Record Redis := { clock : Z; data : gmap string Entry }.

Definition isLive (now : Z) (e : Entry) : bool :=
  match expireAt e with
  | Some when => negb (when <? now)
  | None => true
  end.

Definition redis_get (r : Redis) (key : string) : option Value :=
  match data r !! key with
  | Some e => if isLive (clock r) e then Some (value e) else None
  | None => None
  end.

Definition redis_exists (r : Redis) (key : string) : bool :=
  match data r !! key with
  | Some e => isLive (clock r) e
  | None => false
  end.

Definition redis_setEx (key : string) (seconds : Z) (v : Value) (r : Redis) : Redis :=
  {| clock := clock r;
     data := <[key := {| value := v; expireAt := Some (clock r + seconds * 1000) |}]> (data r) |}.

Definition redis_del (key : string) (r : Redis) : Redis :=
  {| clock := clock r; data := delete key (data r) |}.

(** [keys(p + '*')] followed by [del] of what it returned. *)
Definition redis_delPrefix (p : string) (r : Redis) : Redis :=
  {| clock := clock r;
     data := filter (λ kv, String.prefix p kv.1 = false) (data r) |}.

(** Time passing on the server. *)
Definition advance (dt : Z) (r : Redis) : Redis :=
  {| clock := clock r + dt; data := data r |}.

Record Stats := { checked : Z; duplicates : Z; added : Z }.
Definition zeroStats : Stats := {| checked := 0; duplicates := 0; added := 0 |}.

Record t := {
  bloomFilters : DedupType → option BloomFilter;
  redisClient : option Redis;
  isInitialized : bool;
  stats : DedupType → Stats
}.

(** [constructor()] *)
Definition new : t :=
  {| bloomFilters := λ _, None; redisClient := None; isInitialized := false;
     stats := λ _, zeroStats |}.

Definition setFilter (ty : DedupType) (f : option BloomFilter) (d : t) : t :=
  {| bloomFilters := λ ty', if decide (ty' = ty) then f else bloomFilters d ty';
     redisClient := redisClient d; isInitialized := isInitialized d;
     stats := stats d |}.

Definition setRedis (r : Redis) (d : t) : t :=
  {| bloomFilters := bloomFilters d; redisClient := Some r;
     isInitialized := isInitialized d; stats := stats d |}.

Definition setStats (ty : DedupType) (s : Stats) (d : t) : t :=
  {| bloomFilters := bloomFilters d; redisClient := redisClient d;
     isInitialized := isInitialized d;
     stats := λ ty', if decide (ty' = ty) then s else stats d ty' |}.

Definition incChecked (ty : DedupType) (d : t) : t :=
  let s := stats d ty in
  setStats ty {| checked := checked s + 1; duplicates := duplicates s; added := added s |} d.
Definition incDuplicates (ty : DedupType) (d : t) : t :=
  let s := stats d ty in
  setStats ty {| checked := checked s; duplicates := duplicates s + 1; added := added s |} d.
Definition incAdded (ty : DedupType) (d : t) : t :=
  let s := stats d ty in
  setStats ty {| checked := checked s; duplicates := duplicates s; added := added s + 1 |} d.

Section Hashing.

(** [crypto.createHash('sha256').update(identifier).digest('hex')] *)
Variable hashIdentifier : string → string.
(** The bit positions of an element in a filter of the given size and
    hash count. *)
Variable indexes : nat → nat → string → list nat.
(** The [(optimalSize, optimalHashCount)] computed from [bloomConfig]
    with [Math.log]. *)
Variable optimalParams : DedupType → nat * nat.
(** The [(fallbackSize, fallbackHashCount)] of the [catch] branch. *)
Variable fallbackParams : nat * nat.

Definition bloom_add (element : string) (f : BloomFilter) : BloomFilter :=
  {| size := size f; nbHashes := nbHashes f;
     bits := bits f ∪ list_to_set (indexes (size f) (nbHashes f) element) |}.

Definition bloom_has (element : string) (f : BloomFilter) : bool :=
  forallb (λ i, bool_decide (i ∈ bits f)) (indexes (size f) (nbHashes f) element).

(** [initializeBloomFilters()], one round of its loop.  A stored
    value that is not a serialized filter makes [fromJSON] throw, and the
    [catch] creates the fallback filter. *)
Definition initializeBloomFilter (r : Redis) (ty : DedupType) (d : t) : t :=
  match redis_get r ("bloom:" ++ typeName ty) with
  | Some (VBloom f) => setFilter ty (Some f) d
  | Some (VRecord _) =>
      let '(fallbackSize, fallbackHashCount) := fallbackParams in
      setFilter ty
        (Some {| size := fallbackSize; nbHashes := fallbackHashCount; bits := ∅ |}) d
  | None =>
      let '(optimalSize, optimalHashCount) := optimalParams ty in
      setFilter ty
        (Some {| size := optimalSize; nbHashes := optimalHashCount; bits := ∅ |}) d
  end.

Definition initializeBloomFilters (r : Redis) (d : t) : t :=
  foldl (λ d ty, initializeBloomFilter r ty d) d [users; posts; follows].

(** [initialize()]; [connect] is the outcome of
    [redisClient.connect()], [None] when the store cannot be reached.
    The [catch] logs and rethrows. *)
Definition initialize (connect : option Redis) (d : t) : Result unit * t :=
  match connect with
  | None => (Throw "connect ECONNREFUSED", d)
  | Some r =>
      let d1 := initializeBloomFilters r (setRedis r d) in
      (Ok (),
       {| bloomFilters := bloomFilters d1; redisClient := redisClient d1;
          isInitialized := true; stats := stats d1 |})
  end.

Definition recordKey (ty : DedupType) (identifier : string) : string :=
  recordPrefix ty ++ ":" ++ hashIdentifier identifier.

(** The common body of [isUserDuplicate], [isPostDuplicate] and
    [isFollowDuplicate], which differ in the filter, the key prefix
    and the statistics they use. *)
Definition isDuplicate (ty : DedupType) (identifier : string) (d : t)
    : Result bool * t :=
  if negb (isInitialized d) then (Throw "Deduplicator not initialized", d)
  else
    let d1 := incChecked ty d in
    let hash := hashIdentifier identifier in
    match bloomFilters d1 ty, redisClient d1 with
    | Some f, Some r =>
        if negb (bloom_has hash f) then (Ok false, d1)
        else if redis_exists r (recordPrefix ty ++ ":" ++ hash)
             then (Ok true, incDuplicates ty d1)
             else (Ok false, d1)
    | _, _ => (Throw "TypeError: Cannot read properties of null", d1)
    end.

Definition isUserDuplicate (userIdentifier : string) : t → Result bool * t :=
  isDuplicate users userIdentifier.

Definition isPostDuplicate (postUri : string) : t → Result bool * t :=
  isDuplicate posts postUri.

Definition isFollowDuplicate (followerDid followeeDid : string)
    : t → Result bool * t :=
  let relationshipId := followerDid ++ ":" ++ followeeDid in
  isDuplicate follows relationshipId.

(** The common body of [markUserProcessed], [markPostProcessed] and
    [markFollowProcessed]: filter first, then the record with its
    seven-day expiry. *)
Definition markProcessed (ty : DedupType) (identifier : string)
    (meta : list (string * string)) (d : t) : Result unit * t :=
  if negb (isInitialized d) then (Throw "Deduplicator not initialized", d)
  else
    let hash := hashIdentifier identifier in
    match bloomFilters d ty with
    | None => (Throw "TypeError: Cannot read properties of null", d)
    | Some f =>
        let d1 := setFilter ty (Some (bloom_add hash f)) d in
        match redisClient d1 with
        | None => (Throw "TypeError: Cannot read properties of null", d1)
        | Some r =>
            let data := {| identifier := identifier; metadata := meta |} in
            let r1 := redis_setEx (recordPrefix ty ++ ":" ++ hash) (86400 * 7)
                        (VRecord data) r in
            (Ok (), incAdded ty (setRedis r1 d1))
        end
    end.

Definition markUserProcessed (userIdentifier : string)
    (meta : list (string * string)) : t → Result unit * t :=
  markProcessed users userIdentifier meta.

Definition markPostProcessed (postUri : string)
    (meta : list (string * string)) : t → Result unit * t :=
  markProcessed posts postUri meta.

Definition markFollowProcessed (followerDid followeeDid : string)
    (meta : list (string * string)) : t → Result unit * t :=
  let relationshipId := followerDid ++ ":" ++ followeeDid in
  markProcessed follows relationshipId meta.

(** [clear(type)], one round of its loop for the type [t].  When the
    filter of the type exists, [this.bloomFilters[t].clear()] is the call
    of a method the filter does not have: it throws before the store or
    the statistics are touched, and nothing catches it. *)
Definition clearType (ty : DedupType) (d : t) : Result unit * t :=
  match bloomFilters d ty with
  | Some _ => (Throw "TypeError: this.bloomFilters[t].clear is not a function", d)
  | None =>
      match redisClient d with
      | Some r =>
          let pattern := typeName ty ++ ":" in
          let r1 := redis_delPrefix pattern r in
          let r2 := redis_del ("bloom:" ++ typeName ty) r1 in
          (Ok (), setStats ty zeroStats (setRedis r2 d))
      | None => (Throw "TypeError: Cannot read properties of null", d)
      end
  end.

Fixpoint clearTypes (types : list DedupType) (d : t) : Result unit * t :=
  match types with
  | [] => (Ok (), d)
  | ty :: rest =>
      match clearType ty d with
      | (Ok _, d1) => clearTypes rest d1
      | (Throw e, d1) => (Throw e, d1)
      end
  end.

(** [clear(type)]; [None] is ['all']. *)
Definition clear (type : option DedupType) (d : t) : Result unit * t :=
  if negb (isInitialized d) then (Throw "Deduplicator not initialized", d)
  else
    let types :=
      match type with None => [users; posts; follows] | Some ty => [ty] end in
    clearTypes types d.

(** Time passes on the store. *)
Definition tick (dt : Z) (d : t) : t :=
  match redisClient d with
  | Some r => setRedis (advance dt r) d
  | None => d
  end.

(** An element of the [items] array of [batchCheckDuplicates]: a
    string, or an object with a [follower] and a [followee]. *)
Inductive Item :=
| ItemId (identifier : string)
| ItemFollow (follower followee : string).

(** The [results] object of [batchCheckDuplicates]. *)
Record BatchResults := {
  batchDuplicates : list Item;
  batchNewItems : list Item;
  batchTotal : Z;
  duplicateCount : Z;
  newCount : Z
}.

(** The [switch (type)] of [batchCheckDuplicates]; [None] is a type
    other than the three.  A string has no [follower] property, so for
    ['follows'] it is looked up as [undefined:undefined]; an object in
    place of a string makes the digest throw after the check has been
    counted. *)
Definition checkItem (type : option DedupType) (item : Item) (d : t) : Result bool * t :=
  match type, item with
  | Some users, ItemId userIdentifier => isUserDuplicate userIdentifier d
  | Some posts, ItemId postUri => isPostDuplicate postUri d
  | Some follows, ItemFollow follower followee => isFollowDuplicate follower followee d
  | Some follows, ItemId _ => isFollowDuplicate "undefined" "undefined" d
  | Some ty, ItemFollow _ _ =>
      if negb (isInitialized d) then (Throw "Deduplicator not initialized", d)
      else (Throw "TypeError [ERR_INVALID_ARG_TYPE]", incChecked ty d)
  | None, _ => (Throw "Unknown type", d)
  end.

(** The [for (const item of items)] loop of [batchCheckDuplicates]. *)
Fixpoint batchLoop (type : option DedupType) (items : list Item)
    (results : BatchResults) (d : t) : Result BatchResults * t :=
  match items with
  | [] => (Ok results, d)
  | item :: rest =>
      match checkItem type item d with
      | (Throw e, d1) => (Throw e, d1)
      | (Ok isDuplicate, d1) =>
          let results' :=
            if isDuplicate then
              {| batchDuplicates := (batchDuplicates results ++ [item])%list;
                 batchNewItems := batchNewItems results;
                 batchTotal := batchTotal results;
                 duplicateCount := duplicateCount results + 1;
                 newCount := newCount results |}
            else
              {| batchDuplicates := batchDuplicates results;
                 batchNewItems := (batchNewItems results ++ [item])%list;
                 batchTotal := batchTotal results;
                 duplicateCount := duplicateCount results;
                 newCount := newCount results + 1 |} in
          batchLoop type rest results' d1
      end
  end.

(** [batchCheckDuplicates(items, type)], for [items] an array. *)
Definition batchCheckDuplicates (items : list Item) (type : option DedupType) (d : t)
    : Result BatchResults * t :=
  batchLoop type items
    {| batchDuplicates := []; batchNewItems := [];
       batchTotal := Z.of_nat (length items); duplicateCount := 0; newCount := 0 |} d.

(** [saveBloomFilters()], one round of its loop.  For a filter that
    exists, [filter.toJSON()] is the call of a method the filter does not
    have: it throws before [redisClient.set] is reached, so no filter is
    ever written to the store. *)
Definition saveBloomFilter (ty : DedupType) (d : t) : Result unit * t :=
  match bloomFilters d ty with
  | None => (Ok (), d)
  | Some _ => (Throw "TypeError: filter.toJSON is not a function", d)
  end.

Fixpoint saveBloomFilterTypes (types : list DedupType) (d : t) : Result unit * t :=
  match types with
  | [] => (Ok (), d)
  | ty :: rest =>
      match saveBloomFilter ty d with
      | (Ok _, d1) => saveBloomFilterTypes rest d1
      | (Throw e, d1) => (Throw e, d1)
      end
  end.

(** [saveBloomFilters()]; the [catch] logs and rethrows. *)
Definition saveBloomFilters (d : t) : Result unit * t :=
  if negb (isInitialized d) then (Throw "Deduplicator not initialized", d)
  else saveBloomFilterTypes [users; posts; follows] d.

(** [close()]: the filters are saved and the connection is closed; a
    failure of either is caught and logged, and leaves the object
    initialized. *)
Definition close (d : t) : t :=
  if isInitialized d then
    match saveBloomFilters d with
    | (Ok _, d1) =>
        match redisClient d1 with
        | Some _ =>
            {| bloomFilters := bloomFilters d1; redisClient := redisClient d1;
               isInitialized := false; stats := stats d1 |}
        | None => d1   (* TypeError: Cannot read properties of null *)
        end
    | (Throw _, d1) => d1
    end
  else d.

End Hashing.

End Deduplicator.

(** ** Array.prototype.sort with a comparator: a stable sort *)

Section Sort.
Context {A : Type}.
(** [before a b]: the comparator puts [a] strictly before [b]. *)
Variable before : A → A → bool.

Fixpoint insertSorted (x : A) (l : list A) : list A :=
  match l with
  | [] => [x]
  | y :: l' => if before y x then y :: insertSorted x l' else x :: y :: l'
  end.

Fixpoint stableSort (l : list A) : list A :=
  match l with
  | [] => []
  | x :: l' => insertSorted x (stableSort l')
  end.
End Sort.

(** [s.endsWith(suffix)] *)
Definition endsWith (suffix s : string) : bool :=
  String.prefix (String.rev suffix) (String.rev s).

(** ** core/checkpoint_manager.js *)

Module CheckpointManager.

Section WithState.
(** The state blob is opaque to the manager. *)
Variable State : Type.

(** The JSON document of a checkpoint file; [timestamp] is the ISO
    date as milliseconds since the epoch. *)
Record Checkpoint := {
  id : string;
  scraperType : string;
  sessionId : string;
  timestamp : Z;
  counter : Z;
  state : State;
  metadata : list (string * string)
}.

(** The checkpoint directory: file names and contents, in
    [readdir] order. *)
Definition Dir : Type := list (string * Checkpoint).

Record t := {
  this_scraperType : string;
  this_sessionId : string;
  currentCheckpoint : option Checkpoint;
  checkpointCounter : Z;
  lastCheckpointTime : option Z
}.

(** [constructor(scraperType, options)].  [scraperType] may be
    [undefined]; [path.join] rejects an argument that is not a
    string. *)
Definition new (scraperType : option string) (sessionId : string) : Result t :=
  match scraperType with
  | None =>
      Throw "TypeError [ERR_INVALID_ARG_TYPE]: The path argument must be of type string"
  | Some ty =>
      Ok {| this_scraperType := if String.eqb ty "" then "unknown_scraper" else ty;
            this_sessionId := sessionId;
            currentCheckpoint := None;
            checkpointCounter := 0;
            lastCheckpointTime := None |}
  end.

Definition pathExists (name : string) (fs : Dir) : bool :=
  existsb (λ f, String.eqb f.1 name) fs.

Definition readJson (name : string) (fs : Dir) : option Checkpoint :=
  snd <$> find (λ f, String.eqb f.1 name) fs.

Definition writeJson (name : string) (c : Checkpoint) (fs : Dir) : Dir :=
  if pathExists name fs
  then map (λ f, if String.eqb f.1 name then (name, c) else f) fs
  else (fs ++ [(name, c)])%list.

Definition remove (name : string) (fs : Dir) : Dir :=
  filter (λ f, String.eqb f.1 name = false) fs.

(** [listCheckpoints()] *)
Definition listCheckpoints (m : t) (fs : Dir) : list Checkpoint :=
  snd <$>
    filter (λ f, String.prefix (this_scraperType m) f.1 && endsWith ".json" f.1 = true) fs.

(** [loadCheckpoint(checkpointId)] *)
Definition loadCheckpoint (checkpointId : string) (m : t) (fs : Dir)
    : option Checkpoint * t :=
  let checkpointPath := checkpointId ++ ".json" in
  if negb (pathExists checkpointPath fs) then (None, m)
  else
    match readJson checkpointPath fs with
    | Some checkpoint =>
        (Some checkpoint,
         {| this_scraperType := this_scraperType m;
            this_sessionId := this_sessionId m;
            currentCheckpoint := Some checkpoint;
            checkpointCounter := checkpointCounter m;
            lastCheckpointTime := lastCheckpointTime m |})
    | None => (None, m)
    end.

(** [loadLatestCheckpoint()]; [now] is [Date.now()]. *)
Definition loadLatestCheckpoint (S : Settings) (now : Z) (m : t) (fs : Dir)
    : option Checkpoint * t :=
  let checkpoints := listCheckpoints m fs in
  if (length checkpoints =? 0)%nat then (None, m)
  else
    (* Sort by timestamp (most recent first) *)
    let sorted := stableSort (λ a b, timestamp b - timestamp a <? 0) checkpoints in
    match sorted with
    | [] => (None, m)
    | latestCheckpoint :: _ =>
        let maxCheckpointAge :=
          if MAX_CHECKPOINT_AGE S =? 0 then 86400000 else MAX_CHECKPOINT_AGE S in
        let checkpointAge := now - timestamp latestCheckpoint in
        if maxCheckpointAge <? checkpointAge then (None, m)
        else
          (Some latestCheckpoint,
           {| this_scraperType := this_scraperType m;
              this_sessionId := this_sessionId m;
              currentCheckpoint := Some latestCheckpoint;
              checkpointCounter := checkpointCounter m;
              lastCheckpointTime := lastCheckpointTime m |})
    end.

(** [deleteCheckpoint(checkpointId)] *)
Definition deleteCheckpoint (checkpointId : string) (fs : Dir) : bool * Dir :=
  let checkpointPath := checkpointId ++ ".json" in
  if pathExists checkpointPath fs
  then (true, remove (checkpointPath ++ ".backup") (remove checkpointPath fs))
  else (false, fs).

(** [cleanupOldCheckpoints()] *)
Definition cleanupOldCheckpoints (S : Settings) (m : t) (fs : Dir) : Dir :=
  let checkpoints := listCheckpoints m fs in
  let maxCheckpoints := CHECKPOINT_FREQUENCY S * 2 in
  if Z.of_nat (length checkpoints) <=? maxCheckpoints then fs
  else
    (* Sort by timestamp (oldest first) *)
    let sorted := stableSort (λ a b, timestamp a - timestamp b <? 0) checkpoints in
    let checkpointsToDelete :=
      take (Z.to_nat (Z.of_nat (length checkpoints) - maxCheckpoints)) sorted in
    foldl (λ fs c, (deleteCheckpoint (id c) fs).2) fs checkpointsToDelete.

(** [createCheckpoint(state, metadata)]; [now] is the creation time
    and [stamp] its [YYYY-MM-DD_HH-mm-ss] rendering; [backup] is
    [SETTINGS.CHECKPOINT.BACKUP_CHECKPOINTS]. *)
Definition createCheckpoint (S : Settings) (backup : bool) (now : Z) (stamp : string)
    (st : State) (meta : list (string * string)) (m : t) (fs : Dir)
    : option string * t * Dir :=
  if negb (AUTO_CHECKPOINT S) then (None, m, fs)
  else
    let counter' := checkpointCounter m + 1 in
    let checkpointId :=
      this_scraperType m ++ "_" ++ this_sessionId m ++ "_" ++ stamp ++ "_"
        ++ pretty counter' in
    let checkpoint :=
      {| id := checkpointId;
         scraperType := this_scraperType m;
         sessionId := this_sessionId m;
         timestamp := now;
         counter := counter';
         state := st;
         metadata := ([("version", "1.0.0")] ++ meta)%list |} in
    let checkpointPath := checkpointId ++ ".json" in
    let fs1 := writeJson checkpointPath checkpoint fs in
    let m1 :=
      {| this_scraperType := this_scraperType m;
         this_sessionId := this_sessionId m;
         currentCheckpoint := Some checkpoint;
         checkpointCounter := counter';
         lastCheckpointTime := Some now |} in
    let fs2 :=
      if backup then writeJson (checkpointPath ++ ".backup") checkpoint fs1 else fs1 in
    (Some checkpointId, m1, cleanupOldCheckpoints S m1 fs2).

(** [shouldCreateCheckpoint(itemsProcessed)]; [CHECKPOINT_INTERVAL] is
    [SETTINGS.OUTPUT.CHECKPOINT_INTERVAL] and [now] is [Date.now()].  A
    remainder by zero is [NaN], which is not [0]; a last checkpoint time
    of [0] is falsy. *)
Definition shouldCreateCheckpoint (S : Settings) (CHECKPOINT_INTERVAL : Z) (now : Z)
    (itemsProcessed : Z) (m : t) : bool :=
  if negb (AUTO_CHECKPOINT S) then false
  else if (0 <? itemsProcessed)
          && negb (CHECKPOINT_INTERVAL =? 0)
          && (Z.rem itemsProcessed CHECKPOINT_INTERVAL =? 0) then true
  else
    match lastCheckpointTime m with
    | Some last =>
        if last =? 0 then true
        else
          let timeSinceLastCheckpoint := now - last in
          let checkpointInterval := CHECKPOINT_FREQUENCY S * 60 * 1000 in
          checkpointInterval <=? timeSinceLastCheckpoint
    | None => true
    end.

(** The document [exportCheckpoints] writes to its output path. *)
Record ExportData := {
  exportScraperType : string;
  checkpointCount : Z;
  checkpoints : list Checkpoint
}.

(** [exportCheckpoints(outputPath)]: the document written. *)
Definition exportCheckpoints (m : t) (fs : Dir) : ExportData :=
  let checkpoints := listCheckpoints m fs in
  {| exportScraperType := this_scraperType m;
     checkpointCount := Z.of_nat (length checkpoints);
     checkpoints := checkpoints |}.

(** [importCheckpoints(inputPath)]; [importData] is the document at the
    input path, [None] when it cannot be read.  An error is caught and
    makes the method return [0]. *)
Definition importCheckpoints (importData : option ExportData) (m : t) (fs : Dir)
    : Z * Dir :=
  match importData with
  | None => (0, fs)
  | Some importData =>
      if negb (String.eqb (exportScraperType importData) (this_scraperType m))
      then (0, fs)
      else
        foldl (λ acc checkpoint,
                 let '(importedCount, fs) := acc in
                 let checkpointPath := id checkpoint ++ ".json" in
                 (* Don't overwrite existing checkpoints *)
                 if negb (pathExists checkpointPath fs)
                 then (importedCount + 1, writeJson checkpointPath checkpoint fs)
                 else (importedCount, fs))
              (0, fs) (checkpoints importData)
  end.

End WithState.

Arguments id {State} _.
Arguments scraperType {State} _.
Arguments sessionId {State} _.
Arguments timestamp {State} _.
Arguments counter {State} _.
Arguments state {State} _.
Arguments metadata {State} _.
Arguments this_scraperType {State} _.
Arguments this_sessionId {State} _.
Arguments currentCheckpoint {State} _.
Arguments checkpointCounter {State} _.
Arguments lastCheckpointTime {State} _.
Arguments listCheckpoints {State} _ _.
Arguments loadCheckpoint {State} _ _ _.
Arguments loadLatestCheckpoint {State} _ _ _ _.
Arguments createCheckpoint {State} _ _ _ _ _ _ _ _.
Arguments cleanupOldCheckpoints {State} _ _ _.
Arguments deleteCheckpoint {State} _ _.
Arguments writeJson {State} _ _ _.
Arguments readJson {State} _ _.
Arguments pathExists {State} _ _.
Arguments remove {State} _ _.
Arguments shouldCreateCheckpoint {State} _ _ _ _ _.
Arguments exportScraperType {State} _.
Arguments checkpointCount {State} _.
Arguments checkpoints {State} _.
Arguments exportCheckpoints {State} _ _.
Arguments importCheckpoints {State} _ _ _.

End CheckpointManager.

(** ** scrapers/relationships_scraper.js *)

Module RelationshipsScraper.

(** A profile as the API returns it and as the queues hold it; a
    missing [did] is the empty string, a missing count is [0]. *)
Record Profile := {
  did : string;
  handle : string;
  displayName : string;
  followersCount : Z;
  followsCount : Z
}.

(** A queue entry: the profile fields and [depth]. *)
Record QueuedUser := { user : Profile; depth : Z }.

(** An item of a followers or follows page after validation. *)
Record Relationship := {
  subject : option Profile;
  createdAt : string;
  indexedAt : string;
  uri : string
}.

Inductive RelationshipType := follower | following.

Definition typeString (ty : RelationshipType) : string :=
  match ty with follower => "follower" | following => "following" end.

(** [relationshipRecord] *)
Record RelationshipRecord := {
  source : string * string;
  target : string * string * string;
  type : RelationshipType;
  recordDepth : Z;
  recordUri : string
}.

Record Options := {
  batchSize : Z;
  maxRelationships : Z;
  maxDepth : Z;
  maxFollowersPerUser : Z;
  maxFollowingPerUser : Z;
  saveInterval : Z;
  checkpointInterval : Z;
  prioritizePopularUsers : bool;
  minFollowerCount : Z
}.

Record Stats := {
  usersProcessed : Z;
  relationshipsDiscovered : Z;
  relationshipsProcessed : Z;
  relationshipsSaved : Z;
  duplicatesSkipped : Z;
  errors : Z;
  currentDepth : Z
}.

Definition zeroStats : Stats :=
  {| usersProcessed := 0; relationshipsDiscovered := 0; relationshipsProcessed := 0;
     relationshipsSaved := 0; duplicatesSkipped := 0; errors := 0; currentDepth := 0 |}.

(** The scraper object.  [saved] is what [fileManager.saveRelationships]
    has written, one entry per file. *)
Record t := {
  options : Options;
  stats : Stats;
  isRunning : bool;
  shouldStop : bool;
  currentBatch : list RelationshipRecord;
  processedUsers : gset string;
  depthQueues : gmap Z (list QueuedUser);
  deduplicator : Deduplicator.t;
  proxyManager : ProxyManager.t;
  saved : list (list RelationshipRecord)
}.

(** The fields the constructor assigns, with the options already
    defaulted. *)
Definition constructed (o : Options) : t :=
  {| options := o; stats := zeroStats; isRunning := false; shouldStop := false;
     currentBatch := []; processedUsers := ∅; depthQueues := ∅;
     deduplicator := Deduplicator.new; proxyManager := ProxyManager.new;
     saved := [] |}.

Definition set_stats (x : Stats) (s : t) : t :=
  {| options := options s; stats := x; isRunning := isRunning s;
     shouldStop := shouldStop s; currentBatch := currentBatch s;
     processedUsers := processedUsers s; depthQueues := depthQueues s;
     deduplicator := deduplicator s; proxyManager := proxyManager s;
     saved := saved s |}.

Definition set_isRunning (x : bool) (s : t) : t :=
  {| options := options s; stats := stats s; isRunning := x;
     shouldStop := shouldStop s; currentBatch := currentBatch s;
     processedUsers := processedUsers s; depthQueues := depthQueues s;
     deduplicator := deduplicator s; proxyManager := proxyManager s;
     saved := saved s |}.

Definition set_shouldStop (x : bool) (s : t) : t :=
  {| options := options s; stats := stats s; isRunning := isRunning s;
     shouldStop := x; currentBatch := currentBatch s;
     processedUsers := processedUsers s; depthQueues := depthQueues s;
     deduplicator := deduplicator s; proxyManager := proxyManager s;
     saved := saved s |}.

Definition set_currentBatch (x : list RelationshipRecord) (s : t) : t :=
  {| options := options s; stats := stats s; isRunning := isRunning s;
     shouldStop := shouldStop s; currentBatch := x;
     processedUsers := processedUsers s; depthQueues := depthQueues s;
     deduplicator := deduplicator s; proxyManager := proxyManager s;
     saved := saved s |}.

Definition set_processedUsers (x : gset string) (s : t) : t :=
  {| options := options s; stats := stats s; isRunning := isRunning s;
     shouldStop := shouldStop s; currentBatch := currentBatch s;
     processedUsers := x; depthQueues := depthQueues s;
     deduplicator := deduplicator s; proxyManager := proxyManager s;
     saved := saved s |}.

Definition set_depthQueues (x : gmap Z (list QueuedUser)) (s : t) : t :=
  {| options := options s; stats := stats s; isRunning := isRunning s;
     shouldStop := shouldStop s; currentBatch := currentBatch s;
     processedUsers := processedUsers s; depthQueues := x;
     deduplicator := deduplicator s; proxyManager := proxyManager s;
     saved := saved s |}.

Definition set_deduplicator (x : Deduplicator.t) (s : t) : t :=
  {| options := options s; stats := stats s; isRunning := isRunning s;
     shouldStop := shouldStop s; currentBatch := currentBatch s;
     processedUsers := processedUsers s; depthQueues := depthQueues s;
     deduplicator := x; proxyManager := proxyManager s;
     saved := saved s |}.

Definition set_proxyManager (x : ProxyManager.t) (s : t) : t :=
  {| options := options s; stats := stats s; isRunning := isRunning s;
     shouldStop := shouldStop s; currentBatch := currentBatch s;
     processedUsers := processedUsers s; depthQueues := depthQueues s;
     deduplicator := deduplicator s; proxyManager := x;
     saved := saved s |}.

Definition set_saved (x : list (list RelationshipRecord)) (s : t) : t :=
  {| options := options s; stats := stats s; isRunning := isRunning s;
     shouldStop := shouldStop s; currentBatch := currentBatch s;
     processedUsers := processedUsers s; depthQueues := depthQueues s;
     deduplicator := deduplicator s; proxyManager := proxyManager s;
     saved := x |}.

Definition addErrors (n : Z) (s : t) : t :=
  let st := stats s in
  set_stats
    {| usersProcessed := usersProcessed st;
       relationshipsDiscovered := relationshipsDiscovered st;
       relationshipsProcessed := relationshipsProcessed st;
       relationshipsSaved := relationshipsSaved st;
       duplicatesSkipped := duplicatesSkipped st;
       errors := errors st + n; currentDepth := currentDepth st |} s.

Definition incDuplicatesSkipped (s : t) : t :=
  let st := stats s in
  set_stats
    {| usersProcessed := usersProcessed st;
       relationshipsDiscovered := relationshipsDiscovered st;
       relationshipsProcessed := relationshipsProcessed st;
       relationshipsSaved := relationshipsSaved st;
       duplicatesSkipped := duplicatesSkipped st + 1;
       errors := errors st; currentDepth := currentDepth st |} s.

Definition addDiscovered (n : Z) (s : t) : t :=
  let st := stats s in
  set_stats
    {| usersProcessed := usersProcessed st;
       relationshipsDiscovered := relationshipsDiscovered st + n;
       relationshipsProcessed := relationshipsProcessed st;
       relationshipsSaved := relationshipsSaved st;
       duplicatesSkipped := duplicatesSkipped st;
       errors := errors st; currentDepth := currentDepth st |} s.

Definition addProcessed (n : Z) (s : t) : t :=
  let st := stats s in
  set_stats
    {| usersProcessed := usersProcessed st;
       relationshipsDiscovered := relationshipsDiscovered st;
       relationshipsProcessed := relationshipsProcessed st + n;
       relationshipsSaved := relationshipsSaved st;
       duplicatesSkipped := duplicatesSkipped st;
       errors := errors st; currentDepth := currentDepth st |} s.

Definition addSaved (n : Z) (s : t) : t :=
  let st := stats s in
  set_stats
    {| usersProcessed := usersProcessed st;
       relationshipsDiscovered := relationshipsDiscovered st;
       relationshipsProcessed := relationshipsProcessed st;
       relationshipsSaved := relationshipsSaved st + n;
       duplicatesSkipped := duplicatesSkipped st;
       errors := errors st; currentDepth := currentDepth st |} s.

Definition incUsersProcessed (s : t) : t :=
  let st := stats s in
  set_stats
    {| usersProcessed := usersProcessed st + 1;
       relationshipsDiscovered := relationshipsDiscovered st;
       relationshipsProcessed := relationshipsProcessed st;
       relationshipsSaved := relationshipsSaved st;
       duplicatesSkipped := duplicatesSkipped st;
       errors := errors st; currentDepth := currentDepth st |} s.

Definition set_currentDepth (d : Z) (s : t) : t :=
  let st := stats s in
  set_stats
    {| usersProcessed := usersProcessed st;
       relationshipsDiscovered := relationshipsDiscovered st;
       relationshipsProcessed := relationshipsProcessed st;
       relationshipsSaved := relationshipsSaved st;
       duplicatesSkipped := duplicatesSkipped st;
       errors := errors st; currentDepth := d |} s.

(** Everything handed to the output so far: the files written and the
    batch waiting for the next write. *)
Definition emitted (s : t) : list RelationshipRecord :=
  (concat (saved s) ++ currentBatch s)%list.

(** The state blob [saveCheckpoint] builds. *)
Record CheckpointData := {
  cd_currentDepth : Z;
  cd_processedUsers : list string;
  cd_depthQueues : list (Z * list QueuedUser);
  cd_stats : Stats;
  cd_options : Options
}.

(** [constructor(options)].  Before it assigns the fields it calls
    [new CheckpointManager()] without a scraper type, and that
    constructor throws; [sessionId] is the identifier the manager would
    draw. *)
Definition new (sessionId : string) (o : Options) : Result t :=
  match CheckpointManager.new CheckpointData None sessionId with
  | Throw e => Throw e
  | Ok _ => Ok (constructed o)
  end.

(** A checkpoint object as [start] reads it: its [data] property, which
    the object may lack, and its [metadata]. *)
Record LoadedCheckpoint := {
  data : option CheckpointData;
  loadedMetadata : list (string * string)
}.

(** The checkpoint manager as the scraper uses it: the two members it
    calls, each of which the object may or may not have.  [W] is the
    manager together with its directory. *)
Record CheckpointApi (W : Type) := {
  member_saveCheckpoint :
    option (string → CheckpointData → list (string * string) → W → Result unit * W);
  member_loadCheckpoint :
    option (string → W → Result (option LoadedCheckpoint) * W)
}.
Arguments member_saveCheckpoint {W} _.
Arguments member_loadCheckpoint {W} _.

(** The members of the repository's [CheckpointManager] under the names
    the scraper uses: the class defines [loadCheckpoint(checkpointId)]
    and no [saveCheckpoint]; the documents it returns have a [state]
    property and no [data]. *)
Definition checkpointManager
    : CheckpointApi (CheckpointManager.t CheckpointData * CheckpointManager.Dir CheckpointData) :=
  {| member_saveCheckpoint := None;
     member_loadCheckpoint :=
       Some (λ checkpointId w,
               let '(c, m') := CheckpointManager.loadCheckpoint checkpointId w.1 w.2 in
               (Ok ((λ c, {| data := None;
                             loadedMetadata := CheckpointManager.metadata c |}) <$> c),
                (m', w.2))) |}.

(** The upstream API: the successive pages of a listing, each a
    response or a failed request; the last page carries no cursor. *)
Record Api := {
  getFollowers : string → list (Result (list Relationship));
  getFollows : string → list (Result (list Relationship))
}.

Section Operations.

Variable hashIdentifier : string → string.
Variable indexes : nat → nat → string → list nat.
Variable optimalParams : Deduplicator.DedupType → nat * nat.
Variable fallbackParams : nat * nat.
(** [validator.validateBatch(items, 'follow')]: the valid items and the
    number of validation errors. *)
Variable validateBatch : list Relationship → list Relationship * Z.
(** The checkpoint manager object and its world. *)
Variable W : Type.
Variable cm : CheckpointApi W.

(** [saveBatch(force)] *)
Definition saveBatch (force : bool) (s : t) : t :=
  if (length (currentBatch s) =? 0)%nat then s
  else if negb force && (Z.of_nat (length (currentBatch s)) <? saveInterval (options s))
  then s
  else
    let s1 := set_saved (saved s ++ [currentBatch s])%list s in
    let s2 := addSaved (Z.of_nat (length (currentBatch s))) s1 in
    set_currentBatch [] s2.

(** One round of the loop over [validRelationships] in
    [processRelationships]; the accumulators are [newRelationships]
    and [nextDepthUsers]. *)
Definition processRelationship (sourceUser : Profile)
    (relationshipType : RelationshipType) (currentDepth : Z)
    (acc : list RelationshipRecord * list QueuedUser * t)
    (relationship : Relationship)
    : list RelationshipRecord * list QueuedUser * t :=
  let '(newRelationships, nextDepthUsers, s) := acc in
  match subject relationship with
  | None => acc
  | Some targetUser =>
      if String.eqb (did targetUser) "" then acc
      else
        let relationshipRecord :=
          {| source := (did sourceUser, handle sourceUser);
             target := (did targetUser, handle targetUser, displayName targetUser);
             type := relationshipType;
             recordDepth := currentDepth;
             recordUri := uri relationship |} in
        match Deduplicator.isFollowDuplicate hashIdentifier indexes
                (did sourceUser) (did targetUser) (deduplicator s) with
        | (Throw _, d1) =>
            (newRelationships, nextDepthUsers, addErrors 1 (set_deduplicator d1 s))
        | (Ok true, d1) =>
            (newRelationships, nextDepthUsers,
             incDuplicatesSkipped (set_deduplicator d1 s))
        | (Ok false, d1) =>
            let newRelationships' := (newRelationships ++ [relationshipRecord])%list in
            match Deduplicator.markFollowProcessed hashIdentifier indexes
                    (did sourceUser) (did targetUser)
                    [("type", typeString relationshipType)] d1 with
            | (Throw _, d2) =>
                (newRelationships', nextDepthUsers,
                 addErrors 1 (set_deduplicator d2 s))
            | (Ok _, d2) =>
                let s2 := set_deduplicator d2 s in
                if (currentDepth <? maxDepth (options s))
                   && negb (bool_decide (did targetUser ∈ processedUsers s))
                   && (minFollowerCount (options s) <=? followersCount targetUser)
                then
                  (newRelationships',
                   (nextDepthUsers
                      ++ [{| user := targetUser; depth := currentDepth + 1 |}])%list,
                   s2)
                else (newRelationships', nextDepthUsers, s2)
            end
        end
  end.

(** [processRelationships(relationships, sourceUser, relationshipType,
    currentDepth)] *)
Definition processRelationships (relationships : list Relationship)
    (sourceUser : Profile) (relationshipType : RelationshipType)
    (currentDepth : Z) (s : t) : Result unit * t :=
  if (length relationships =? 0)%nat then (Ok (), s)
  else
    let s0 := addDiscovered (Z.of_nat (length relationships)) s in
    let '(validRelationships, validationErrors) := validateBatch relationships in
    let s1 := if 0 <? validationErrors then addErrors validationErrors s0 else s0 in
    let '(newRelationships, nextDepthUsers, s2) :=
      foldl (processRelationship sourceUser relationshipType currentDepth)
            ([], [], s1) validRelationships in
    let s3 :=
      if (0 <? length newRelationships)%nat then
        addProcessed (Z.of_nat (length newRelationships))
          (set_currentBatch (currentBatch s2 ++ newRelationships)%list s2)
      else s2 in
    let queued :=
      if (0 <? length nextDepthUsers)%nat && (currentDepth <? maxDepth (options s3)) then
        match depthQueues s3 !! (currentDepth + 1) with
        | None => (Throw "TypeError: Cannot read properties of undefined", s3)
        | Some nextDepthQueue =>
            let sorted :=
              if prioritizePopularUsers (options s3) then
                stableSort
                  (λ a b, followersCount (user b) - followersCount (user a) <? 0)
                  nextDepthUsers
              else nextDepthUsers in
            (Ok (),
             set_depthQueues
               (<[currentDepth + 1 := (nextDepthQueue ++ sorted)%list]> (depthQueues s3))
               s3)
        end
      else (Ok (), s3) in
    match queued with
    | (Throw e, s4) => (Throw e, s4)
    | (Ok _, s4) =>
        if saveInterval (options s4) <=? Z.of_nat (length (currentBatch s4))
        then (Ok (), saveBatch false s4)
        else (Ok (), s4)
    end.

(** The [do ... while (cursor && !this.shouldStop)] loop shared by
    [scrapeUserFollowers] and [scrapeUserFollowing], over the pages
    the API serves. *)
Fixpoint scrapePages (relationshipType : RelationshipType) (u : Profile)
    (currentDepth : Z) (maxItems : Z) (scraped : Z)
    (pages : list (Result (list Relationship))) (s : t) : t :=
  match pages with
  | [] => s
  | Throw _ :: _ => addErrors 1 s
  | Ok items :: rest =>
      match
        (if (0 <? length items)%nat
         then processRelationships items u relationshipType currentDepth s
         else (Ok (), s))
      with
      | (Throw _, s1) => addErrors 1 s1
      | (Ok _, s1) =>
          let scraped' := scraped + Z.of_nat (length items) in
          if maxItems <=? scraped' then s1
          else if maxRelationships (options s1) <=? relationshipsProcessed (stats s1)
          then s1
          else if shouldStop s1 then s1
          else scrapePages relationshipType u currentDepth maxItems scraped' rest s1
      end
  end.

(** [scrapeUserFollowers(user, currentDepth)] *)
Definition scrapeUserFollowers (api : Api) (u : Profile) (currentDepth : Z) (s : t) : t :=
  let maxFollowers :=
    Z.min (maxFollowersPerUser (options s))
          (RateLimiter.js_or (followersCount u) (maxFollowersPerUser (options s))) in
  scrapePages follower u currentDepth maxFollowers 0 (getFollowers api (did u)) s.

(** [scrapeUserFollowing(user, currentDepth)] *)
Definition scrapeUserFollowing (api : Api) (u : Profile) (currentDepth : Z) (s : t) : t :=
  let maxFollowing :=
    Z.min (maxFollowingPerUser (options s))
          (RateLimiter.js_or (followsCount u) (maxFollowingPerUser (options s))) in
  scrapePages following u currentDepth maxFollowing 0 (getFollows api (did u)) s.

(** [scrapeUserRelationships(user, currentDepth)] *)
Definition scrapeUserRelationships (api : Api) (u : Profile) (currentDepth : Z)
    (s : t) : t :=
  scrapeUserFollowing api u currentDepth (scrapeUserFollowers api u currentDepth s).

(** The state object [saveCheckpoint] hands to the manager. *)
Definition checkpointState (currentDepth : Z) (s : t) : CheckpointData :=
  {| cd_currentDepth := currentDepth;
     cd_processedUsers := elements (processedUsers s);
     cd_depthQueues := map_to_list (depthQueues s);
     cd_stats := stats s;
     cd_options := options s |}.

(** [saveCheckpoint(currentDepth)]: whatever the call throws is
    caught and logged. *)
Definition saveCheckpoint (currentDepth : Z) (s : t) (w : W) : t * W :=
  match member_saveCheckpoint cm with
  | None => (s, w)   (* TypeError: saveCheckpoint is not a function *)
  | Some save =>
      (s, (save "relationships_scraper" (checkpointState currentDepth s)
             [("scraper", "relationships_scraper")] w).2)
  end.

(** The [while (queue.length > 0 && !this.shouldStop)] loop of
    [scrapeRelationships]; the boolean tells that the method
    returned from inside the loop. *)
Fixpoint processQueue (api : Api) (currentDepth : Z) (queue : list QueuedUser)
    (s : t) (w : W) : bool * t * W :=
  match queue with
  | [] => (false, s, w)
  | qu :: rest =>
      if shouldStop s then (false, s, w)
      else
        (* queue.shift() *)
        let s0 := set_depthQueues (<[currentDepth := rest]> (depthQueues s)) s in
        if bool_decide (did (user qu) ∈ processedUsers s0)
        then processQueue api currentDepth rest s0 w
        else
          let s1 := scrapeUserRelationships api (user qu) currentDepth s0 in
          let s2 :=
            incUsersProcessed
              (set_processedUsers (processedUsers s1 ∪ {[did (user qu)]}) s1) in
          let '(s3, w3) :=
            if usersProcessed (stats s2) mod 50 =? 0
            then saveCheckpoint currentDepth s2 w
            else (s2, w) in
          if maxRelationships (options s3) <=? relationshipsProcessed (stats s3)
          then (true, s3, w3)
          else processQueue api currentDepth rest s3 w3
  end.

(** The [for (depth = startDepth; depth <= maxDepth && !shouldStop;
    depth++)] loop, with [n] levels left. *)
Fixpoint scrapeLevels (api : Api) (n : nat) (currentDepth : Z) (s : t) (w : W) : t * W :=
  match n with
  | O => (s, w)
  | S n' =>
      if shouldStop s then (s, w)
      else
        let s1 := set_currentDepth currentDepth s in
        match depthQueues s1 !! currentDepth with
        | None | Some [] => scrapeLevels api n' (currentDepth + 1) s1 w
        | Some queue =>
            let '(returned, s2, w2) := processQueue api currentDepth queue s1 w in
            if returned then (s2, w2)
            else scrapeLevels api n' (currentDepth + 1) s2 w2
        end
  end.

(** [scrapeRelationships(checkpoint)] *)
Definition scrapeRelationships (api : Api) (checkpoint : option CheckpointData)
    (s : t) (w : W) : t * W :=
  let startDepth :=
    match checkpoint with Some c => cd_currentDepth c | None => 0 end in
  scrapeLevels api (Z.to_nat (maxDepth (options s) - startDepth + 1)) startDepth s w.

(** [loadDepthQueues(depthQueuesData)] *)
Definition loadDepthQueues (depthQueuesData : list (Z * list QueuedUser)) (s : t) : t :=
  foldl (λ s e,
           if e.1 <=? maxDepth (options s)
           then set_depthQueues (<[e.1 := e.2]> (depthQueues s)) s
           else s)
        s depthQueuesData.

(** [loadInitialUserQueue()]; [userFiles] are the user files the file
    manager lists, with their contents. *)
Definition loadInitialUserQueue (userFiles : list (list Profile)) (s : t)
    : Result unit * t :=
  if (length userFiles =? 0)%nat
  then (Throw "No user files found. Run users scraper first.", s)
  else
    let seedUsers :=
      (λ u, {| user := u; depth := 0 |}) <$>
        filter (λ u, negb (String.eqb (did u) "")
                     && (minFollowerCount (options s) <=? followersCount u) = true)
               (concat userFiles) in
    let sorted :=
      if prioritizePopularUsers (options s) then
        stableSort (λ a b, followersCount (user b) - followersCount (user a) <? 0)
                   seedUsers
      else seedUsers in
    match depthQueues s !! 0 with
    | None => (Throw "TypeError: Cannot read properties of undefined", s)
    | Some q =>
        (Ok (),
         set_depthQueues (<[0 := (q ++ take 1000 sorted)%list]> (depthQueues s)) s)
    end.

(** [initialize()]; the two arguments are the outcomes of the two
    connection attempts to the store.  The [catch] logs and rethrows. *)
Definition initialize (S : Settings) (valid : string → bool)
    (connectProxies : option ProxyManager.Redis)
    (connectDedup : option Deduplicator.Redis) (s : t) : Result unit * t :=
  (* apiClient.initialize() *)
  let '(_, pm) := ProxyManager.initialize S valid connectProxies (proxyManager s) in
  let s1 := set_proxyManager pm s in
  match Deduplicator.initialize optimalParams fallbackParams connectDedup (deduplicator s1) with
  | (Throw e, d) => (Throw e, set_deduplicator d s1)
  | (Ok _, d) =>
      let s2 := set_deduplicator d s1 in
      (Ok (),
       set_depthQueues
         (foldl (λ q i, <[Z.of_nat i := []]> q) (depthQueues s2)
                (seq 0 (Z.to_nat (maxDepth (options s2) + 1))))
         s2)
  end.

(** The restoring part of [start]: [checkpoint.data] is read without
    a guard. *)
Definition restore (checkpoint : LoadedCheckpoint) (s : t) : Result CheckpointData * t :=
  match data checkpoint with
  | None => (Throw "TypeError: Cannot read properties of undefined (reading 'stats')", s)
  | Some d =>
      let s1 := set_stats (cd_stats d) s in
      let s2 := set_processedUsers (list_to_set (cd_processedUsers d)) s1 in
      (Ok d, loadDepthQueues (cd_depthQueues d) s2)
  end.

(** The first part of the [try] block of [start]: the checkpoint is
    loaded and restored when [resumeOptions.resume] is set, and the
    queue is seeded from the user files when there is no checkpoint. *)
Definition loadFrontier (userFiles : list (list Profile)) (resume : bool)
    (s : t) (w : W) : Result (option CheckpointData) * t * W :=
  let loaded : Result (option CheckpointData) * t * W :=
    if resume then
      match member_loadCheckpoint cm with
      | None => (Throw "TypeError: loadCheckpoint is not a function", s, w)
      | Some load =>
          match load "relationships_scraper" w with
          | (Throw e, w1) => (Throw e, s, w1)
          | (Ok None, w1) => (Ok None, s, w1)
          | (Ok (Some checkpoint), w1) =>
              match restore checkpoint s with
              | (Throw e, s1) => (Throw e, s1, w1)
              | (Ok d, s1) => (Ok (Some d), s1, w1)
              end
          end
      end
    else (Ok None, s, w) in
  match loaded with
  | (Throw e, s1, w1) => (Throw e, s1, w1)
  | (Ok (Some d), s1, w1) => (Ok (Some d), s1, w1)
  | (Ok None, s1, w1) =>
      match loadInitialUserQueue userFiles s1 with
      | (Throw e, s2) => (Throw e, s2, w1)
      | (Ok _, s2) => (Ok None, s2, w1)
      end
  end.

(** [start(resumeOptions)]; [resume] is [resumeOptions.resume]. *)
Definition start (api : Api) (userFiles : list (list Profile)) (resume : bool)
    (s : t) (w : W) : Result unit * t * W :=
  if isRunning s then (Throw "Scraper is already running", s, w)
  else
    let s0 := set_shouldStop false (set_isRunning true s) in
    let finally (r : Result unit * t * W) : Result unit * t * W :=
      (r.1.1, set_isRunning false r.1.2, r.2) in
    finally
      (match loadFrontier userFiles resume s0 w with
       | (Throw e, s1, w1) => (Throw e, s1, w1)
       | (Ok checkpoint, s1, w1) =>
           let '(s2, w2) := scrapeRelationships api checkpoint s1 w1 in
           (Ok (), saveBatch true s2, w2)
       end).

End Operations.

End RelationshipsScraper.

(** * Statements about the embedding: predicates and sample data *)

(** ** Proxy pool *)

(** The disjointness the set operations of the manager maintain: a
    registered proxy has a status, and the healthy set shares no proxy
    with the unhealthy or the rate-limited set. *)
Definition statusInv (m : ProxyManager.t) : Prop :=
  ∀ r, ProxyManager.redisClient m = Some r →
    ProxyManager.PROXIES r ⊆
      ProxyManager.HEALTHY_PROXIES r ∪ ProxyManager.UNHEALTHY_PROXIES r
        ∪ ProxyManager.RATE_LIMITED r ∧
    ProxyManager.HEALTHY_PROXIES r ∩ ProxyManager.UNHEALTHY_PROXIES r = ∅ ∧
    ProxyManager.HEALTHY_PROXIES r ∩ ProxyManager.RATE_LIMITED r = ∅.

(** The status of [p] is exactly one of the three. *)
Definition exactlyOne (m : ProxyManager.t) (p : string) : Prop :=
  (ProxyManager.healthy m p ∧ ¬ ProxyManager.unhealthy m p ∧ ¬ ProxyManager.rateLimited m p) ∨
  (¬ ProxyManager.healthy m p ∧ ProxyManager.unhealthy m p ∧ ¬ ProxyManager.rateLimited m p) ∨
  (¬ ProxyManager.healthy m p ∧ ¬ ProxyManager.unhealthy m p ∧ ProxyManager.rateLimited m p).

(** A pool that was just registered on an empty store. *)
Definition freshPool (proxies : list string) : ProxyManager.t :=
  ProxyManager.addProxies proxies (ProxyManager.withRedis ProxyManager.new ProxyManager.emptyRedis).

(** The defaults of config/settings.js, with a failure threshold. *)
Definition sampleSettings (threshold : option Z) : Settings :=
  {| PROXY_LIST := [];
     MAX_CONSECUTIVE_FAILURES := threshold;
     RANDOMIZE_DELAYS := true;
     MIN_REQUEST_INTERVAL := 500;
     MAX_CHECKPOINT_AGE := 86400000;
     AUTO_CHECKPOINT := true;
     CHECKPOINT_FREQUENCY := 5 |}.

(** ** Deduplicator *)

(** The record expiry [86400 * 7] seconds, in milliseconds. *)
Definition recordTTL : Z := 86400 * 7 * 1000.

(** What may happen to a deduplicator between two calls: a check, a
    mark, or time passing on the store. *)
Inductive DedupOp :=
| OpIsDuplicate (ty : Deduplicator.DedupType) (identifier : string)
| OpMarkProcessed (ty : Deduplicator.DedupType) (identifier : string)
    (meta : list (string * string))
| OpTick (dt : Z).

Section DedupTraces.
Variable hashIdentifier : string → string.
Variable indexes : nat → nat → string → list nat.

Definition dedupStep (d : Deduplicator.t) (o : DedupOp) : Deduplicator.t :=
  match o with
  | OpIsDuplicate ty i => (Deduplicator.isDuplicate hashIdentifier indexes ty i d).2
  | OpMarkProcessed ty i meta =>
      (Deduplicator.markProcessed hashIdentifier indexes ty i meta d).2
  | OpTick dt => Deduplicator.tick dt d
  end.

Definition dedupRun (ops : list DedupOp) (d : Deduplicator.t) : Deduplicator.t :=
  foldl dedupStep d ops.

(** The operation writes the record of [x] in namespace [ty] again. *)
Definition reprocesses (ty : Deduplicator.DedupType) (x : string) (o : DedupOp) : Prop :=
  match o with
  | OpMarkProcessed ty' i _ =>
      Deduplicator.recordKey hashIdentifier ty' i = Deduplicator.recordKey hashIdentifier ty x
  | _ => False
  end.
(** What a mark establishes for [x] in namespace [ty], and what the
    later operations keep: the positions of [x] are set, the record is
    in the store with expiry [expiry], and the server time is [now]. *)
Definition marked (ty : Deduplicator.DedupType) (x : string) (expiry now : Z) (d : Deduplicator.t) : Prop :=
  Deduplicator.isInitialized d = true ∧
  ∃ f r e,
    Deduplicator.bloomFilters d ty = Some f ∧
    Deduplicator.bloom_has indexes (hashIdentifier x) f = true ∧
    Deduplicator.redisClient d = Some r ∧
    Deduplicator.clock r = now ∧
    Deduplicator.data r !! Deduplicator.recordKey hashIdentifier ty x = Some e ∧
    Deduplicator.expireAt e = Some expiry.

End DedupTraces.

Definition elapsed (ops : list DedupOp) : Z :=
  foldr (λ o acc, match o with OpTick dt => dt + acc | _ => acc end) 0 ops.

(** The invariant of the data model: a live record of the store has its
    positions set in the filter of its namespace. *)
Definition filterCovers (hashIdentifier : string → string)
    (indexes : nat → nat → string → list nat)
    (d : Deduplicator.t) (ty : Deduplicator.DedupType) (x : string) : Prop :=
  ∀ r, Deduplicator.redisClient d = Some r →
    Deduplicator.redis_exists r (Deduplicator.recordKey hashIdentifier ty x) = true →
    ∃ f, Deduplicator.bloomFilters d ty = Some f ∧
         Deduplicator.bloom_has indexes (hashIdentifier x) f = true.

(** A deduplicator as [initialize] leaves it on an empty store, with
    filters of [size] bits and [k] hash functions. *)
Definition readyDeduplicator (size k : nat) : Deduplicator.t :=
  {| Deduplicator.bloomFilters :=
       λ _, Some {| Deduplicator.size := size; Deduplicator.nbHashes := k;
                    Deduplicator.bits := ∅ |};
     Deduplicator.redisClient := Some {| Deduplicator.clock := 0; Deduplicator.data := ∅ |};
     Deduplicator.isInitialized := true;
     Deduplicator.stats := λ _, Deduplicator.zeroStats |}.

(** Stand-ins for the digest and for the filter's positions in the
    closed examples: the identifier itself, and its length modulo the
    filter size. *)
Definition sampleHash (s : string) : string := s.
Definition sampleIndexes (size k : nat) (s : string) : list nat :=
  [(String.length s `mod` size)%nat].

(** ** Checkpoint store *)

(** [maxCheckpointAge] of [loadLatestCheckpoint]: the setting, or 24
    hours when it is unset. *)
Definition maxCheckpointAge (S : Settings) : Z :=
  if MAX_CHECKPOINT_AGE S =? 0 then 86400000 else MAX_CHECKPOINT_AGE S.

(** The claim's words: the stored checkpoint of highest sequence number,
    unless it is older than the maximum age. *)
Definition spec_loadLatest {State : Type} (S : Settings) (now : Z)
    (m : CheckpointManager.t State) (fs : CheckpointManager.Dir State)
    : option (CheckpointManager.Checkpoint State) :=
  match
    stableSort (λ a b, CheckpointManager.counter b - CheckpointManager.counter a <? 0)
               (CheckpointManager.listCheckpoints m fs)
  with
  | [] => None
  | c :: _ =>
      if maxCheckpointAge S <? now - CheckpointManager.timestamp c then None else Some c
  end.

(** Two sessions of one scraper type write into the same directory: the
    first session saves twice, the process restarts, the second session
    saves once. *)
Definition twoSessions : CheckpointManager.Dir nat :=
  let S := sampleSettings None in
  match CheckpointManager.new nat (Some "relationships_scraper") "s1",
        CheckpointManager.new nat (Some "relationships_scraper") "s2" with
  | Ok m1, Ok m2 =>
      let '(_, m1a, fs1) :=
        CheckpointManager.createCheckpoint S false 1000000 "2026-01-01_10-00-00" 10%nat [] m1 [] in
      let '(_, _, fs2) :=
        CheckpointManager.createCheckpoint S false 2000000 "2026-01-01_10-16-40" 20%nat [] m1a fs1 in
      let '(_, _, fs3) :=
        CheckpointManager.createCheckpoint S false 3000000 "2026-01-01_10-33-20" 30%nat [] m2 fs2 in
      fs3
  | _, _ => []
  end.

Definition secondSession : CheckpointManager.t nat :=
  {| CheckpointManager.this_scraperType := "relationships_scraper";
     CheckpointManager.this_sessionId := "s2";
     CheckpointManager.currentCheckpoint := None;
     CheckpointManager.checkpointCounter := 0;
     CheckpointManager.lastCheckpointTime := None |}.

(** ** Frontier crawler *)

(** A validator that accepts every item. *)
Definition acceptAll (items : list RelationshipsScraper.Relationship)
    : list RelationshipsScraper.Relationship * Z :=
  (items, 0).

Definition sampleOptions : RelationshipsScraper.Options :=
  {| RelationshipsScraper.batchSize := 100;
     RelationshipsScraper.maxRelationships := 10000000;
     RelationshipsScraper.maxDepth := 1;
     RelationshipsScraper.maxFollowersPerUser := 1000;
     RelationshipsScraper.maxFollowingPerUser := 1000;
     RelationshipsScraper.saveInterval := 1000;
     RelationshipsScraper.checkpointInterval := 5000;
     RelationshipsScraper.prioritizePopularUsers := true;
     RelationshipsScraper.minFollowerCount := 0 |}.

Definition profile (did : string) (followers follows : Z) : RelationshipsScraper.Profile :=
  {| RelationshipsScraper.did := did;
     RelationshipsScraper.handle := did;
     RelationshipsScraper.displayName := did;
     RelationshipsScraper.followersCount := followers;
     RelationshipsScraper.followsCount := follows |}.

Definition alice : RelationshipsScraper.Profile := profile "did:plc:alice" 1 1.
Definition bob : RelationshipsScraper.Profile := profile "did:plc:bob" 1 1.

Definition item (p : RelationshipsScraper.Profile) : RelationshipsScraper.Relationship :=
  {| RelationshipsScraper.subject := Some p;
     RelationshipsScraper.createdAt := "";
     RelationshipsScraper.indexedAt := "";
     RelationshipsScraper.uri := "" |}.

(** Alice and Bob follow each other: Bob is on Alice's followers page
    and on her follows page. *)
Definition mutualFollow : RelationshipsScraper.Api :=
  {| RelationshipsScraper.getFollowers := λ _, [Ok [item bob]];
     RelationshipsScraper.getFollows := λ _, [Ok [item bob]] |}.

(** A scraper after a successful [initialize] on an empty store. *)
Definition readyScraper (o : RelationshipsScraper.Options) : RelationshipsScraper.t :=
  RelationshipsScraper.set_depthQueues
    (foldl (λ q i, <[Z.of_nat i := []]> q) ∅
           (seq 0 (Z.to_nat (RelationshipsScraper.maxDepth o + 1))))
    (RelationshipsScraper.set_deduplicator (readyDeduplicator 16 1)
       (RelationshipsScraper.constructed o)).

(** The record of an edge as [processRelationships] builds it. *)
Definition edge (src tgt : RelationshipsScraper.Profile)
    (ty : RelationshipsScraper.RelationshipType) (depth : Z)
    : RelationshipsScraper.RelationshipRecord :=
  {| RelationshipsScraper.source :=
       (RelationshipsScraper.did src, RelationshipsScraper.handle src);
     RelationshipsScraper.target :=
       (RelationshipsScraper.did tgt, RelationshipsScraper.handle tgt,
        RelationshipsScraper.displayName tgt);
     RelationshipsScraper.type := ty;
     RelationshipsScraper.recordDepth := depth;
     RelationshipsScraper.recordUri := "" |}.

(** The frontier of a scraper: its visited set and its queues. *)
Definition frontier (s : RelationshipsScraper.t)
    : gset string * gmap Z (list RelationshipsScraper.QueuedUser) :=
  (RelationshipsScraper.processedUsers s, RelationshipsScraper.depthQueues s).

(** The world of the repository's checkpoint manager for this scraper:
    the manager object [new CheckpointManager('relationships_scraper')]
    and its directory. *)
Definition CheckpointWorld : Type :=
  CheckpointManager.t RelationshipsScraper.CheckpointData
  * CheckpointManager.Dir RelationshipsScraper.CheckpointData.

Definition relationshipsManager
    : CheckpointManager.t RelationshipsScraper.CheckpointData :=
  {| CheckpointManager.this_scraperType := "relationships_scraper";
     CheckpointManager.this_sessionId := "s1";
     CheckpointManager.currentCheckpoint := None;
     CheckpointManager.checkpointCounter := 0;
     CheckpointManager.lastCheckpointTime := None |}.

(** A crawl in progress: Alice is visited, Bob waits at depth 1. *)
Definition midCrawl : RelationshipsScraper.t :=
  RelationshipsScraper.set_processedUsers {["did:plc:alice"]}
    (RelationshipsScraper.set_depthQueues
       (<[1 := [{| RelationshipsScraper.user := bob; RelationshipsScraper.depth := 1 |}]]>
          (<[0 := []]> ∅))
       (readyScraper sampleOptions)).

(** Time does not run backwards. *)
Definition forwardInTime (o : DedupOp) : Prop :=
  match o with OpTick dt => 0 ≤ dt | _ => True end.

(** The edge a record stands for. *)
Definition edgeOf (rec : RelationshipsScraper.RelationshipRecord)
    : string * string * RelationshipsScraper.RelationshipType :=
  ((RelationshipsScraper.source rec).1, (RelationshipsScraper.target rec).1.1,
   RelationshipsScraper.type rec).

(** The identifier [processRelationships] hands to the deduplicator for
    an edge. *)
Definition relationshipId
    (e : string * string * RelationshipsScraper.RelationshipType) : string :=
  e.1.1 +:+ ":" +:+ e.1.2.

Section EmittedOnce.
Variable hashIdentifier : string → string.
Variable indexes : nat → nat → string → list nat.

(** The deduplicator knows every record of [recs], and no two of them
    have the same digest. *)
Definition allMarked (d : Deduplicator.t)
    (recs : list RelationshipsScraper.RelationshipRecord) : Prop :=
  Deduplicator.isInitialized d = true ∧
  ∃ f r,
    Deduplicator.bloomFilters d Deduplicator.follows = Some f ∧
    Deduplicator.redisClient d = Some r ∧
    (∀ rec, rec ∈ recs →
       Deduplicator.bloom_has indexes (hashIdentifier (relationshipId (edgeOf rec))) f = true ∧
       Deduplicator.redis_exists r
         (Deduplicator.recordKey hashIdentifier Deduplicator.follows
            (relationshipId (edgeOf rec))) = true) ∧
    NoDup ((λ rec, hashIdentifier (relationshipId (edgeOf rec))) <$> recs).

(** The invariant of a crawl: every emitted record is known to the
    deduplicator and no two emitted records have the same digest. *)
Definition crawlInv (s : RelationshipsScraper.t) : Prop :=
  allMarked (RelationshipsScraper.deduplicator s) (RelationshipsScraper.emitted s).
End EmittedOnce.

(** ** Proxy pool: failure streaks *)






(** ** Proxy pool: the part of the store that concerns one proxy *)

(** Membership of [p] in the healthy, the unhealthy and the rate-limited
    set, and its statistics hash. *)
Definition proxyView (r : ProxyManager.Redis) (p : string)
    : bool * bool * bool * ProxyManager.ProxyStats :=
  (bool_decide (p ∈ ProxyManager.HEALTHY_PROXIES r),
   bool_decide (p ∈ ProxyManager.UNHEALTHY_PROXIES r),
   bool_decide (p ∈ ProxyManager.RATE_LIMITED r),
   ProxyManager.statsOf r p).

(** ** Rate limiter: traces of calls *)

(** What may be called on a rate limiter: [waitForSlot] with what the
    environment supplies to it, [resetStats] and [cleanup]. *)
Inductive LimiterOp :=
| OpWaitForSlot (rand : Q) (endpoint : string) (now : Z) (waited : option Z)
| OpResetStats
| OpCleanup.

Section LimiterTraces.
Variable S : Settings.
Variable D : RateLimiter.Defaults.
Variable RATE_LIMITS : gmap string RateLimiter.RateConfig.
Variable DEFAULT : RateLimiter.RateConfig.

Definition limiterStep (l : RateLimiter.t) (o : LimiterOp) : RateLimiter.t :=
  match o with
  | OpWaitForSlot rand endpoint now waited =>
      (RateLimiter.waitForSlot S D RATE_LIMITS DEFAULT rand endpoint now waited l).2
  | OpResetStats => RateLimiter.resetStats l
  | OpCleanup => RateLimiter.cleanup l
  end.

Definition limiterRun (ops : list LimiterOp) (l : RateLimiter.t) : RateLimiter.t :=
  foldl limiterStep l ops.
End LimiterTraces.

(** The waits of a trace that count as throttled: those of more than
    100 ms. *)
Fixpoint throttledWaits (ops : list LimiterOp) : list Z :=
  match ops with
  | [] => []
  | OpWaitForSlot _ _ _ (Some waitTime) :: ops' =>
      if 100 <? waitTime then waitTime :: throttledWaits ops' else throttledWaits ops'
  | _ :: ops' => throttledWaits ops'
  end.

(** The trace consists of [waitForSlot] calls. *)
Definition isWait (o : LimiterOp) : Prop :=
  match o with OpWaitForSlot _ _ _ _ => True | _ => False end.

(** The global defaults of config/settings.js and the [DEFAULT] entry
    of the rate table. *)
Definition sampleDefaults : RateLimiter.Defaults :=
  {| RateLimiter.REQUESTS_PER_MINUTE := 60; RateLimiter.BURST_LIMIT := 10;
     RateLimiter.CONCURRENT_REQUESTS := 5 |}.
Definition sampleRateConfig : RateLimiter.RateConfig :=
  {| RateLimiter.requestsPerMinute := 30; RateLimiter.burstLimit := 5 |}.

(** Every endpoint that has a limiter has statistics. *)
Definition statsCoverLimiters (l : RateLimiter.t) : Prop :=
  ∀ endpoint, is_Some (RateLimiter.limiters l !! endpoint) →
    is_Some (RateLimiter.endpointStats (RateLimiter.stats l) !! endpoint).

(** ** API client: sequences of requests *)

(** A call of [makeRequest]: the endpoint, the retry budget and what
    the environment supplies. *)
Record Request := {
  requestEndpoint : string;
  requestRetries : nat;
  requestEnvironment : APIClient.Environment
}.

Section ClientTraces.
Variable S : Settings.
Variable valid : string → bool.
Variable D : RateLimiter.Defaults.
Variable RATE_LIMITS : gmap string RateLimiter.RateConfig.
Variable DEFAULT : RateLimiter.RateConfig.
Variable rotationEnabled : bool.

(** The requests are made one after the other; the results are
    collected in order. *)
Definition clientStep (acc : list (APIClient.ErrorType + Z) * APIClient.t) (q : Request)
    : list (APIClient.ErrorType + Z) * APIClient.t :=
  let '(result, c) :=
    APIClient.makeRequest S valid D RATE_LIMITS DEFAULT rotationEnabled
      (requestRetries q) (requestEndpoint q) (requestEnvironment q) acc.2 in
  ((acc.1 ++ [result])%list, c).

Definition clientRun (requests : list Request) (c : APIClient.t)
    : list (APIClient.ErrorType + Z) * APIClient.t :=
  foldl clientStep ([], c) requests.
End ClientTraces.

Definition isData (result : APIClient.ErrorType + Z) : bool :=
  match result with inr _ => true | inl _ => false end.

(** The attempt meets a response with status 200. *)
Definition is200 (o : APIClient.Outcome) : bool :=
  match o with
  | APIClient.Responded status => status =? 200
  | APIClient.TransportError => false
  end.

(** The failures [executeRequest] charges to the proxy it used, by what
    the request met: none for a client error, two for a response below
    400 other than 200, one otherwise. *)
Definition streakAfter (o : APIClient.Outcome) (streak : Z) : Z :=
  match o with
  | APIClient.TransportError => streak + 1
  | APIClient.Responded status =>
      if 500 <=? status then streak + 1
      else if status =? 200 then 0
      else if status =? 429 then streak + 1
      else if 400 <=? status then streak
      else streak + 2
  end.
(** The request counters [executeRequest] does not touch. *)
Definition sameRequestCounts (c c' : APIClient.t) : Prop :=
  APIClient.totalRequests (APIClient.stats c') = APIClient.totalRequests (APIClient.stats c) ∧
  APIClient.successfulRequests (APIClient.stats c') = APIClient.successfulRequests (APIClient.stats c) ∧
  APIClient.failedRequests (APIClient.stats c') = APIClient.failedRequests (APIClient.stats c) ∧
  APIClient.rateLimiter c' = APIClient.rateLimiter c.

(** ** Deduplicator: batches and restarts *)

(** The identifier under which [batchCheckDuplicates] looks an item
    up. *)
Definition itemIdentifier (item : Deduplicator.Item) : string :=
  match item with
  | Deduplicator.ItemId identifier => identifier
  | Deduplicator.ItemFollow follower followee => follower +:+ ":" +:+ followee
  end.

(** The item has the shape the type calls for: a string for users and
    posts, a follower and followee pair for follows. *)
Definition wellShaped (ty : Deduplicator.DedupType) (item : Deduplicator.Item) : Prop :=
  match ty, item with
  | Deduplicator.follows, Deduplicator.ItemFollow _ _ => True
  | Deduplicator.follows, Deduplicator.ItemId _ => False
  | _, Deduplicator.ItemId _ => True
  | _, Deduplicator.ItemFollow _ _ => False
  end.

(** The filter of the namespace has the positions of the identifier and
    the store has its live record. *)
Definition isKnown (hashIdentifier : string → string)
    (indexes : nat → nat → string → list nat)
    (ty : Deduplicator.DedupType) (d : Deduplicator.t) (identifier : string) : bool :=
  match Deduplicator.bloomFilters d ty, Deduplicator.redisClient d with
  | Some f, Some r =>
      Deduplicator.bloom_has indexes (hashIdentifier identifier) f
      && Deduplicator.redis_exists r (Deduplicator.recordKey hashIdentifier ty identifier)
  | _, _ => false
  end.

(** ** Checkpoint store: file names *)

(** The file name [listCheckpoints] accepts for a scraper type. *)
Definition listed (scraperType name : string) : bool :=
  String.prefix scraperType name && endsWith ".json" name.

(** A directory as [createCheckpoint] and [importCheckpoints] leave it:
    every listed file is named after the id of the checkpoint it holds,
    and no two files have the same name. *)
Definition namedById {State : Type} (scraperType : string)
    (fs : CheckpointManager.Dir State) : Prop :=
  NoDup fs.*1 ∧
  ∀ f, f ∈ fs → listed scraperType f.1 = true → f.1 = CheckpointManager.id f.2 +:+ ".json".

(** A manager of a scraper type that has not saved yet. *)
Definition freshManager (State : Type) (scraperType sessionId : string)
    : CheckpointManager.t State :=
  {| CheckpointManager.this_scraperType := scraperType;
     CheckpointManager.this_sessionId := sessionId;
     CheckpointManager.currentCheckpoint := None;
     CheckpointManager.checkpointCounter := 0;
     CheckpointManager.lastCheckpointTime := None |}.

(** One round of the loop of [importCheckpoints]. *)
Definition importStep {State : Type}
    (acc : Z * CheckpointManager.Dir State) (checkpoint : CheckpointManager.Checkpoint State)
    : Z * CheckpointManager.Dir State :=
  let '(importedCount, fs) := acc in
  let checkpointPath := CheckpointManager.id checkpoint +:+ ".json" in
  if negb (CheckpointManager.pathExists checkpointPath fs)
  then (importedCount + 1, CheckpointManager.writeJson checkpointPath checkpoint fs)
  else (importedCount, fs).

(** ** Frontier crawler: counters and queues *)

(** The counters agree with what they count: the records handed to the
    output, the records written to files, and the visited users. *)
Definition countersExact (s : RelationshipsScraper.t) : Prop :=
  RelationshipsScraper.relationshipsProcessed (RelationshipsScraper.stats s)
    = Z.of_nat (length (RelationshipsScraper.emitted s)) ∧
  RelationshipsScraper.relationshipsSaved (RelationshipsScraper.stats s)
    = Z.of_nat (length (concat (RelationshipsScraper.saved s))) ∧
  RelationshipsScraper.usersProcessed (RelationshipsScraper.stats s)
    = Z.of_nat (size (RelationshipsScraper.processedUsers s)).

(** A queue entry that belongs into the queue of depth [k]: it carries
    that depth, it has a DID, and it has the followers the options ask
    for. *)
Definition queueEntryOk (o : RelationshipsScraper.Options) (k : Z)
    (qu : RelationshipsScraper.QueuedUser) : Prop :=
  RelationshipsScraper.depth qu = k ∧
  RelationshipsScraper.did (RelationshipsScraper.user qu) ≠ "" ∧
  RelationshipsScraper.minFollowerCount o
    ≤ RelationshipsScraper.followersCount (RelationshipsScraper.user qu).

Definition queuesOk (s : RelationshipsScraper.t) : Prop :=
  ∀ k q, RelationshipsScraper.depthQueues s !! k = Some q →
    Forall (queueEntryOk (RelationshipsScraper.options s) k) q.

(** The bookkeeping a crawl maintains. *)
Definition crawlBooks (s : RelationshipsScraper.t) : Prop :=
  queuesOk s ∧ countersExact s.

(** What a step on one page item may change besides the deduplicator
    and the error counters: nothing. *)
Definition sameBooks (s s' : RelationshipsScraper.t) : Prop :=
  RelationshipsScraper.options s' = RelationshipsScraper.options s ∧
  RelationshipsScraper.depthQueues s' = RelationshipsScraper.depthQueues s ∧
  RelationshipsScraper.processedUsers s' = RelationshipsScraper.processedUsers s ∧
  RelationshipsScraper.currentBatch s' = RelationshipsScraper.currentBatch s ∧
  RelationshipsScraper.saved s' = RelationshipsScraper.saved s ∧
  RelationshipsScraper.shouldStop s' = RelationshipsScraper.shouldStop s ∧
  RelationshipsScraper.usersProcessed (RelationshipsScraper.stats s')
    = RelationshipsScraper.usersProcessed (RelationshipsScraper.stats s) ∧
  RelationshipsScraper.relationshipsProcessed (RelationshipsScraper.stats s')
    = RelationshipsScraper.relationshipsProcessed (RelationshipsScraper.stats s) ∧
  RelationshipsScraper.relationshipsSaved (RelationshipsScraper.stats s')
    = RelationshipsScraper.relationshipsSaved (RelationshipsScraper.stats s).

(** ** Deduplicator: every call between two restarts *)

Inductive DedupCall :=
| CallOp (o : DedupOp)
| CallClear (type : option Deduplicator.DedupType)
| CallClose.

Section DedupCalls.
Variable hashIdentifier : string → string.
Variable indexes : nat → nat → string → list nat.

Definition callStep (d : Deduplicator.t) (c : DedupCall) : Deduplicator.t :=
  match c with
  | CallOp o => dedupStep hashIdentifier indexes d o
  | CallClear type => (Deduplicator.clear type d).2
  | CallClose => Deduplicator.close d
  end.

Definition callRun (calls : list DedupCall) (d : Deduplicator.t) : Deduplicator.t :=
  foldl callStep d calls.
End DedupCalls.

Definition callForward (c : DedupCall) : Prop :=
  match c with CallOp o => forwardInTime o | _ => True end.

(** * Properties *)

Set Warnings "-clear-no-such-hyp".

(** ** Proxy pool *)

Section ProxyPool.
Import ProxyManager.



Lemma updateProxyStats_sets proxy action additional now r :
  PROXIES (updateProxyStats proxy action additional now r) = PROXIES r ∧
  HEALTHY_PROXIES (updateProxyStats proxy action additional now r) = HEALTHY_PROXIES r ∧
  UNHEALTHY_PROXIES (updateProxyStats proxy action additional now r) = UNHEALTHY_PROXIES r ∧
  RATE_LIMITED (updateProxyStats proxy action additional now r) = RATE_LIMITED r.
Proof. done. Qed.












(** C5 on the code: [addProxies] marks what it registers healthy and
    leaves the other status sets alone, where [markProxySuccess] takes
    the proxy out of them.  A proxy that is registered again while it is
    rate limited is therefore registered and in the healthy and the
    rate-limited set at once. *)
Theorem C5_registered_again_in_two_sets (m : ProxyManager.t) (r : Redis)
    (proxies : list string) (p : string) :
  redisClient m = Some r →
  p ∈ proxies →
  p ∈ RATE_LIMITED r →
  let m' := addProxies proxies m in
  registered m' p ∧ healthy m' p ∧ rateLimited m' p ∧ ¬ exactlyOne m' p.
Proof.
  intros Hr Hp Hrl m'.
  assert (Hm' : redisClient m' = Some
            {| PROXIES := PROXIES r ∪ list_to_set proxies;
               HEALTHY_PROXIES := HEALTHY_PROXIES r ∪ list_to_set proxies;
               UNHEALTHY_PROXIES := UNHEALTHY_PROXIES r;
               RATE_LIMITED := RATE_LIMITED r; STATS := STATS r |}).
  { unfold m', addProxies. by rewrite Hr. }
  assert (Hreg : registered m' p) by (eexists; split; [exact Hm'|]; simpl; set_solver).
  assert (Hh : healthy m' p) by (eexists; split; [exact Hm'|]; simpl; set_solver).
  assert (Hl : rateLimited m' p) by (eexists; split; [exact Hm'|]; done).
  split_and!; [done|done|done|]. unfold exactlyOne. tauto.
Qed.

(** In that state [getRandomProxy] hands out the rate-limited proxy
    before its cooldown has ended. *)
Example C5_acquire_returns_rate_limited :
  let p := "http://10.0.0.1:8080" in
  let m := addProxies [p] (markProxyRateLimited p 60000 (freshPool [p])) in
  (getRandomProxy (1 # 2) 1000 m).1 = Some p.
Proof. by vm_compute. Qed.

(** With a failure threshold configured (3 here; settings.js
    configures none), three failure reports followed by a rate-limit
    report leave a registered proxy in the unhealthy and the
    rate-limited set at once. *)
Example overlap_with_threshold :
  let p := "http://10.0.0.1:8080" in
  let m :=
    run (sampleSettings (Some 3))
        [ReportFailure p "timeout" 1000; ReportFailure p "timeout" 2000;
         ReportFailure p "timeout" 3000; ReportRateLimited p 60000]
        (freshPool [p]) in
  registered m p ∧ unhealthy m p ∧ rateLimited m p ∧ ¬ exactlyOne m p.
Proof.
  intros p m.
  assert (Hreg : registered m p) by (eexists; split; [reflexivity|]; by vm_compute).
  assert (Hun : unhealthy m p) by (eexists; split; [reflexivity|]; by vm_compute).
  assert (Hrl : rateLimited m p) by (eexists; split; [reflexivity|]; by vm_compute).
  split_and!; try done.
  unfold exactlyOne. tauto.
Qed.



(** C4 on the code: a proxy that is rate limited and then removed is in
    no set after the removal, and the cooldown callback that was pending
    puts it back into the healthy set although it is no longer
    registered. *)
Theorem C4_removed_proxy_returns_to_healthy (r : Redis) (p : string) (duration : Z) :
  let m1 := markProxyRateLimited p duration (withRedis new r) in
  let m2 := removeProxies [p] m1 in
  let m3 := fireTimer 0 m2 in
  (¬ registered m2 p ∧ ¬ healthy m2 p ∧ ¬ unhealthy m2 p ∧ ¬ rateLimited m2 p) ∧
  (¬ registered m3 p ∧ healthy m3 p).
Proof.
  intros m1 m2 m3. split.
  - split_and!; intros (r' & [= <-] & Hp); simpl in Hp; set_solver.
  - split.
    + intros (r' & [= <-] & Hp); simpl in Hp; set_solver.
    + eexists. split; [reflexivity|]. unfold cooldownExpired. simpl.
      case_bool_decide; set_solver.
Qed.

(** In that scenario [getRandomProxy] then hands out the removed
    proxy. *)
Example C4_acquire_returns_removed :
  let p := "http://10.0.0.1:8080" in
  let m3 :=
    fireTimer 0 (removeProxies [p] (markProxyRateLimited p 60000 (freshPool [p]))) in
  (getRandomProxy (1 # 2) 61000 m3).1 = Some p.
Proof. by vm_compute. Qed.

(** C10: without a store connection, [getRandomProxy] returns nothing
    and the three reporting methods return the manager unchanged: no
    set, statistic or timer is touched. *)
Theorem C10_no_store_no_effect (S : Settings) (m : ProxyManager.t) :
  redisClient m = None →
  (∀ rand now, getRandomProxy rand now m = (None, m)) ∧
  (∀ proxy now, markProxySuccess proxy now m = m) ∧
  (∀ proxy reason now, markProxyFailure S proxy reason now m = m) ∧
  (∀ proxy duration, markProxyRateLimited proxy duration m = m).
Proof.
  intros Hnone.
  unfold getRandomProxy, markProxySuccess, markProxyFailure, markProxyRateLimited.
  rewrite Hnone. done.
Qed.

Lemma C10_no_store_no_effect_witness :
  let S := sampleSettings (Some 3) in
  let m := (initialize S (λ _, true) None new).2 in
  redisClient m = None ∧
  (∀ rand now, getRandomProxy rand now m = (None, m)) ∧
  (∀ proxy now, markProxySuccess proxy now m = m) ∧
  (∀ proxy reason now, markProxyFailure S proxy reason now m = m) ∧
  (∀ proxy duration, markProxyRateLimited proxy duration m = m).
Proof.
  intros S m. split; [reflexivity|].
  apply (C10_no_store_no_effect S m). reflexivity.
Defined.

End ProxyPool.

Section NoThreshold.
Import ProxyManager.





End NoThreshold.


(** ** Rate limiter *)

Section RateLimiting.
Import RateLimiter.

Lemma floor_base_nonneg (requestsPerMinute : Z) :
  0 < requestsPerMinute →
  60000 / requestsPerMinute = Qfloor (inject_Z 60000 / inject_Z requestsPerMinute) ∧
  (0 <= inject_Z (60000 / requestsPerMinute))%Q.
Proof.
  intros Hrpm. split; [apply Zdiv_Qdiv|].
  change 0%Q with (inject_Z 0). rewrite <- Zle_Qle. apply Z.div_pos; lia.
Qed.

Lemma calculateMinTime_spacing (S : Settings) (rand : Q) (requestsPerMinute : Z) :
  0 < requestsPerMinute → (0 <= rand)%Q → (rand < 1)%Q →
  let base := inject_Z (Qfloor (inject_Z 60000 / inject_Z requestsPerMinute)) in
  let floorAt := inject_Z (MIN_REQUEST_INTERVAL S) in
  (RANDOMIZE_DELAYS S = false →
     calculateMinTime S rand requestsPerMinute = Qmax base floorAt) ∧
  (RANDOMIZE_DELAYS S = true →
     ∃ jitter : Q,
       (0 <= jitter)%Q ∧ (jitter <= (20 # 100) * base)%Q ∧
       calculateMinTime S rand requestsPerMinute = Qmax (base + jitter) floorAt) ∧
  (floorAt <= calculateMinTime S rand requestsPerMinute)%Q.
Proof.
  intros Hrpm Hr0 Hr1 base floorAt.
  destruct (floor_base_nonneg requestsPerMinute Hrpm) as [Hbase Hb0].
  unfold base, calculateMinTime. rewrite <- Hbase.
  split_and!.
  - by intros ->.
  - intros ->. exists (rand * (2 # 10) * inject_Z (60000 / requestsPerMinute))%Q.
    split_and!; [| |done].
    + apply Qmult_le_0_compat; [apply Qmult_le_0_compat|]; done.
    + rewrite <- Qmult_assoc.
      apply Qle_trans with (1 * ((2 # 10) * inject_Z (60000 / requestsPerMinute)))%Q.
      * apply Qmult_le_compat_r; [by apply Qlt_le_weak|].
        apply Qmult_le_0_compat; done.
      * rewrite Qmult_1_l. apply Qmult_le_compat_r; [by vm_compute|done].
  - destruct (RANDOMIZE_DELAYS S); apply Q.le_max_r.
Qed.

(** C9: for an endpoint configured with [requestsPerMinute > 0], the
    spacing handed to the bucket is [max(floor(60000 / requestsPerMinute),
    MIN_REQUEST_INTERVAL)] without jitter; with jitter the base is first
    widened by a non-negative amount of at most 20% of the base; in both
    cases the spacing is at least [MIN_REQUEST_INTERVAL]. *)
Theorem C9_min_spacing (S : Settings) (D : Defaults)
    (RATE_LIMITS : gmap string RateConfig) (DEFAULT : RateConfig)
    (rand : Q) (endpoint : string) :
  let config := default DEFAULT (RATE_LIMITS !! endpoint) in
  0 < requestsPerMinute config →
  (0 <= rand)%Q → (rand < 1)%Q →
  let base := inject_Z (Qfloor (inject_Z 60000 / inject_Z (requestsPerMinute config))) in
  let floorAt := inject_Z (MIN_REQUEST_INTERVAL S) in
  let spacing := minTime (getLimiterForEndpoint S D RATE_LIMITS DEFAULT rand endpoint) in
  (RANDOMIZE_DELAYS S = false → spacing = Qmax base floorAt) ∧
  (RANDOMIZE_DELAYS S = true →
     ∃ jitter : Q,
       (0 <= jitter)%Q ∧ (jitter <= (20 # 100) * base)%Q ∧
       spacing = Qmax (base + jitter) floorAt) ∧
  (floorAt <= spacing)%Q.
Proof.
  intros config Hrpm Hr0 Hr1 base floorAt spacing.
  assert (Hs : spacing = calculateMinTime S rand (requestsPerMinute config)).
  { unfold spacing, getLimiterForEndpoint. simpl. fold config.
    unfold js_or. destruct (requestsPerMinute config =? 0) eqn:E; [lia|done]. }
  rewrite Hs. by apply calculateMinTime_spacing.
Qed.

Lemma C9_min_spacing_witness :
  let S := sampleSettings (Some 3) in
  let D := {| REQUESTS_PER_MINUTE := 60; BURST_LIMIT := 10; CONCURRENT_REQUESTS := 5 |} in
  let DEFAULT := {| requestsPerMinute := 60; burstLimit := 10 |} in
  let endpoint := "app.bsky.graph.getFollowers" in
  let RATE_LIMITS : gmap string RateConfig :=
    {[ endpoint := {| requestsPerMinute := 50; burstLimit := 8 |} ]} in
  let rand := (1 # 2)%Q in
  let spacing := minTime (getLimiterForEndpoint S D RATE_LIMITS DEFAULT rand endpoint) in
  (0 < requestsPerMinute (default DEFAULT (RATE_LIMITS !! endpoint)) ∧
   (0 <= rand)%Q ∧ (rand < 1)%Q) ∧
  (RANDOMIZE_DELAYS S = false → spacing = Qmax (inject_Z 1200) (inject_Z 500)) ∧
  (RANDOMIZE_DELAYS S = true →
     ∃ jitter : Q,
       (0 <= jitter)%Q ∧ (jitter <= (20 # 100) * inject_Z 1200)%Q ∧
       spacing = Qmax (inject_Z 1200 + jitter) (inject_Z 500)) ∧
  (inject_Z 500 <= spacing)%Q.
Proof.
  intros S D DEFAULT endpoint RATE_LIMITS rand spacing.
  assert (H2 : 0 < requestsPerMinute (default DEFAULT (RATE_LIMITS !! endpoint)))
    by (by vm_compute).
  assert (H3 : (0 <= rand)%Q) by (by vm_compute).
  assert (H4 : (rand < 1)%Q) by (by vm_compute).
  split; [done|].
  exact (C9_min_spacing S D RATE_LIMITS DEFAULT rand endpoint H2 H3 H4).
Defined.

End RateLimiting.

(** ** Deduplicator *)

Section Dedup.
Import Deduplicator.
Variable hashIdentifier : string → string.
Variable indexes : nat → nat → string → list nat.

Local Abbreviation isDuplicate := (Deduplicator.isDuplicate hashIdentifier indexes).
Local Abbreviation markProcessed := (Deduplicator.markProcessed hashIdentifier indexes).
Local Abbreviation recordKey := (Deduplicator.recordKey hashIdentifier).
Local Abbreviation runOps := (dedupRun hashIdentifier indexes).
Local Abbreviation stepOp := (dedupStep hashIdentifier indexes).

Lemma bloom_has_add_same h f : bloom_has indexes h (bloom_add indexes h f) = true.
Proof.
  unfold bloom_has, bloom_add. simpl. apply forallb_forall. intros i Hi.
  apply bool_decide_eq_true_2. apply elem_of_union_r, elem_of_list_to_set.
  by apply list_elem_of_In.
Qed.

Lemma bloom_has_add_mono h h' f :
  bloom_has indexes h f = true → bloom_has indexes h (bloom_add indexes h' f) = true.
Proof.
  unfold bloom_has, bloom_add. simpl. rewrite !forallb_forall. intros H i Hi.
  apply bool_decide_eq_true_2, elem_of_union_l.
  specialize (H i Hi). by apply bool_decide_eq_true_1 in H.
Qed.

Lemma marked_after_mark ty x meta d d1 :
  markProcessed ty x meta d = (Ok (), d1) →
  ∃ now, marked hashIdentifier indexes ty x (now + recordTTL) now d1.
Proof.
  unfold Deduplicator.markProcessed.
  destruct (isInitialized d) eqn:Hinit; simpl; [|done].
  destruct (bloomFilters d ty) as [f|] eqn:Hf; [|done]. simpl.
  destruct (redisClient d) as [r|] eqn:Hr; [|done].
  intros [= <-]. exists (clock r). split; [done|].
  eexists _, _, _. simpl. split_and!; try done.
  - by rewrite decide_True.
  - apply bloom_has_add_same.
  - apply lookup_insert_eq.
  - simpl. unfold recordTTL. f_equal; lia.
Qed.

Lemma marked_step ty x expiry now d o :
  ¬ reprocesses hashIdentifier ty x o →
  marked hashIdentifier indexes ty x expiry now d →
  marked hashIdentifier indexes ty x expiry (now + match o with OpTick dt => dt | _ => 0 end) (stepOp d o).
Proof.
  intros Hre (Hinit & f & r & e & Hf & Hhas & Hr & Hclock & He & Hexp).
  destruct o as [ty' i|ty' i meta|dt]; simpl.
  - (* a check only touches the statistics *)
    rewrite Z.add_0_r. unfold Deduplicator.isDuplicate. rewrite Hinit. simpl. rewrite Hr.
    destruct (bloomFilters d ty') as [f'|]; simpl.
    + destruct (negb _); simpl; [by split; [|eexists _, _, _]|].
      destruct (redis_exists _ _); simpl; by split; [|eexists _, _, _].
    + by split; [|eexists _, _, _].
  - (* a mark of another record *)
    rewrite Z.add_0_r. unfold Deduplicator.markProcessed. rewrite Hinit. simpl.
    destruct (bloomFilters d ty') as [f'|] eqn:Hf'; simpl; [|by split; [|eexists _, _, _]].
    rewrite Hr. simpl. split; [done|].
    destruct (decide (ty = ty')) as [<-|Hne].
    + rewrite Hf in Hf'. injection Hf' as <-.
      eexists _, _, _. simpl. rewrite decide_True by done.
      split_and!; try done.
      * by apply bloom_has_add_mono.
      * simpl. rewrite lookup_insert_ne; [done|]. simpl in Hre. done.
    + eexists _, _, _. simpl. rewrite decide_False by done.
      split_and!; try done.
      simpl. rewrite lookup_insert_ne; [done|]. simpl in Hre. done.
  - (* time passes *)
    unfold tick. rewrite Hr. split; [done|].
    eexists _, _, _. simpl. split_and!; try done. simpl. by rewrite Hclock.
Qed.

Lemma marked_run ty x expiry ops : ∀ now d,
  Forall (λ o, ¬ reprocesses hashIdentifier ty x o) ops →
  marked hashIdentifier indexes ty x expiry now d →
  marked hashIdentifier indexes ty x expiry (now + elapsed ops) (runOps ops d).
Proof.
  unfold dedupRun. induction ops as [|o ops IH]; intros now d Hre Hm; simpl.
  - by rewrite Z.add_0_r.
  - inversion Hre as [|? ? Ho Hops]; subst.
    pose proof (IH _ _ Hops (marked_step ty x expiry now d o Ho Hm)) as H.
    replace (now + match o with OpTick dt => dt + elapsed ops | _ => elapsed ops end)
      with (now + match o with OpTick dt => dt | _ => 0 end + elapsed ops)
      by (destruct o; lia).
    exact H.
Qed.

Lemma isDuplicate_marked ty x expiry now d :
  marked hashIdentifier indexes ty x expiry now d →
  (isDuplicate ty x d).1 = Ok (negb (expiry <? now)).
Proof.
  intros (Hinit & f & r & e & Hf & Hhas & Hr & Hclock & He & Hexp).
  unfold Deduplicator.isDuplicate. rewrite Hinit. simpl. rewrite Hf, Hr, Hhas. simpl.
  unfold redis_exists. unfold Deduplicator.recordKey in He. rewrite He.
  unfold isLive. rewrite Hexp, Hclock.
  by destruct (expiry <? now).
Qed.

(** X28: within one instance the check follows the record.  After a
    successful [markProcessed] of [x], and through any later checks,
    marks of other records and passing of time on the same object, the
    check of [x] answers true as long as less than the seven days of
    the record's expiry have passed, and false once more than that has
    passed.  This holds in each of the three namespaces. *)
Theorem duplicate_until_ttl_one_instance (ty : DedupType) (x : string)
    (meta : list (string * string)) (d d1 : Deduplicator.t) (ops : list DedupOp) :
  markProcessed ty x meta d = (Ok (), d1) →
  Forall (λ o, ¬ reprocesses hashIdentifier ty x o) ops →
  (elapsed ops < recordTTL → (isDuplicate ty x (runOps ops d1)).1 = Ok true) ∧
  (recordTTL < elapsed ops → (isDuplicate ty x (runOps ops d1)).1 = Ok false).
Proof.
  intros Hmark Hre.
  destruct (marked_after_mark _ _ _ _ _ Hmark) as (now & Hm).
  pose proof (marked_run ty x _ ops now d1 Hre Hm) as Hm'.
  rewrite (isDuplicate_marked _ _ _ _ _ Hm').
  split; intros Hlt; f_equal.
  - apply negb_true_iff, Z.ltb_ge. lia.
  - apply negb_false_iff, Z.ltb_lt. lia.
Qed.

End Dedup.

Lemma duplicate_until_ttl_one_instance_witness :
  let d := readyDeduplicator 16 1 in
  let x := "did:plc:alice" in
  let d1 := (Deduplicator.markUserProcessed sampleHash sampleIndexes x [] d).2 in
  let ops :=
    [OpIsDuplicate Deduplicator.users "did:plc:bob"; OpTick 1000;
     OpMarkProcessed Deduplicator.users "did:plc:bob" []; OpTick 3600000] in
  (Deduplicator.markProcessed sampleHash sampleIndexes Deduplicator.users x [] d = (Ok (), d1) ∧
   Forall (λ o, ¬ reprocesses sampleHash Deduplicator.users x o) ops) ∧
  (elapsed ops < recordTTL →
     (Deduplicator.isDuplicate sampleHash sampleIndexes Deduplicator.users x
        (dedupRun sampleHash sampleIndexes ops d1)).1 = Ok true) ∧
  (recordTTL < elapsed ops →
     (Deduplicator.isDuplicate sampleHash sampleIndexes Deduplicator.users x
        (dedupRun sampleHash sampleIndexes ops d1)).1 = Ok false).
Proof.
  intros d x d1 ops.
  assert (H1 : Deduplicator.markProcessed sampleHash sampleIndexes Deduplicator.users x [] d
               = (Ok (), d1)) by reflexivity.
  assert (H2 : Forall (λ o, ¬ reprocesses sampleHash Deduplicator.users x o) ops).
  { repeat constructor; simpl; try tauto. discriminate. }
  split; [done|].
  exact (duplicate_until_ttl_one_instance sampleHash sampleIndexes Deduplicator.users x []
           d d1 ops H1 H2).
Defined.

Section DedupInvariant.
Import Deduplicator.
Variable hashIdentifier : string → string.
Variable indexes : nat → nat → string → list nat.

Lemma recordKey_inj ty ty' x x' :
recordKey hashIdentifier ty x = recordKey hashIdentifier ty' x' →
ty = ty' ∧ hashIdentifier x = hashIdentifier x'.
Proof.
unfold recordKey. destruct ty, ty'; simpl; intros [=]; done.
Qed.

Lemma isDuplicate_frame ty i d :
bloomFilters (isDuplicate hashIdentifier indexes ty i d).2 = bloomFilters d ∧
redisClient (isDuplicate hashIdentifier indexes ty i d).2 = redisClient d.
Proof.
unfold isDuplicate, incDuplicates, incChecked, setStats.
destruct (isInitialized d); simpl; [|done].
destruct (bloomFilters d ty); simpl; [|done].
destruct (redisClient d); simpl; [|done].
destruct (negb _); simpl; [done|]. by destruct (redis_exists _ _).
Qed.

(** The mark path keeps the filter ahead of the store: from a state in
  which every live record is covered by its filter, checks, marks and
  passing of time lead to such a state again. *)
Lemma filterCovers_step d o :
forwardInTime o →
(∀ ty x, filterCovers hashIdentifier indexes d ty x) →
∀ ty x, filterCovers hashIdentifier indexes (dedupStep hashIdentifier indexes d o) ty x.
Proof.
intros Hfw Hinv ty x r Hr Hlive.
destruct o as [ty' i|ty' i meta|dt]; simpl in *.
- destruct (isDuplicate_frame ty' i d) as [Hb Hc].
  rewrite Hc in Hr. rewrite Hb. by apply (Hinv ty x r).
- unfold markProcessed, incAdded, setStats, setRedis, setFilter in *.
  destruct (isInitialized d); simpl in *; [|by apply (Hinv ty x r)].
  destruct (bloomFilters d ty') as [f'|] eqn:Hf'; simpl in *; [|by apply (Hinv ty x r)].
  destruct (redisClient d) as [r0|] eqn:E; simpl in *; [|done].
  injection Hr as <-.
  destruct (decide (recordKey hashIdentifier ty x = recordKey hashIdentifier ty' i))
    as [Heq|Hne].
  + apply recordKey_inj in Heq as [-> Hh]. rewrite decide_True by done.
    eexists. split; [done|]. rewrite Hh. 
    unfold bloom_has, bloom_add. simpl. apply forallb_forall. intros j Hj.
    apply bool_decide_eq_true_2. apply elem_of_union_r, elem_of_list_to_set.
    by apply list_elem_of_In.
  + assert (Hlive0 : redis_exists r0 (recordKey hashIdentifier ty x) = true).
    { unfold redis_exists in *. simpl in Hlive.
      rewrite lookup_insert_ne in Hlive; [done|]. intros Hk. apply Hne. by rewrite <- Hk. }
    destruct (Hinv ty x r0 E Hlive0) as (f & Hf & Hhas).
    destruct (decide (ty = ty')) as [->|Hty].
    * rewrite Hf in Hf'. injection Hf' as <-.
      eexists. split; [done|].
      unfold bloom_has, bloom_add in *. simpl. rewrite forallb_forall in *.
      intros j Hj. apply bool_decide_eq_true_2, elem_of_union_l.
      specialize (Hhas j Hj). by apply bool_decide_eq_true_1 in Hhas.
    * by exists f.
- unfold tick in *. destruct (redisClient d) as [r0|] eqn:E; simpl in *; [|by rewrite E in Hr].
  injection Hr as <-.
  apply (Hinv ty x r0 E).
  unfold redis_exists, advance in *. simpl in Hlive.
  destruct (data r0 !! _) as [e|]; [|done].
  unfold isLive in *. destruct (expireAt e) as [w|]; [|done].
  apply negb_true_iff, Z.ltb_ge in Hlive. apply negb_true_iff, Z.ltb_ge. lia.
Qed.

(** X25: checks, marks and the passing of time keep the filter covering
    the store: when every live record of a deduplicator has its filter
    positions set, the same holds after any sequence of duplicate checks,
    marks and forward steps of the store clock. *)
Lemma filterCovers_run ops : ∀ d,
Forall forwardInTime ops →
(∀ ty x, filterCovers hashIdentifier indexes d ty x) →
∀ ty x, filterCovers hashIdentifier indexes (dedupRun hashIdentifier indexes ops d) ty x.
Proof.
unfold dedupRun. induction ops as [|o ops IH]; intros d Hfw Hinv; simpl; [done|].
inversion Hfw; subst. apply IH; [done|]. by apply filterCovers_step.
Qed.

Lemma filterCovers_ready size k ty x :
filterCovers hashIdentifier indexes (readyDeduplicator size k) ty x.
Proof. intros r [= <-] Hlive. done. Qed.
End DedupInvariant.

(** ** Checkpoint store *)

Section SortHead.
Context {A : Type} (key : A → Z).

(** Sorting by decreasing key, as the comparator [(a, b) => key(b) -
    key(a)] does. *)
Local Abbreviation byKeyDesc := (λ a b : A, key b - key a <? 0).

Lemma insertSorted_elem x y (l : list A) :
  y ∈ insertSorted byKeyDesc x l ↔ y = x ∨ y ∈ l.
Proof.
  induction l as [|z l IH]; simpl.
  - set_solver.
  - destruct (key x - key z <? 0); set_solver.
Qed.

Lemma stableSort_elem y (l : list A) : y ∈ stableSort byKeyDesc l ↔ y ∈ l.
Proof.
  induction l as [|x l IH]; simpl; [done|].
  rewrite insertSorted_elem. set_solver.
Qed.

Lemma insertSorted_head x (l : list A) :
  head (insertSorted byKeyDesc x l) =
    match l with
    | y :: _ => if key x - key y <? 0 then Some y else Some x
    | [] => Some x
    end.
Proof. destruct l as [|y l]; simpl; [done|]. by destruct (key x - key y <? 0). Qed.

Lemma stableSort_head_max (l : list A) c :
  head (stableSort byKeyDesc l) = Some c →
  c ∈ l ∧ ∀ c', c' ∈ l → key c' ≤ key c.
Proof.
  revert c. induction l as [|x l IH]; intros c; simpl; [done|].
  rewrite insertSorted_head.
  destruct (stableSort byKeyDesc l) as [|y s] eqn:E.
  - intros [= <-]. assert (l = []) as ->.
    { destruct l as [|z l']; [done|].
      assert (z ∈ stableSort byKeyDesc (z :: l')) by (apply stableSort_elem; set_solver).
      rewrite E in H. set_solver. }
    set_solver.
  - destruct (IH y eq_refl) as [Hy Hmax].
    destruct (key x - key y <? 0) eqn:C; intros [= <-].
    + apply Z.ltb_lt in C. split; [set_solver|].
      intros c' [->|Hc']%elem_of_cons; [lia|by apply Hmax].
    + apply Z.ltb_ge in C. split; [set_solver|].
      intros c' [->|Hc']%elem_of_cons; [lia|]. specialize (Hmax c' Hc'). lia.
Qed.

Lemma stableSort_nil (l : list A) : stableSort byKeyDesc l = [] → l = [].
Proof.
  destruct l as [|z l']; [done|]. intros E.
  assert (z ∈ stableSort byKeyDesc (z :: l')) by (apply stableSort_elem; set_solver).
  rewrite E in H. set_solver.
Qed.
End SortHead.

Section Checkpoints.
Import CheckpointManager.
Context {State : Type}.

(** C7, as stated, fails: the counter restarts with every manager
    instance, so after a restart the newest checkpoint is not the one of
    highest sequence number; [loadLatestCheckpoint] returns the newest. *)
Lemma C7_counterexample :
  let S := sampleSettings None in
  ∃ latest highest,
    (loadLatestCheckpoint S 4000000 secondSession twoSessions).1 = Some latest ∧
    spec_loadLatest S 4000000 secondSession twoSessions = Some highest ∧
    counter latest = 1 ∧ counter highest = 2 ∧
    (loadLatestCheckpoint S 4000000 secondSession twoSessions).1
      ≠ spec_loadLatest S 4000000 secondSession twoSessions.
Proof.
  intros S. eexists _, _. split_and!.
  - by vm_compute.
  - by vm_compute.
  - done.
  - done.
  - by vm_compute.
Qed.

(** C7, amended: [loadLatestCheckpoint] returns the stored checkpoint
    of the scraper type with the latest creation timestamp, unless that
    checkpoint is older than the configured maximum age (24 hours when
    unset); then, and when there is no checkpoint, it returns none. *)
Theorem C7_loadLatest_most_recent (S : Settings) (now : Z)
    (m : CheckpointManager.t State) (fs : Dir State) :
  let stored := listCheckpoints m fs in
  match (loadLatestCheckpoint S now m fs).1 with
  | Some c =>
      c ∈ stored ∧ (∀ c', c' ∈ stored → timestamp c' ≤ timestamp c) ∧
      now - timestamp c ≤ maxCheckpointAge S
  | None =>
      stored = [] ∨
      ∃ c, c ∈ stored ∧ (∀ c', c' ∈ stored → timestamp c' ≤ timestamp c) ∧
           maxCheckpointAge S < now - timestamp c
  end.
Proof.
  intros stored. unfold loadLatestCheckpoint. fold stored.
  destruct (length stored =? 0)%nat eqn:Hlen.
  { left. apply Nat.eqb_eq in Hlen. by destruct stored. }
  destruct (stableSort _ stored) as [|c rest] eqn:Hsort.
  { left. by apply (stableSort_nil timestamp). }
  destruct (stableSort_head_max timestamp stored c) as [Hin Hmax].
  { by rewrite Hsort. }
  fold (maxCheckpointAge S).
  destruct (maxCheckpointAge S <? now - timestamp c) eqn:Hage; simpl.
  - right. exists c. apply Z.ltb_lt in Hage. done.
  - apply Z.ltb_ge in Hage. done.
Qed.

End Checkpoints.

(** ** Frontier crawler *)

Section Crawler.
Import RelationshipsScraper.

(** C1, as stated, fails: the key does not tell the two directions of an
    edge apart.  Alice and Bob follow each other; scraping Alice emits the
    edge found on her followers page, and the edge of the other direction,
    found on her follows page, is taken for a duplicate of it. *)
Lemma C1_counterexample :
  let s :=
    scrapeUserRelationships sampleHash sampleIndexes acceptAll mutualFollow alice 0
      (readyScraper sampleOptions) in
  edge alice bob following 0 ≠ edge alice bob follower 0 ∧
  emitted s = [edge alice bob follower 0] ∧
  (edge alice bob following 0 ∉ emitted s) ∧
  duplicatesSkipped (stats s) = 1 ∧
  relationshipsDiscovered (stats s) = 2.
Proof.
  intros s.
  assert (E : emitted s = [edge alice bob follower 0]) by (by vm_compute).
  split_and!; [done|done| |by vm_compute|by vm_compute].
  rewrite E. intros Hin%list_elem_of_singleton. discriminate Hin.
Qed.

(** [saveCheckpoint] calls a method the checkpoint manager does not
    have; the error is caught, and neither the manager nor its directory
    changes. *)
Lemma saveCheckpoint_writes_nothing (currentDepth : Z) (s : t) (w : CheckpointWorld) :
  saveCheckpoint CheckpointWorld checkpointManager currentDepth s w = (s, w).
Proof. reflexivity. Qed.

(** C2 on the code: a crawl in progress saves a checkpoint, and a new
    instance resumes.  The directory is still empty, the new instance
    finds no checkpoint and seeds itself from the user files: its
    frontier is not the one that was saved. *)
Theorem C2_saved_frontier_not_resumed :
  let w0 : CheckpointWorld := (relationshipsManager, []) in
  let '(saver, w1) :=
    saveCheckpoint CheckpointWorld checkpointManager 1 midCrawl w0 in
  let '(checkpoint, resumed, w2) :=
    loadFrontier CheckpointWorld checkpointManager
                 [[alice]] true (readyScraper sampleOptions) w1 in
  w1.2 = [] ∧
  checkpoint = Ok None ∧
  frontier saver = ({["did:plc:alice"]}, {[0 := []; 1 := [{| user := bob; depth := 1 |}]]}) ∧
  frontier resumed = (∅, {[0 := [{| user := alice; depth := 0 |}]; 1 := []]}) ∧
  frontier resumed ≠ frontier saver.
Proof.
  vm_compute. split_and!; try done.
Qed.

(** Without an initialized deduplicator every item of a page fails in
    its own [try]: nothing is emitted, nothing is queued, and
    [processRelationships] returns normally. *)
Section Uninitialized.
Variable hashIdentifier : string → string.
Variable indexes : nat → nat → string → list nat.
Variable validateBatch : list Relationship → list Relationship * Z.



End Uninitialized.



End Crawler.

Section Resume.
Import RelationshipsScraper.
Variable W : Type.
Variable cm : CheckpointApi W.

Lemma loadDepthQueues_options l : ∀ s, options (loadDepthQueues l s) = options s.
Proof.
  unfold loadDepthQueues. induction l as [|e l IH]; intros s; simpl; [done|].
  rewrite IH. by destruct (e.1 <=? maxDepth (options s)).
Qed.

Lemma loadDepthQueues_processedUsers l : ∀ s,
  processedUsers (loadDepthQueues l s) = processedUsers s.
Proof.
  unfold loadDepthQueues. induction l as [|e l IH]; intros s; simpl; [done|].
  rewrite IH. by destruct (e.1 <=? maxDepth (options s)).
Qed.

Lemma loadDepthQueues_lookup (l : list (Z * list QueuedUser)) : ∀ s k,
  NoDup l.*1 →
  depthQueues (loadDepthQueues l s) !! k =
    match (list_to_map l : gmap Z (list QueuedUser)) !! k with
    | Some q => if k <=? maxDepth (options s) then Some q else depthQueues s !! k
    | None => depthQueues s !! k
    end.
Proof.
  unfold loadDepthQueues. induction l as [|[k0 q0] l IH]; intros s k Hnd; simpl.
  - by rewrite lookup_empty.
  - apply NoDup_cons in Hnd as [Hk0 Hnd].
    rewrite IH by done.
    assert (Hnone : (list_to_map l : gmap Z (list QueuedUser)) !! k0 = None).
    { by apply not_elem_of_list_to_map_1. }
    set (s1 := if k0 <=? maxDepth (options s) then _ else s).
    assert (Ho : options s1 = options s) by (unfold s1; by destruct (k0 <=? _)).
    rewrite Ho.
    destruct (decide (k = k0)) as [->|Hne].
    + rewrite lookup_insert_eq, Hnone.
      unfold s1. destruct (k0 <=? maxDepth (options s)) eqn:Hle; simpl; [|done].
      by rewrite lookup_insert_eq.
    + rewrite lookup_insert_ne by done.
      assert (Hq : depthQueues s1 !! k = depthQueues s !! k).
      { unfold s1. destruct (k0 <=? _); simpl; [by rewrite lookup_insert_ne|done]. }
      by rewrite Hq.
Qed.

(** X26: what the scraper saves is what it restores: when a manager hands
    back the state object that [saveCheckpoint] built, [restore] gives a
    new instance with the same options the visited set and the queues
    of the saving instance. *)
Lemma restore_reproduces_frontier (currentDepth : Z) (meta : list (string * string))
    (s s' : t) :
  options s' = options s →
  (∀ k, is_Some (depthQueues s !! k) → k ≤ maxDepth (options s)) →
  (∀ k, is_Some (depthQueues s' !! k) → is_Some (depthQueues s !! k)) →
  ∃ s'',
    restore {| data := Some (checkpointState currentDepth s); loadedMetadata := meta |} s'
      = (Ok (checkpointState currentDepth s), s'') ∧
    processedUsers s'' = processedUsers s ∧
    depthQueues s'' = depthQueues s.
Proof.
  intros Ho Hdom Hsub. unfold restore. simpl. eexists. split; [done|]. split.
  - rewrite loadDepthQueues_processedUsers. simpl. apply list_to_set_elements_L.
  - apply map_eq. intros k.
    rewrite loadDepthQueues_lookup by apply NoDup_fst_map_to_list.
    rewrite list_to_map_to_list. simpl. rewrite Ho.
    destruct (depthQueues s !! k) as [q|] eqn:E.
    + assert (k ≤ maxDepth (options s)) as Hle by (apply Hdom; by rewrite E).
      apply Z.leb_le in Hle. by rewrite Hle.
    + destruct (depthQueues s' !! k) as [q'|] eqn:E'; [|done].
      destruct (Hsub k) as [q Hq]; [by rewrite E'|]. congruence.
Qed.

(** With the repository's checkpoint manager, on the other hand,
    resuming never restores anything: the manager finds no document, or
    finds one that has no [data]. *)
Lemma resume_never_restores (userFiles : list (list Profile)) (s : t)
    (w : CheckpointManager.t CheckpointData * CheckpointManager.Dir CheckpointData)
    (d : CheckpointData) :
  (loadFrontier _ checkpointManager userFiles true s w).1.1 ≠ Ok (Some d).
Proof.
  unfold loadFrontier. simpl.
  destruct (CheckpointManager.loadCheckpoint _ _ _) as [[c|] m']; simpl; [done|].
  by destruct (loadInitialUserQueue userFiles s) as [[|e] s2].
Qed.
End Resume.

Section EmittedOnceProofs.
Import RelationshipsScraper.
Variable hashIdentifier : string → string.
Variable indexes : nat → nat → string → list nat.
Variable validateBatch : list Relationship → list Relationship * Z.
Variable W : Type.
Variable cm : CheckpointApi W.

Local Abbreviation marks := (allMarked hashIdentifier indexes).
Local Abbreviation inv := (crawlInv hashIdentifier indexes).
Local Abbreviation digest := (λ rec, hashIdentifier (relationshipId (edgeOf rec))).

Lemma isFollowDuplicate_marks a b d recs :
  marks d recs →
  ∃ dup d1,
    Deduplicator.isFollowDuplicate hashIdentifier indexes a b d = (Ok dup, d1) ∧
    marks d1 recs ∧
    (dup = false → ∀ rec, rec ∈ recs → digest rec ≠ hashIdentifier (a +:+ ":" +:+ b)).
Proof.
  intros (Hinit & f & r & Hf & Hr & Hall & Hnd).
  unfold Deduplicator.isFollowDuplicate, Deduplicator.isDuplicate.
  rewrite Hinit. simpl. rewrite Hf, Hr.
  set (h := hashIdentifier (a +:+ ":" +:+ b)).
  assert (Hm : ∀ d', Deduplicator.bloomFilters d' = Deduplicator.bloomFilters d →
                     Deduplicator.redisClient d' = Deduplicator.redisClient d →
                     Deduplicator.isInitialized d' = true → marks d' recs).
  { intros d' Hb Hc Hi. split; [done|]. exists f, r. by rewrite Hb, Hc. }
  destruct (Deduplicator.bloom_has indexes h f) eqn:Hhas; simpl.
  - destruct (Deduplicator.redis_exists r _) eqn:Hex.
    + eexists true, _. split; [done|]. split; [by apply Hm|done].
    + eexists false, _. split; [done|]. split; [by apply Hm|].
      intros _ rec Hrec Heq. destruct (Hall rec Hrec) as [_ H2].
      unfold Deduplicator.recordKey in H2. rewrite Heq in H2. fold h in H2.
      simpl in H2, Hex. congruence.
  - eexists false, _. split; [done|]. split; [by apply Hm|].
    intros _ rec Hrec Heq. destruct (Hall rec Hrec) as [H1 _].
    rewrite Heq in H1. fold h in H1. congruence.
Qed.

Lemma markFollowProcessed_marks a b meta d recs rec :
  marks d recs →
  digest rec = hashIdentifier (a +:+ ":" +:+ b) →
  (∀ rec', rec' ∈ recs → digest rec' ≠ digest rec) →
  ∃ d1,
    Deduplicator.markFollowProcessed hashIdentifier indexes a b meta d = (Ok (), d1) ∧
    marks d1 (recs ++ [rec]).
Proof.
  intros (Hinit & f & r & Hf & Hr & Hall & Hnd) Hdig Hfresh.
  unfold Deduplicator.markFollowProcessed, Deduplicator.markProcessed.
  rewrite Hinit. simpl. rewrite Hf. simpl. rewrite Hr.
  eexists. split; [done|]. split; [done|].
  eexists _, _. simpl. split_and!; [done|done| |].
  - intros rec' [Hin| ->%list_elem_of_singleton]%elem_of_app.
    + destruct (Hall rec' Hin) as [H1 H2]. split.
      * unfold Deduplicator.bloom_has, Deduplicator.bloom_add in *. simpl.
        rewrite forallb_forall in *. intros j Hj.
        apply bool_decide_eq_true_2, elem_of_union_l.
        specialize (H1 j Hj). by apply bool_decide_eq_true_1 in H1.
      * unfold Deduplicator.redis_exists, Deduplicator.redis_setEx,
          Deduplicator.recordKey in *. simpl.
        rewrite lookup_insert_ne; [done|].
        intros Hk. simplify_eq. apply (Hfresh rec' Hin). by rewrite Hdig.
    + split.
      * rewrite Hdig.
        unfold Deduplicator.bloom_has, Deduplicator.bloom_add. simpl.
        apply forallb_forall. intros j Hj.
        apply bool_decide_eq_true_2, elem_of_union_r, elem_of_list_to_set.
        by apply list_elem_of_In.
      * unfold Deduplicator.redis_exists, Deduplicator.redis_setEx,
          Deduplicator.recordKey. simpl. rewrite Hdig. rewrite lookup_insert_eq.
        unfold Deduplicator.isLive. simpl. apply negb_true_iff, Z.ltb_ge. lia.
  - rewrite fmap_app. simpl. apply NoDup_app. split_and!; [done| |apply NoDup_singleton].
    intros x (rec' & Hx & Hin)%list_elem_of_fmap Hx2%list_elem_of_singleton.
    apply (Hfresh rec' Hin). congruence.
Qed.

Lemma processRelationship_marks sourceUser ty currentDepth base new next s rel :
  marks (deduplicator s) (base ++ new) →
  ∃ new' next' s',
    processRelationship hashIdentifier indexes sourceUser ty currentDepth (new, next, s) rel
      = (new', next', s') ∧
    marks (deduplicator s') (base ++ new') ∧
    emitted s' = emitted s ∧ depthQueues s' = depthQueues s ∧
    options s' = options s ∧ processedUsers s' = processedUsers s ∧
    shouldStop s' = shouldStop s.
Proof.
  intros Hm. unfold processRelationship.
  destruct (subject rel) as [targetUser|]; [|by eexists _, _, _].
  destruct (String.eqb (did targetUser) ""); [by eexists _, _, _|].
  destruct (isFollowDuplicate_marks (did sourceUser) (did targetUser) _ _ Hm)
    as (dup & d1 & -> & Hm1 & Hfresh).
  destruct dup.
  - by eexists _, _, _.
  - set (rec := {| source := _; target := _; type := ty; recordDepth := currentDepth;
                   recordUri := uri rel |}).
    destruct (markFollowProcessed_marks (did sourceUser) (did targetUser)
                [("type", typeString ty)] d1 (base ++ new) rec Hm1 eq_refl)
      as (d2 & -> & Hm2).
    { intros rec' Hin. by apply Hfresh. }
    rewrite <- (assoc (++)) in Hm2.
    destruct (_ && _ && _); by eexists _, _, _.
Qed.

Lemma processRelationship_fold_marks sourceUser ty currentDepth base rels :
  ∀ new next s,
    marks (deduplicator s) (base ++ new) →
    ∃ new' next' s',
      foldl (processRelationship hashIdentifier indexes sourceUser ty currentDepth)
            (new, next, s) rels = (new', next', s') ∧
      marks (deduplicator s') (base ++ new') ∧
      emitted s' = emitted s ∧ depthQueues s' = depthQueues s ∧
      options s' = options s ∧ processedUsers s' = processedUsers s ∧
      shouldStop s' = shouldStop s.
Proof.
  induction rels as [|rel rels IH]; intros new next s Hm; cbn [foldl].
  - by eexists _, _, _.
  - destruct (processRelationship_marks sourceUser ty currentDepth base new next s rel Hm)
      as (new1 & next1 & s1 & -> & Hm1 & He1 & Hq1 & Ho1 & Hp1 & Hs1).
    destruct (IH new1 next1 s1 Hm1)
      as (new2 & next2 & s2 & -> & Hm2 & He2 & Hq2 & Ho2 & Hp2 & Hs2).
    eexists _, _, _. split; [done|]. split; [done|]. by rewrite He2, Hq2, Ho2, Hp2, Hs2.
Qed.

Lemma saveBatch_emitted force s :
  emitted (saveBatch force s) = emitted s ∧
  deduplicator (saveBatch force s) = deduplicator s ∧
  shouldStop (saveBatch force s) = shouldStop s ∧
  options (saveBatch force s) = options s.
Proof.
  unfold saveBatch. destruct (length (currentBatch s) =? 0)%nat; [done|].
  destruct (negb force && _); [done|].
  unfold emitted. simpl. rewrite concat_app. simpl. by rewrite !app_nil_r.
Qed.

Lemma processRelationships_inv relationships sourceUser ty currentDepth s :
  inv s →
  inv (processRelationships hashIdentifier indexes validateBatch
              relationships sourceUser ty currentDepth s).2.
Proof.
  intros Hinv. unfold processRelationships.
  destruct (length relationships =? 0)%nat; [done|].
  destruct (validateBatch relationships) as [validRelationships validationErrors].
  set (s1 := if 0 <? validationErrors then _ else _).
  assert (Hinv1 : marks (deduplicator s1) (emitted s ++ [])).
  { rewrite app_nil_r. unfold s1. by destruct (0 <? validationErrors). }
  assert (He1 : emitted s1 = emitted s).
  { unfold s1. by destruct (0 <? validationErrors). }
  destruct (processRelationship_fold_marks sourceUser ty currentDepth (emitted s)
              validRelationships [] [] s1 Hinv1)
    as (new & next & s2 & -> & Hm2 & He2 & _).
  set (s3 := if (0 <? length new)%nat then _ else s2).
  assert (Hinv3 : inv s3).
  { unfold crawlInv, s3. destruct (0 <? length new)%nat eqn:Hn.
    - unfold emitted in *. simpl. rewrite (assoc (++)). by rewrite He2, He1.
    - destruct new; [|done]. rewrite app_nil_r in Hm2. by rewrite He2, He1. }
  clearbody s3.
  set (queued := if _ && _ then _ else _).
  assert (Hq : inv queued.2).
  { unfold queued. destruct (_ && _); [|done].
    by destruct (depthQueues s3 !! (currentDepth + 1)). }
  destruct queued as [[|e] s4]; simpl in *; [|done].
  destruct (saveInterval (options s4) <=? _); simpl; [|done].
  unfold crawlInv. destruct (saveBatch_emitted false s4) as (-> & -> & _). done.
Qed.

Lemma scrapePages_inv ty u currentDepth maxItems pages : ∀ scraped s,
  inv s →
  inv (scrapePages hashIdentifier indexes validateBatch ty u currentDepth
              maxItems scraped pages s).
Proof.
  induction pages as [|[items|e] pages IH]; intros scraped s Hinv; simpl; [done| |done].
  set (r := if (0 <? length items)%nat then _ else _).
  assert (Hr : inv r.2).
  { unfold r. destruct (0 <? length items)%nat; [|done].
    by apply processRelationships_inv. }
  destruct r as [[|e] s1]; simpl in *; [|done].
  destruct (maxItems <=? _); [done|].
  destruct (maxRelationships (options s1) <=? _); [done|].
  destruct (shouldStop s1); [done|]. by apply IH.
Qed.

Lemma scrapeUserRelationships_inv api u currentDepth s :
  inv s →
  inv (scrapeUserRelationships hashIdentifier indexes validateBatch api u currentDepth s).
Proof.
  intros Hinv. unfold scrapeUserRelationships, scrapeUserFollowing, scrapeUserFollowers.
  by do 2 apply scrapePages_inv.
Qed.

Lemma saveCheckpoint_same currentDepth s w :
  (saveCheckpoint W cm currentDepth s w).1 = s.
Proof. unfold saveCheckpoint. by destruct (member_saveCheckpoint cm). Qed.

Lemma processQueue_inv api currentDepth queue : ∀ s w,
  inv s →
  inv (processQueue hashIdentifier indexes validateBatch W cm api currentDepth
              queue s w).1.2.
Proof.
  induction queue as [|qu rest IH]; intros s w Hinv; simpl; [done|].
  destruct (shouldStop s); [done|].
  case_bool_decide; [by apply IH|].
  set (s2 := incUsersProcessed _).
  assert (Hinv2 : inv s2).
  { unfold s2, crawlInv. simpl.
    by apply (scrapeUserRelationships_inv api (user qu) currentDepth _). }
  clearbody s2.
  set (p := if _ =? 0 then _ else _).
  assert (Hp : p.1 = s2).
  { unfold p. destruct (_ =? 0); [apply saveCheckpoint_same|done]. }
  destruct p as [s3 w3]. simpl in Hp. subst s3.
  destruct (maxRelationships (options s2) <=? _); [done|]. by apply IH.
Qed.

Lemma scrapeLevels_inv api n : ∀ currentDepth s w,
  inv s →
  inv (scrapeLevels hashIdentifier indexes validateBatch W cm api n currentDepth s w).1.
Proof.
  induction n as [|n IH]; intros currentDepth s w Hinv; simpl; [done|].
  destruct (shouldStop s); [done|].
  assert (Hinv1 : inv (set_currentDepth currentDepth s)) by done.
  simpl.
  destruct (depthQueues s !! currentDepth) as [[|qu queue]|]; [by apply IH| |by apply IH].
  pose proof (processQueue_inv api currentDepth (qu :: queue) _ w Hinv1) as Hq.
  destruct (processQueue _ _ _ _ _ _ _ _ _ _) as [[returned s2] w2]. simpl in Hq.
  destruct returned; [done|]. by apply IH.
Qed.

Lemma scrapeRelationships_inv api checkpoint s w :
  inv s →
  inv (scrapeRelationships hashIdentifier indexes validateBatch W cm api checkpoint s w).1.
Proof. intros Hinv. by apply scrapeLevels_inv. Qed.

Lemma loadDepthQueues_output l : ∀ s,
  emitted (loadDepthQueues l s) = emitted s ∧
  deduplicator (loadDepthQueues l s) = deduplicator s.
Proof.
  unfold loadDepthQueues. induction l as [|e l IH]; intros s; simpl; [done|].
  destruct (IH (if e.1 <=? maxDepth (options s)
                then set_depthQueues (<[e.1:=e.2]> (depthQueues s)) s else s)) as [-> ->].
  by destruct (e.1 <=? maxDepth (options s)).
Qed.

Lemma loadFrontier_inv userFiles resume s w :
  inv s → inv (loadFrontier W cm userFiles resume s w).1.2.
Proof.
  intros Hinv. unfold loadFrontier.
  assert (Hseed : inv (loadInitialUserQueue userFiles s).2).
  { unfold loadInitialUserQueue. destruct (length userFiles =? 0)%nat; [done|].
    by destruct (depthQueues s !! 0). }
  destruct resume.
  - destruct (member_loadCheckpoint cm) as [load|]; [|done].
    destruct (load "relationships_scraper" w) as [[[checkpoint|]|e] w1]; [| |done].
    + unfold restore. destruct (data checkpoint) as [d|]; [|done]. simpl.
      unfold crawlInv.
      destruct (loadDepthQueues_output (cd_depthQueues d)
        (set_processedUsers (list_to_set (cd_processedUsers d))
           (set_stats (cd_stats d) s))) as [-> ->].
      done.
    + by destruct (loadInitialUserQueue userFiles s) as [[|e] s2].
  - by destruct (loadInitialUserQueue userFiles s) as [[|e] s2].
Qed.

Lemma start_inv api userFiles resume s w :
  inv s →
  inv (start hashIdentifier indexes validateBatch W cm api userFiles resume s w).1.2.
Proof.
  intros Hinv. unfold start. destruct (isRunning s); [done|]. simpl.
  assert (H0 : inv (set_shouldStop false (set_isRunning true s))) by done.
  pose proof (loadFrontier_inv userFiles resume _ w H0) as H1.
  destruct (loadFrontier _ _ _ _ _ _) as [[[checkpoint|e] s1] w1]; simpl in *; [|done].
  pose proof (scrapeRelationships_inv api checkpoint s1 w1 H1) as H2.
  destruct (scrapeRelationships _ _ _ _ _ _ _ _ _) as [s2 w2]. simpl in *.
  unfold crawlInv in *.
  change (marks (deduplicator (saveBatch true s2)) (emitted (saveBatch true s2))).
  by destruct (saveBatch_emitted true s2) as (-> & -> & _).
Qed.

(** C1, amended: in a crawl session that starts from a state in which
    the deduplicator knows every record emitted so far (a freshly
    initialized scraper is one), the records emitted have pairwise
    different (source, target, direction) triples, and even pairwise
    different (source, target) pairs; the identifier the deduplicator is
    consulted on is built from the source and the target only and is the
    same for both directions. *)
Theorem C1_emitted_at_most_once api userFiles resume s w :
  inv s →
  let s' :=
    (start hashIdentifier indexes validateBatch W cm api userFiles resume s w).1.2 in
  NoDup (edgeOf <$> emitted s') ∧
  NoDup ((λ rec, ((source rec).1, (target rec).1.1)) <$> emitted s') ∧
  (∀ a b d,
     Deduplicator.isFollowDuplicate hashIdentifier indexes a b d
     = Deduplicator.isDuplicate hashIdentifier indexes Deduplicator.follows
         (relationshipId (a, b, follower)) d ∧
     relationshipId (a, b, follower) = relationshipId (a, b, following)).
Proof.
  intros Hinv s'.
  assert (Hinv' : inv s') by (by apply start_inv).
  destruct Hinv' as (_ & f & r & _ & _ & _ & Hnd).
  split_and!; [| |done].
  - apply (NoDup_fmap_1 (λ e, hashIdentifier (relationshipId e))).
    by rewrite <- list_fmap_compose.
  - apply (NoDup_fmap_1 (λ p : string * string, hashIdentifier (p.1 +:+ ":" +:+ p.2))).
    by rewrite <- list_fmap_compose.
Qed.

(** A scraper that [initialize] has set up on a reachable store has
    emitted nothing and its deduplicator is ready. *)
Lemma crawlInv_initialized (S : Settings) (valid : string → bool)
    (optimalParams : Deduplicator.DedupType → nat * nat) (fallbackParams : nat * nat)
    (pr : ProxyManager.Redis) (dr : Deduplicator.Redis) (o : Options) :
  inv (initialize optimalParams fallbackParams S valid (Some pr) (Some dr) (constructed o)).2.
Proof.
  unfold initialize. destruct (ProxyManager.initialize _ _ _ _) as [res pm]. simpl.
  split; [done|]. simpl.
  unfold Deduplicator.initializeBloomFilters. simpl.
  set (d2 := Deduplicator.initializeBloomFilter optimalParams fallbackParams dr
               Deduplicator.posts _).
  assert (Hr : ∀ ty d, Deduplicator.redisClient
                 (Deduplicator.initializeBloomFilter optimalParams fallbackParams dr ty d)
               = Deduplicator.redisClient d).
  { intros ty d. unfold Deduplicator.initializeBloomFilter.
    destruct (Deduplicator.redis_get _ _) as [[|]|];
      [destruct fallbackParams| |destruct (optimalParams ty)]; done. }
  assert (Hf : ∃ f, Deduplicator.bloomFilters
                 (Deduplicator.initializeBloomFilter optimalParams fallbackParams dr
                    Deduplicator.follows d2) Deduplicator.follows = Some f).
  { unfold Deduplicator.initializeBloomFilter.
    destruct (Deduplicator.redis_get _ _) as [[|]|];
      [destruct fallbackParams| |destruct (optimalParams _)]; simpl; eauto. }
  destruct Hf as [f Hf]. exists f, dr. split_and!; [done| |set_solver|constructor].
  rewrite Hr. unfold d2. by rewrite !Hr.
Qed.
End EmittedOnceProofs.

Lemma C1_emitted_at_most_once_witness :
  let s := readyScraper sampleOptions in
  let w : CheckpointWorld := (relationshipsManager, []) in
  let s' :=
    (RelationshipsScraper.start sampleHash sampleIndexes acceptAll CheckpointWorld
       RelationshipsScraper.checkpointManager mutualFollow [[alice]] false s w).1.2 in
  crawlInv sampleHash sampleIndexes s ∧
  NoDup (edgeOf <$> RelationshipsScraper.emitted s') ∧
  NoDup ((λ rec, ((RelationshipsScraper.source rec).1,
                  (RelationshipsScraper.target rec).1.1)) <$> RelationshipsScraper.emitted s') ∧
  (∀ a b d,
     Deduplicator.isFollowDuplicate sampleHash sampleIndexes a b d
     = Deduplicator.isDuplicate sampleHash sampleIndexes Deduplicator.follows
         (relationshipId (a, b, RelationshipsScraper.follower)) d ∧
     relationshipId (a, b, RelationshipsScraper.follower)
     = relationshipId (a, b, RelationshipsScraper.following)).
Proof.
  intros s w.
  assert (Hinv : crawlInv sampleHash sampleIndexes s).
  { split; [reflexivity|]. eexists _, _. split_and!; [reflexivity|reflexivity| |].
    - intros rec Hrec. vm_compute in Hrec. by apply elem_of_nil in Hrec.
    - vm_compute. constructor. }
  split; [exact Hinv|].
  exact (C1_emitted_at_most_once sampleHash sampleIndexes acceptAll CheckpointWorld
           RelationshipsScraper.checkpointManager mutualFollow [[alice]] false s w Hinv).
Defined.

(** ** Proxy pool: acquisition, failure streaks, health checks *)

Section ProxyAcquire.
Import ProxyManager.

Lemma randomIndex_bounds (rand : Q) (n : nat) :
  (0 <= rand)%Q → (rand < 1)%Q → (0 < n)%nat →
  (Z.to_nat (Qfloor (rand * inject_Z (Z.of_nat n))) < n)%nat.
Proof.
  intros H0 H1 Hn.
  assert (Hlo : 0 ≤ Qfloor (rand * inject_Z (Z.of_nat n))).
  { rewrite <- (Qfloor_Z 0). apply Qfloor_resp_le.
    apply Qmult_le_0_compat; [done|].
    change 0%Q with (inject_Z 0). rewrite <- Zle_Qle. lia. }
  assert (Hhi : Qfloor (rand * inject_Z (Z.of_nat n)) < Z.of_nat n).
  { rewrite Zlt_Qlt.
    eapply Qle_lt_trans; [apply Qfloor_le|].
    rewrite <- (Qmult_1_l (inject_Z (Z.of_nat n))) at 2.
    apply Qmult_lt_compat_r; [|done].
    change 0%Q with (inject_Z 0). rewrite <- Zlt_Qlt. lia. }
  lia.
Qed.

(** X1: [getRandomProxy] hands out a member of the healthy set and
    nothing else: it returns no proxy exactly when the healthy set is
    empty, and a proxy it returns was in the healthy set; the call
    changes no status set and no timer, and counts one request for the
    proxy it returns. *)
Theorem getRandomProxy_healthy (rand : Q) (now : Z) (m : t) (r : Redis) :
  redisClient m = Some r →
  (0 <= rand)%Q → (rand < 1)%Q →
  match getRandomProxy rand now m with
  | (Some p, m') =>
      p ∈ HEALTHY_PROXIES r ∧
      timers m' = timers m ∧
      ∃ r', redisClient m' = Some r' ∧
        PROXIES r' = PROXIES r ∧
        HEALTHY_PROXIES r' = HEALTHY_PROXIES r ∧
        UNHEALTHY_PROXIES r' = UNHEALTHY_PROXIES r ∧
        RATE_LIMITED r' = RATE_LIMITED r ∧
        requests (statsOf r' p) = requests (statsOf r p) + 1 ∧
        ∀ q, q ≠ p → statsOf r' q = statsOf r q
  | (None, m') => HEALTHY_PROXIES r = ∅ ∧ m' = m
  end.
Proof.
  intros Hr H0 H1. unfold getRandomProxy. rewrite Hr.
  destruct (length (elements (HEALTHY_PROXIES r)) =? 0)%nat eqn:Hlen.
  - apply Nat.eqb_eq in Hlen. split; [|done].
    apply length_zero_iff_nil in Hlen. by apply elements_empty_inv in Hlen as ->%leibniz_equiv.
  - apply Nat.eqb_neq in Hlen.
    destruct (lookup_lt_is_Some_2 (elements (HEALTHY_PROXIES r))
                (Z.to_nat (Qfloor (rand * inject_Z (Z.of_nat (length (elements (HEALTHY_PROXIES r))))))))
      as [p Hp].
    { apply randomIndex_bounds; [done|done|lia]. }
    rewrite Hp. split.
    + apply elem_of_elements. by eapply list_elem_of_lookup_2.
    + split; [done|]. eexists. split; [reflexivity|]. simpl.
      split_and!; try done.
      * unfold statsOf. simpl. by rewrite lookup_insert_eq.
      * intros q Hq. unfold statsOf. simpl. by rewrite lookup_insert_ne.
Qed.

Lemma getRandomProxy_healthy_witness :
  let p := "http://10.0.0.1:8080" in
  let m := freshPool [p] in
  match getRandomProxy (1 # 2) 1000 m with
  | (Some p', m') => p' = p ∧ requests (statsOf (default emptyRedis (redisClient m')) p) = 1
  | (None, _) => False
  end.
Proof.
  intros p m.
  pose proof (getRandomProxy_healthy (1 # 2) 1000 m
                (default emptyRedis (redisClient m)) eq_refl) as H.
  specialize (H ltac:(done) ltac:(done)).
  destruct (getRandomProxy (1 # 2) 1000 m) as [[p'|] m'].
  - destruct H as (Hin & _ & r' & Hr' & _ & _ & _ & _ & Hreq & _).
    assert (p' = p) as ->.
    { simpl in Hin. set_solver. }
    split; [done|]. rewrite Hr'. simpl. rewrite Hreq. reflexivity.
  - destruct H as [H _]. simpl in H. set_solver.
Defined.








End ProxyAcquire.

Section ProxyHealth.
Import ProxyManager.

Lemma bool_decide_eq_iff (P Q : Prop) `{Decision P, Decision Q} :
  bool_decide P = bool_decide Q → (P ↔ Q).
Proof.
  intros Heq. split; intros Hx.
  - apply (bool_decide_eq_true_1 Q). rewrite <- Heq. by apply bool_decide_eq_true_2.
  - apply (bool_decide_eq_true_1 P). rewrite Heq. by apply bool_decide_eq_true_2.
Qed.

Lemma proxyView_eq r r' p :
  proxyView r' p = proxyView r p →
  (p ∈ HEALTHY_PROXIES r' ↔ p ∈ HEALTHY_PROXIES r) ∧
  (p ∈ UNHEALTHY_PROXIES r' ↔ p ∈ UNHEALTHY_PROXIES r) ∧
  (p ∈ RATE_LIMITED r' ↔ p ∈ RATE_LIMITED r) ∧
  statsOf r' p = statsOf r p.
Proof.
  unfold proxyView. intros [= H1 H2 H3 H4].
  split_and!; [by eapply bool_decide_eq_iff..|done].
Qed.

Lemma proxyView_intro r r' p :
  (p ∈ HEALTHY_PROXIES r' ↔ p ∈ HEALTHY_PROXIES r) →
  (p ∈ UNHEALTHY_PROXIES r' ↔ p ∈ UNHEALTHY_PROXIES r) →
  (p ∈ RATE_LIMITED r' ↔ p ∈ RATE_LIMITED r) →
  statsOf r' p = statsOf r p →
  proxyView r' p = proxyView r p.
Proof.
  intros H1 H2 H3 H4. unfold proxyView.
  rewrite H4. repeat f_equal; apply bool_decide_ext; done.
Qed.

Lemma testProxyHealth_connected S q probe now m r :
  redisClient m = Some r →
  ∃ r', redisClient (testProxyHealth S q probe now m).2 = Some r' ∧
        PROXIES r' = PROXIES r.
Proof.
  intros Hr. unfold testProxyHealth.
  destruct probe as [status|]; [destruct (status =? 200)|]; simpl.
  - unfold markProxySuccess. rewrite Hr. simpl. by eexists.
  - unfold markProxyFailure. rewrite Hr. destruct (js_ge _ _); simpl; by eexists.
  - unfold markProxyFailure. rewrite Hr. destruct (js_ge _ _); simpl; by eexists.
Qed.

(** A health test of [q] leaves every other proxy as it is. *)
Lemma testProxyHealth_frame S q probe now m r p :
  redisClient m = Some r → p ≠ q →
  ∃ r', redisClient (testProxyHealth S q probe now m).2 = Some r' ∧
        PROXIES r' = PROXIES r ∧ proxyView r' p = proxyView r p.
Proof.
  intros Hr Hpq. unfold testProxyHealth.
  destruct probe as [status|]; [destruct (status =? 200)|]; simpl.
  - unfold markProxySuccess. rewrite Hr. simpl.
    eexists. split; [reflexivity|]. split; [done|].
    apply proxyView_intro; simpl; [set_solver..|].
    unfold statsOf. simpl. by rewrite !lookup_insert_ne.
  - unfold markProxyFailure. rewrite Hr.
    destruct (js_ge _ _); simpl; (eexists; split; [reflexivity|]); (split; [done|]);
      (apply proxyView_intro; simpl; [set_solver..|]);
      unfold statsOf; simpl; by rewrite !lookup_insert_ne.
  - unfold markProxyFailure. rewrite Hr.
    destruct (js_ge _ _); simpl; (eexists; split; [reflexivity|]); (split; [done|]);
      (apply proxyView_intro; simpl; [set_solver..|]);
      unfold statsOf; simpl; by rewrite !lookup_insert_ne.
Qed.

Lemma healthChecks_frame S probe now l : ∀ m r p,
  redisClient m = Some r → p ∉ l →
  ∃ r', redisClient (foldl (λ m proxy, (testProxyHealth S proxy (probe proxy) now m).2) m l)
          = Some r' ∧
        PROXIES r' = PROXIES r ∧ proxyView r' p = proxyView r p.
Proof.
  induction l as [|q l IH]; intros m r p Hr Hp; simpl.
  - by exists r.
  - apply not_elem_of_cons in Hp as [Hpq Hp].
    destruct (testProxyHealth_frame S q (probe q) now m r p Hr Hpq) as (r1 & Hr1 & HP1 & Hv1).
    destruct (IH _ r1 p Hr1 Hp) as (r' & Hr' & HP' & Hv').
    exists r'. split; [done|]. split; congruence.
Qed.

(** What a passed health test establishes for the proxy. *)
Lemma testProxyHealth_passed S p now m r :
  redisClient m = Some r →
  ∃ r', redisClient (testProxyHealth S p (Some 200) now m).2 = Some r' ∧
    proxyView r' p =
      (true, false, false,
       {| requests := requests (statsOf r p);
          successes := successes (statsOf r p) + 2;
          failures := failures (statsOf r p);
          consecutiveFailures := 0;
          lastUsed := Some now; lastSuccess := Some now;
          lastFailure := lastFailure (statsOf r p) |}).
Proof.
  intros Hr. unfold testProxyHealth, markProxySuccess. rewrite Hr. simpl.
  eexists. split; [reflexivity|]. unfold proxyView. simpl.
  rewrite bool_decide_eq_true_2 by set_solver.
  rewrite !bool_decide_eq_false_2 by set_solver.
  unfold updateProxyStats, statsOf. simpl. rewrite !lookup_insert_eq. simpl.
  do 2 f_equal; lia.
Qed.

(** What a failed health test does to the proxy. *)
Lemma testProxyHealth_failed S p probe now m r :
  redisClient m = Some r → probe ≠ Some 200 →
  ∃ r', redisClient (testProxyHealth S p probe now m).2 = Some r' ∧
    let cf := consecutiveFailures (statsOf r p) + 1 in
    proxyView r' p =
      (if js_ge cf (MAX_CONSECUTIVE_FAILURES S) then false
       else bool_decide (p ∈ HEALTHY_PROXIES r),
       if js_ge cf (MAX_CONSECUTIVE_FAILURES S) then true
       else bool_decide (p ∈ UNHEALTHY_PROXIES r),
       bool_decide (p ∈ RATE_LIMITED r),
       {| requests := requests (statsOf r p);
          successes := successes (statsOf r p);
          failures := failures (statsOf r p) + 1;
          consecutiveFailures := cf;
          lastUsed := Some now; lastSuccess := lastSuccess (statsOf r p);
          lastFailure := Some now |}).
Proof.
  intros Hr Hprobe.
  assert (Hfail : ∃ reason, (testProxyHealth S p probe now m).2
                            = markProxyFailure S p reason now m).
  { unfold testProxyHealth. destruct probe as [status|]; [|by exists "request failed"].
    destruct (status =? 200) eqn:E; [|by exists ("HTTP " ++ pretty status)].
    apply Z.eqb_eq in E. by subst. }
  destruct Hfail as [reason ->].
  unfold markProxyFailure. rewrite Hr.
  destruct (js_ge _ _); simpl; (eexists; split; [reflexivity|]);
    unfold proxyView; simpl; unfold statsOf; simpl; rewrite !lookup_insert_eq; simpl.
  - rewrite bool_decide_eq_false_2 by set_solver.
    rewrite bool_decide_eq_true_2 by set_solver. done.
  - done.
Qed.

(** X4: a health check touches the registered proxies and no other.  A
    registered proxy whose probe returns status 200 is healthy and in no
    other status set afterwards, its failure streak is reset and two
    successes are counted for it; a registered proxy whose probe fails
    has one more consecutive failure, is never promoted to healthy, keeps
    its rate-limit mark, and is unhealthy and out of the healthy set when
    the streak reaches the threshold. *)
Theorem performHealthCheck_effect (S : Settings) (probe : string → option Z)
    (now : Z) (m : ProxyManager.t) (r : Redis) :
  redisClient m = Some r →
  ∃ r', redisClient (performHealthCheck S probe now m) = Some r' ∧
    PROXIES r' = PROXIES r ∧
    ∀ p,
      (p ∈ PROXIES r → probe p = Some 200 →
         p ∈ HEALTHY_PROXIES r' ∧ (p ∉ UNHEALTHY_PROXIES r') ∧ (p ∉ RATE_LIMITED r') ∧
         consecutiveFailures (statsOf r' p) = 0 ∧
         successes (statsOf r' p) = successes (statsOf r p) + 2) ∧
      (p ∈ PROXIES r → probe p ≠ Some 200 →
         consecutiveFailures (statsOf r' p) = consecutiveFailures (statsOf r p) + 1 ∧
         (p ∈ HEALTHY_PROXIES r' → p ∈ HEALTHY_PROXIES r) ∧
         (p ∈ RATE_LIMITED r' ↔ p ∈ RATE_LIMITED r) ∧
         (js_ge (consecutiveFailures (statsOf r p) + 1) (MAX_CONSECUTIVE_FAILURES S) = true →
            p ∈ UNHEALTHY_PROXIES r' ∧ p ∉ HEALTHY_PROXIES r')) ∧
      (p ∉ PROXIES r → proxyView r' p = proxyView r p).
Proof.
  intros Hr. unfold performHealthCheck. rewrite Hr.
  destruct (length (elements (PROXIES r)) =? 0)%nat eqn:Hlen.
  { apply Nat.eqb_eq, length_zero_iff_nil in Hlen.
    apply elements_empty_inv in Hlen. apply leibniz_equiv in Hlen.
    exists r. split; [done|]. split; [done|]. intros p. rewrite Hlen.
    split_and!; set_solver. }
  clear Hlen.
  assert (Hgen : ∀ l, NoDup l → ∀ m r, redisClient m = Some r →
    ∃ r', redisClient (foldl (λ m proxy, (testProxyHealth S proxy (probe proxy) now m).2) m l)
            = Some r' ∧
      PROXIES r' = PROXIES r ∧
      ∀ p, p ∈ l →
        ∃ m1 r1 r2, redisClient m1 = Some r1 ∧ proxyView r1 p = proxyView r p ∧
                    redisClient (testProxyHealth S p (probe p) now m1).2 = Some r2 ∧
                    proxyView r' p = proxyView r2 p).
  { clear. induction 1 as [|q l Hq Hnd IH]; intros m r Hr; simpl.
    { exists r. split; [done|]. split; [done|]. intros p Hp. by apply elem_of_nil in Hp. }
    destruct (testProxyHealth_connected S q (probe q) now m r Hr) as (r1 & Hr1 & HP1).
    destruct (IH _ r1 Hr1) as (r' & Hr' & HP' & Hall).
    exists r'. split; [done|]. split; [congruence|].
    intros p [->|Hp]%elem_of_cons.
    - exists m, r, r1. split_and!; [done..|].
      destruct (healthChecks_frame S probe now l _ r1 q Hr1 Hq) as (r'' & Hr'' & _ & Hv).
      congruence.
    - destruct (Hall p Hp) as (ma & ra & rb & Ha & Hva & Hab & Hvb).
      exists ma, ra, rb. split_and!; [done| |done..].
      rewrite Hva. assert (p ≠ q) by (intros ->; done).
      destruct (testProxyHealth_frame S q (probe q) now m r p Hr) as (r1' & Hr1' & _ & Hv);
        [done|]. congruence. }
  destruct (Hgen _ (NoDup_elements (PROXIES r)) m r Hr) as (r' & Hr' & HP' & Hall).
  exists r'. split; [done|]. split; [done|]. intros p. split_and!.
  - intros Hp Hprobe.
    destruct (Hall p) as (m1 & r1 & r2 & H1 & Hv1 & H12 & Hv2); [by apply elem_of_elements|].
    rewrite Hprobe in H12.
    destruct (testProxyHealth_passed S p now m1 r1 H1) as (r2' & H12' & Hv).
    rewrite H12 in H12'. injection H12' as <-.
    rewrite Hv in Hv2. apply proxyView_eq in Hv1 as (_ & _ & _ & Hs).
    unfold proxyView in Hv2. injection Hv2 as Hh Hu Hl Hst.
    apply bool_decide_eq_true_1 in Hh. apply bool_decide_eq_false_1 in Hu, Hl.
    rewrite Hst, Hs. done.
  - intros Hp Hprobe.
    destruct (Hall p) as (m1 & r1 & r2 & H1 & Hv1 & H12 & Hv2); [by apply elem_of_elements|].
    destruct (testProxyHealth_failed S p (probe p) now m1 r1 H1 Hprobe)
      as (r2' & H12' & Hv).
    rewrite H12 in H12'. injection H12' as <-.
    simpl in Hv. rewrite Hv in Hv2.
    apply proxyView_eq in Hv1 as (Hh1 & Hu1 & Hl1 & Hs).
    unfold proxyView in Hv2. injection Hv2 as Hh Hu Hl Hst.
    rewrite Hs in *. rewrite Hst. simpl. split; [done|].
    apply bool_decide_eq_iff in Hl.
    destruct (js_ge _ _).
    + apply bool_decide_eq_false_1 in Hh. apply bool_decide_eq_true_1 in Hu.
      split_and!; [done|by rewrite Hl|done].
    + apply bool_decide_eq_iff in Hh.
      split_and!; [by rewrite Hh, Hh1|by rewrite Hl|done].
  - intros Hp.
    destruct (healthChecks_frame S probe now (elements (PROXIES r)) m r p Hr) as (r'' & Hr'' & _ & Hv).
    { by rewrite elem_of_elements. }
    congruence.
Qed.

Lemma performHealthCheck_effect_witness :
  let p := "http://10.0.0.1:8080" in
  let q := "socks5://10.0.0.2:1080" in
  let S := sampleSettings (Some 1) in
  let m := markProxyRateLimited p 60000 (freshPool [p; q]) in
  let probe := λ x, if String.eqb x p then Some 200 else Some 503 in
  ∃ r', redisClient (performHealthCheck S probe 1000 m) = Some r' ∧
    p ∈ HEALTHY_PROXIES r' ∧ q ∈ UNHEALTHY_PROXIES r' ∧ q ∉ HEALTHY_PROXIES r'.
Proof.
  intros p q S m probe.
  destruct (performHealthCheck_effect S probe 1000 m
              (default emptyRedis (redisClient m)) eq_refl) as (r' & Hr' & _ & H).
  exists r'. split; [done|].
  destruct (H p) as (Hp & _ & _). destruct (H q) as (_ & Hq & _).
  split.
  - apply Hp; [by vm_compute|done].
  - apply Hq; [by vm_compute|done|done].
Defined.

(** Resetting *)

Lemma fold_delete_lookup {A} (l : list string) (st : gmap string A) (p : string) :
  foldl (λ st proxy, delete proxy st) st l !! p = if bool_decide (p ∈ l) then None else st !! p.
Proof.
  revert st. induction l as [|q l IH]; intros st; simpl.
  - done.
  - rewrite IH. destruct (decide (p = q)) as [->|Hne].
    + rewrite lookup_delete_eq. rewrite (bool_decide_eq_true_2 (q ∈ q :: l)) by set_solver.
      by destruct (bool_decide _).
    + rewrite lookup_delete_ne by done.
      by rewrite (bool_decide_ext (p ∈ l) (p ∈ q :: l)) by set_solver.
Qed.

(** X5: [resetStats] puts the whole registered pool back into rotation:
    afterwards every registered proxy is healthy and in no other status
    set and its statistics read as never used, no proxy at all is marked
    unhealthy or rate limited, the registered set and the pending
    cooldown timers are as before, and an unregistered proxy keeps its
    statistics and its place in the healthy set. *)
Theorem resetStats_all_healthy (m : ProxyManager.t) (r : Redis) :
  redisClient m = Some r →
  let m' := resetStats m in
  statusInv m' ∧ timers m' = timers m ∧
  ∀ p,
    (registered m' p ↔ registered m p) ∧
    ¬ unhealthy m' p ∧ ¬ rateLimited m' p ∧
    (registered m p →
       healthy m' p ∧ ∀ r', redisClient m' = Some r' → statsOf r' p = noStats) ∧
    (¬ registered m p →
       (healthy m' p ↔ healthy m p) ∧
       ∀ r', redisClient m' = Some r' → statsOf r' p = statsOf r p).
Proof.
  intros Hr m'. unfold m', resetStats. rewrite Hr.
  split; [|split; [done|]].
  - intros r' [= <-]. simpl. set_solver.
  - intros p. unfold registered, healthy, unhealthy, rateLimited. rewrite Hr. simpl.
    split_and!.
    + naive_solver.
    + intros (? & [= <-] & Hp). simpl in Hp. set_solver.
    + intros (? & [= <-] & Hp). simpl in Hp. set_solver.
    + intros (? & [= <-] & Hp). split.
      * eexists. split; [reflexivity|]. simpl. set_solver.
      * intros r' [= <-]. unfold statsOf. simpl. rewrite fold_delete_lookup.
        rewrite bool_decide_eq_true_2; [done|]. by apply elem_of_elements.
    + intros Hnot. assert (Hp : p ∉ PROXIES r) by (intros ?; apply Hnot; eauto).
      split.
      * split; intros (? & [= <-] & Hin); (eexists; split; [reflexivity|]);
          simpl in *; set_solver.
      * intros r' [= <-]. unfold statsOf. simpl. rewrite fold_delete_lookup.
        rewrite bool_decide_eq_false_2; [done|]. by rewrite elem_of_elements.
Qed.

Lemma resetStats_all_healthy_witness :
  let p := "http://10.0.0.1:8080" in
  let m := run (sampleSettings (Some 1))
             [ReportFailure p "timeout" 1000; ReportRateLimited p 60000] (freshPool [p]) in
  unhealthy m p ∧ rateLimited m p ∧ healthy (resetStats m) p ∧ ¬ unhealthy (resetStats m) p.
Proof.
  intros p m.
  destruct (resetStats_all_healthy m (default emptyRedis (redisClient m)) eq_refl)
    as (_ & _ & H).
  destruct (H p) as (_ & Hu & _ & Hreg & _).
  split_and!.
  - eexists. split; [reflexivity|]. by vm_compute.
  - eexists. split; [reflexivity|]. by vm_compute.
  - apply Hreg. eexists. split; [reflexivity|]. by vm_compute.
  - exact Hu.
Defined.

(** X6: [removeProxies] takes the proxies out of the registered set and
    out of every status set, leaves every other proxy where it was, and
    [getRandomProxy] called next does not return a removed proxy. *)
Theorem removeProxies_out_of_rotation (proxies : list string) (m : ProxyManager.t)
    (rand : Q) (now : Z) :
  let m' := removeProxies proxies m in
  (∀ p, p ∈ proxies →
     ¬ registered m' p ∧ ¬ healthy m' p ∧ ¬ unhealthy m' p ∧ ¬ rateLimited m' p) ∧
  (∀ p, p ∉ proxies →
     (registered m' p ↔ registered m p) ∧ (healthy m' p ↔ healthy m p) ∧
     (unhealthy m' p ↔ unhealthy m p) ∧ (rateLimited m' p ↔ rateLimited m p)) ∧
  (∀ p, (getRandomProxy rand now m').1 = Some p → (p ∉ proxies) ∧ healthy m p).
Proof.
  intros m'. unfold m', removeProxies, registered, healthy, unhealthy, rateLimited.
  destruct (redisClient m) as [r|] eqn:Hr.
  - split_and!.
    + intros p Hp. simpl.
      split_and!; intros (? & [= <-] & Hin); simpl in Hin; set_solver.
    + intros p Hp. simpl.
      split_and!; (split; intros (? & [= <-] & Hin); (eexists; split; [reflexivity|]);
        simpl in *; set_solver).
    + intros p. unfold getRandomProxy. simpl.
      destruct (length _ =? 0)%nat; [done|].
      destruct (elements _ !! _) as [q|] eqn:Hq; [|done].
      simpl. intros [= <-].
      apply list_elem_of_lookup_2, elem_of_elements in Hq.
      split; [set_solver|]. exists r. split; [done|]. set_solver.
  - rewrite Hr. split_and!.
    + intros p _. split_and!; intros (? & [=] & _).
    + done.
    + intros p. unfold getRandomProxy. by rewrite Hr.
Qed.

(** X7: [initialize] with a reachable store registers exactly the valid
    entries of the configured proxy list on top of what the store holds,
    marks each of them healthy, and starts the health checks; a second
    call changes nothing. *)
Theorem initialize_registers_valid (S : Settings) (valid : string → bool)
    (r : Redis) :
  let m' := (initialize S valid (Some r) new).2 in
  isInitialized m' = true ∧ healthCheckInterval m' = true ∧
  (∀ p, registered m' p ↔ p ∈ PROXIES r ∨ (p ∈ PROXY_LIST S ∧ valid p = true)) ∧
  (∀ p, p ∈ PROXY_LIST S → valid p = true → healthy m' p) ∧
  (∀ connect, initialize S valid connect m' = (Ok (), m')).
Proof.
  intros m'. unfold m', initialize, loadInitialProxies. simpl.
  destruct (length (filter _ (PROXY_LIST S)) =? 0)%nat eqn:Hlen.
  - apply Nat.eqb_eq, length_zero_iff_nil in Hlen. simpl.
    assert (Hnone : ∀ p, p ∈ PROXY_LIST S → valid p = true → False).
    { intros p Hp Hv.
      assert (p ∈ filter (λ p, valid p = true) (PROXY_LIST S)) as Hin
        by (apply list_elem_of_filter; done).
      rewrite Hlen in Hin. by apply elem_of_nil in Hin. }
    split_and!; try done.
    + intros p. unfold registered. simpl. split.
      * intros (? & [= <-] & ?). by left.
      * intros [?|[? ?]]; [by eauto|]. exfalso. eauto.
    + intros p Hp Hv. exfalso. eauto.
  - simpl. split_and!; try done.
    + intros p. unfold registered. simpl. split.
      * intros (? & [= <-] & Hin). simpl in Hin.
        apply elem_of_union in Hin as [?|Hin]; [by left|right].
        apply elem_of_list_to_set, list_elem_of_filter in Hin as [? ?]. done.
      * intros H. eexists. split; [reflexivity|]. simpl.
        destruct H as [?|[? ?]]; [set_solver|].
        apply elem_of_union_r, elem_of_list_to_set, list_elem_of_filter. done.
    + intros p Hp Hv. eexists. split; [reflexivity|]. simpl.
      apply elem_of_union_r, elem_of_list_to_set, list_elem_of_filter. done.
Qed.

End ProxyHealth.

Section RateLimiterStats.
Import RateLimiter.
Variable S : Settings.
Variable D : Defaults.
Variable RATE_LIMITS : gmap string RateConfig.
Variable DEFAULT : RateConfig.

Local Abbreviation wait := (waitForSlot S D RATE_LIMITS DEFAULT).

(** One call of [waitForSlot] on an object whose limiters all have
    statistics. *)
Lemma waitForSlot_step rand endpoint now waited l :
  statsCoverLimiters l →
  let l' := (wait rand endpoint now waited l).2 in
  statsCoverLimiters l' ∧
  totalRequests (stats l') = totalRequests (stats l) + 1 ∧
  match waited with
  | None =>
      (wait rand endpoint now waited l).1 = Throw "This limiter has been stopped" ∧
      throttledRequests (stats l') = throttledRequests (stats l) ∧
      averageWaitTime (stats l') = averageWaitTime (stats l)
  | Some waitTime =>
      (wait rand endpoint now waited l).1 = Ok () ∧
      if 100 <? waitTime then
        throttledRequests (stats l') = throttledRequests (stats l) + 1 ∧
        averageWaitTime (stats l') =
          ((averageWaitTime (stats l) * inject_Z (throttledRequests (stats l) + 1 - 1)
            + inject_Z waitTime) / inject_Z (throttledRequests (stats l) + 1))%Q
      else
        throttledRequests (stats l') = throttledRequests (stats l) ∧
        averageWaitTime (stats l') = averageWaitTime (stats l)
  end.
Proof.
  intros Hcov. unfold waitForSlot, limiterForEndpoint.
  destruct (limiters l !! endpoint) as [b|] eqn:Hb.
  - destruct (Hcov endpoint) as [es Hes]; [by eexists|].
    simpl. rewrite Hes.
    assert (Hcov' : ∀ es' st,
      endpointStats st = <[endpoint := es']> (endpointStats (stats l)) →
      statsCoverLimiters {| limiters := limiters l; stats := st |}).
    { intros es' st Hst e He. simpl in *. rewrite Hst.
      destruct (decide (e = endpoint)) as [->|Hne].
      - rewrite lookup_insert_eq. by eexists.
      - rewrite lookup_insert_ne by done. by apply Hcov. }
    destruct waited as [waitTime|]; simpl.
    + destruct (100 <? waitTime) eqn:Hw; simpl.
      * unfold updateEndpointAverageWaitTime, updateAverageWaitTime. simpl.
        rewrite lookup_insert_eq. simpl.
        destruct (0 <? throttled es + 1); simpl.
        -- split; [|done]. eapply Hcov'. simpl. by rewrite !insert_insert_eq.
        -- split; [|done]. eapply Hcov'. simpl. by rewrite !insert_insert_eq.
      * split; [|done]. eapply Hcov'. done.
    + split; [|done]. eapply Hcov'. done.
  - simpl. rewrite lookup_insert_eq.
    assert (Hcov' : ∀ es' st,
      endpointStats st = <[endpoint := es']> (endpointStats (stats l)) →
      statsCoverLimiters
        {| limiters := <[endpoint := getLimiterForEndpoint S D RATE_LIMITS DEFAULT rand endpoint]>
                         (limiters l);
           stats := st |}).
    { intros es' st Hst e He. simpl in *. rewrite Hst.
      destruct (decide (e = endpoint)) as [->|Hne].
      - rewrite lookup_insert_eq. by eexists.
      - rewrite lookup_insert_ne by done. rewrite lookup_insert_ne in He by done.
        by apply Hcov. }
    destruct waited as [waitTime|]; simpl.
    + destruct (100 <? waitTime) eqn:Hw; simpl.
      * unfold updateEndpointAverageWaitTime, updateAverageWaitTime. simpl.
        rewrite lookup_insert_eq. simpl.
        split; [|done]. eapply Hcov'. simpl. by rewrite !insert_insert_eq.
      * split; [|done]. eapply Hcov'. simpl. by rewrite !insert_insert_eq.
    + split; [|done]. eapply Hcov'. simpl. by rewrite !insert_insert_eq.
Qed.

Lemma statsCoverLimiters_step l o :
  statsCoverLimiters l → statsCoverLimiters (limiterStep S D RATE_LIMITS DEFAULT l o).
Proof.
  intros Hcov. destruct o as [rand endpoint now waited| |]; simpl.
  - by apply (waitForSlot_step rand endpoint now waited l).
  - intros e He. simpl in *. rewrite lookup_fmap. destruct He as [b ->]. by eexists.
  - intros e [b He]. simpl in He. by rewrite lookup_empty in He.
Qed.

Lemma statsCoverLimiters_run ops : ∀ l,
  statsCoverLimiters l → statsCoverLimiters (limiterRun S D RATE_LIMITS DEFAULT ops l).
Proof.
  unfold limiterRun. induction ops as [|o ops IH]; intros l Hl; simpl; [done|].
  by apply IH, statsCoverLimiters_step.
Qed.

(** X8: the statistics bookkeeping never makes [waitForSlot] fail: in
    every state reached from a new rate limiter by [waitForSlot],
    [resetStats] and [cleanup], a call of [waitForSlot] returns normally
    exactly when the limiter schedules the job, and it counts the
    request in either case. *)
Theorem waitForSlot_fails_only_when_rejected (ops : list LimiterOp)
    (rand : Q) (endpoint : string) (now : Z) (waited : option Z) :
  let l := limiterRun S D RATE_LIMITS DEFAULT ops new in
  let result := wait rand endpoint now waited l in
  (result.1 = Ok () ↔ waited ≠ None) ∧
  totalRequests (stats result.2) = totalRequests (stats l) + 1.
Proof.
  intros l result.
  assert (Hcov : statsCoverLimiters l).
  { apply statsCoverLimiters_run. intros e [b He]. simpl in He.
    by rewrite lookup_empty in He. }
  destruct (waitForSlot_step rand endpoint now waited l Hcov) as (_ & Htot & Hres).
  split; [|done]. unfold result.
  destruct waited as [w|].
  - destruct Hres as [-> _]. done.
  - destruct Hres as [-> _]. split; done.
Qed.

(** The running average. *)
Lemma average_step (avg : Q) (k sum w : Z) :
  0 ≤ k →
  (avg * inject_Z k == inject_Z sum)%Q →
  ((avg * inject_Z (k + 1 - 1) + inject_Z w) / inject_Z (k + 1) * inject_Z (k + 1)
   == inject_Z (w + sum))%Q.
Proof.
  intros Hk Havg.
  rewrite Qmult_comm, Qmult_div_r.
  - replace (k + 1 - 1) with k by lia. rewrite Havg.
    rewrite <- inject_Z_plus. by rewrite Z.add_comm.
  - change 0%Q with (inject_Z 0). rewrite inject_Z_injective. lia.
Qed.

Lemma foldr_add_shift (w sum : Z) (xs : list Z) :
  foldr Z.add (w + sum) xs = w + foldr Z.add sum xs.
Proof. induction xs as [|x xs IH]; simpl; [done|]. rewrite IH. lia. Qed.

Lemma waits_run ops : ∀ l (sum : Z),
  Forall isWait ops →
  statsCoverLimiters l →
  0 ≤ throttledRequests (stats l) →
  (averageWaitTime (stats l) * inject_Z (throttledRequests (stats l)) == inject_Z sum)%Q →
  let l' := limiterRun S D RATE_LIMITS DEFAULT ops l in
  totalRequests (stats l') = totalRequests (stats l) + Z.of_nat (length ops) ∧
  throttledRequests (stats l')
    = throttledRequests (stats l) + Z.of_nat (length (throttledWaits ops)) ∧
  (averageWaitTime (stats l') * inject_Z (throttledRequests (stats l'))
   == inject_Z (foldr Z.add sum (throttledWaits ops)))%Q.
Proof.
  unfold limiterRun.
  induction ops as [|o ops IH]; intros l sum Hops Hcov Hk Havg.
  - simpl. split_and!; [lia|lia|done].
  - apply Forall_cons in Hops as [Ho Hops].
    destruct o as [rand endpoint now waited| |]; [|done..].
    cbn [foldl limiterStep].
    destruct (waitForSlot_step rand endpoint now waited l Hcov) as (Hcov' & Htot & Hres).
    set (l1 := (wait rand endpoint now waited l).2) in *.
    destruct waited as [w|]; [destruct (100 <? w) eqn:Hw|].
    + destruct Hres as (_ & Hthr & Havg').
      destruct (IH l1 (w + sum) Hops Hcov') as (H1 & H2 & H3).
      { lia. }
      { rewrite Havg', Hthr. by apply average_step. }
      cbn [throttledWaits]. rewrite Hw. cbn [length foldr].
      split_and!; [lia|lia|].
      rewrite H3. by rewrite foldr_add_shift.
    + destruct Hres as (_ & Hthr & Havg').
      destruct (IH l1 sum Hops Hcov') as (H1 & H2 & H3).
      { lia. }
      { by rewrite Havg', Hthr. }
      cbn [throttledWaits]. rewrite Hw. cbn [length].
      split_and!; [lia|lia|done].
    + destruct Hres as (_ & Hthr & Havg').
      destruct (IH l1 sum Hops Hcov') as (H1 & H2 & H3).
      { lia. }
      { by rewrite Havg', Hthr. }
      cbn [throttledWaits length].
      split_and!; [lia|lia|done].
Qed.

(** X9: after any sequence of [waitForSlot] calls on a new rate limiter,
    [totalRequests] is the number of calls, [throttledRequests] the
    number of calls that waited more than 100 ms, and [averageWaitTime]
    the mean of those waits (in exact arithmetic): the average times the
    count is their sum. *)
Theorem averageWaitTime_is_mean (ops : list LimiterOp) :
  Forall isWait ops →
  let l := limiterRun S D RATE_LIMITS DEFAULT ops new in
  totalRequests (stats l) = Z.of_nat (length ops) ∧
  throttledRequests (stats l) = Z.of_nat (length (throttledWaits ops)) ∧
  (averageWaitTime (stats l) * inject_Z (throttledRequests (stats l))
   == inject_Z (foldr Z.add 0%Z (throttledWaits ops)))%Q.
Proof.
  intros Hops.
  apply (waits_run ops new 0%Z Hops).
  - intros e [b He]. simpl in He. by rewrite lookup_empty in He.
  - done.
  - done.
Qed.

End RateLimiterStats.

Lemma averageWaitTime_is_mean_witness :
  let ops := [OpWaitForSlot (1 # 2) "app.bsky.graph.getFollowers" 1000 (Some 300);
              OpWaitForSlot (1 # 2) "app.bsky.graph.getFollows" 1400 (Some 20);
              OpWaitForSlot (1 # 2) "app.bsky.graph.getFollowers" 1500 (Some 500)] in
  let l := limiterRun (sampleSettings None) sampleDefaults ∅ sampleRateConfig
             ops RateLimiter.new in
  Forall isWait ops ∧
  RateLimiter.totalRequests (RateLimiter.stats l) = Z.of_nat (length ops) ∧
  RateLimiter.throttledRequests (RateLimiter.stats l)
    = Z.of_nat (length (throttledWaits ops)) ∧
  (RateLimiter.averageWaitTime (RateLimiter.stats l)
     * inject_Z (RateLimiter.throttledRequests (RateLimiter.stats l))
   == inject_Z (foldr Z.add 0%Z (throttledWaits ops)))%Q.
Proof.
  intros ops l.
  assert (Hops : Forall isWait ops) by (repeat constructor).
  split; [exact Hops|].
  exact (averageWaitTime_is_mean (sampleSettings None) sampleDefaults ∅ sampleRateConfig
           ops Hops).
Defined.

Section Client.
Import APIClient.
Variable S : Settings.
Variable valid : string → bool.
Variable D : RateLimiter.Defaults.
Variable RATE_LIMITS : gmap string RateLimiter.RateConfig.
Variable DEFAULT : RateLimiter.RateConfig.
Variable rotationEnabled : bool.

Lemma executeRequest_counts rand now o c :
  sameRequestCounts c (executeRequest S rotationEnabled rand now o c).2.
Proof.
  unfold executeRequest.
  destruct (if rotationEnabled && ProxyManager.hasProxies (proxyManager c)
            then ProxyManager.getRandomProxy rand now (proxyManager c)
            else (None, proxyManager c)) as [selected pm1].
  destruct (truthy selected) as [p|]; destruct o as [status|]; simpl;
    repeat (match goal with |- context [if ?b then _ else _] => destruct b end; simpl);
    done.
Qed.

Lemma executeRequest_returns rand now o c :
  match (executeRequest S rotationEnabled rand now o c).1 with
  | Returned status => status = 200 ∧ is200 o = true
  | Raised _ => is200 o = false
  end.
Proof.
  unfold executeRequest.
  destruct (if rotationEnabled && ProxyManager.hasProxies (proxyManager c)
            then ProxyManager.getRandomProxy rand now (proxyManager c)
            else (None, proxyManager c)) as [selected pm1].
  destruct o as [s|]; [|by destruct (truthy selected)].
  destruct (500 <=? s) eqn:H500; [apply Z.leb_le in H500|apply Z.leb_gt in H500].
  { destruct (truthy selected); simpl; apply Z.eqb_neq; lia. }
  destruct (s =? 200) eqn:H200.
  { apply Z.eqb_eq in H200 as ->. by destruct (truthy selected). }
  destruct (s =? 429); [|destruct ((400 <=? s) && (s <? 500))];
    destruct (truthy selected); simpl; done.
Qed.

Lemma pRetry_counts attempt retries : ∀ k c,
  (∀ i c, sameRequestCounts c (attempt i c).2) →
  sameRequestCounts c (pRetry attempt retries k c).2.
Proof.
  induction retries as [|n IH]; intros k c Hat; simpl.
  - specialize (Hat k c). by destruct (attempt k c) as [[?|?] ?].
  - pose proof (Hat k c) as H1. destruct (attempt k c) as [[?|?] c1]; [done|].
    specialize (IH (Datatypes.S k) c1 Hat). simpl in H1.
    unfold sameRequestCounts in *. destruct H1 as (<- & <- & <- & <-). done.
Qed.

Lemma pRetry_returns attempt (good : nat → bool) retries : ∀ k c,
  (∀ i c, match (attempt i c).1 with
          | Returned status => status = 200 ∧ good i = true
          | Raised _ => good i = false
          end) →
  match (pRetry attempt retries k c).1 with
  | Returned status =>
      status = 200 ∧
      ∃ i, (k ≤ i ≤ k + retries)%nat ∧ good i = true ∧
           ∀ j, (k ≤ j < i)%nat → good j = false
  | Raised _ => ∀ i, (k ≤ i ≤ k + retries)%nat → good i = false
  end.
Proof.
  induction retries as [|n IH]; intros k c Hat; simpl.
  - specialize (Hat k c). destruct (attempt k c) as [[s|e] c1]; simpl in *.
    + destruct Hat as [-> Hg]. split; [done|]. exists k. split_and!; [lia|lia|done|lia].
    + intros i Hi. by assert (i = k) as -> by lia.
  - pose proof (Hat k c) as H1. destruct (attempt k c) as [[s|e] c1]; simpl in *.
    + destruct H1 as [-> Hg]. split; [done|]. exists k. split_and!; [lia|lia|done|lia].
    + specialize (IH (Datatypes.S k) c1 Hat).
      destruct (pRetry attempt n (Datatypes.S k) c1) as [[s|e'] c2]; simpl in *.
      * destruct IH as (-> & i & Hi & Hg & Hbefore). split; [done|].
        exists i. split_and!; [lia|lia|done|].
        intros j Hj. destruct (decide (j = k)) as [->|Hne]; [done|].
        apply Hbefore. lia.
      * intros i Hi. destruct (decide (i = k)) as [->|Hne]; [done|].
        apply IH. lia.
Qed.

(** X10: [makeRequest] returns data exactly for a response with status
    200 within the first [retries + 1] attempts, and makes no attempt
    after it; when the rate limiter rejects the call, or none of these
    attempts meets a 200 response (any other status below 400 included),
    it throws. *)
Theorem makeRequest_returns_first_200 (retries : nat) (endpoint : string)
    (env : Environment) (c : t) :
  statsCoverLimiters (rateLimiter c) →
  match (makeRequest S valid D RATE_LIMITS DEFAULT rotationEnabled retries endpoint env c).1 with
  | inr status =>
      status = 200 ∧ waited env ≠ None ∧
      ∃ i, (i ≤ retries)%nat ∧ is200 (outcome env i) = true ∧
           ∀ j, (j < i)%nat → is200 (outcome env j) = false
  | inl _ =>
      waited env = None ∨ ∀ i, (i ≤ retries)%nat → is200 (outcome env i) = false
  end.
Proof.
  intros Hcov. unfold makeRequest.
  set (c0 := if isInitialized c then c else initialize S valid (connect env) c).
  assert (Hl0 : rateLimiter c0 = rateLimiter c).
  { unfold c0, initialize. destruct (isInitialized c); [done|].
    by destruct (ProxyManager.initialize _ _ _ _). }
  destruct (waitForSlot_step S D RATE_LIMITS DEFAULT (limiterRand env) endpoint
              (limiterNow env) (waited env) (rateLimiter (incTotalRequests c0)))
    as (_ & _ & Hres).
  { simpl. by rewrite Hl0. }
  destruct (RateLimiter.waitForSlot _ _ _ _ _ _ _ _ _) as [res l] eqn:Hwait.
  simpl in Hres.
  destruct (waited env) as [w|] eqn:Hw.
  - destruct Hres as [-> _].
    pose proof (pRetry_returns
      (λ i, executeRequest S rotationEnabled (attemptRand env i) (attemptNow env i)
              (outcome env i))
      (λ i, is200 (outcome env i)) retries 0
      (set_rateLimiter l (incTotalRequests c0))
      (λ i c, executeRequest_returns _ _ _ _)) as Hretry.
    destruct (pRetry _ _ _ _) as [[s|e] c3]; simpl in *.
    + destruct Hretry as (-> & i & Hi & Hg & Hbefore). split; [done|]. split; [done|].
      exists i. split_and!; [lia|done|]. intros j Hj. apply Hbefore. lia.
    + right. intros i Hi. apply Hretry. lia.
  - destruct Hres as [-> _]. simpl. by left.
Qed.

(** One request and the three request counters. *)
Lemma makeRequest_counts (retries : nat) (endpoint : string) (env : Environment) (c : t) :
  let result := makeRequest S valid D RATE_LIMITS DEFAULT rotationEnabled retries endpoint env c in
  totalRequests (stats result.2) = totalRequests (stats c) + 1 ∧
  successfulRequests (stats result.2)
    = successfulRequests (stats c) + (if isData result.1 then 1 else 0) ∧
  failedRequests (stats result.2)
    = failedRequests (stats c) + (if isData result.1 then 0 else 1).
Proof.
  unfold makeRequest.
  set (c0 := if isInitialized c then c else initialize S valid (connect env) c).
  assert (Hs0 : stats c0 = stats c).
  { unfold c0, initialize. destruct (isInitialized c); [done|].
    by destruct (ProxyManager.initialize _ _ _ _). }
  destruct (RateLimiter.waitForSlot _ _ _ _ _ _ _ _ _) as [[[]|e] l]; simpl.
  - pose proof (pRetry_counts
      (λ i, executeRequest S rotationEnabled (attemptRand env i) (attemptNow env i)
              (outcome env i))
      retries 0 (set_rateLimiter l (incTotalRequests c0))
      (λ i c, executeRequest_counts _ _ _ _)) as (H1 & H2 & H3 & _).
    destruct (pRetry _ _ _ _) as [[s|e] c3]; simpl in *; rewrite H1, H2, H3, Hs0; lia.
  - rewrite Hs0. lia.
Qed.

(** X11: however the requests end, the client's counters add up: after
    any sequence of [makeRequest] calls on a new client, [totalRequests]
    is the number of calls, [successfulRequests] the number of calls that
    returned data and [failedRequests] the number of calls that threw. *)
Theorem makeRequest_accounting (requests : list Request) :
  let '(results, c) :=
    clientRun S valid D RATE_LIMITS DEFAULT rotationEnabled requests new in
  length results = length requests ∧
  totalRequests (stats c) = Z.of_nat (length requests) ∧
  successfulRequests (stats c) = Z.of_nat (length (filter (λ r, isData r = true) results)) ∧
  failedRequests (stats c) = Z.of_nat (length (filter (λ r, isData r = false) results)) ∧
  totalRequests (stats c) = successfulRequests (stats c) + failedRequests (stats c).
Proof.
  unfold clientRun.
  assert (Hgen : ∀ acc,
    let '(results, c) :=
      foldl (clientStep S valid D RATE_LIMITS DEFAULT rotationEnabled) acc requests in
    length results = (length acc.1 + length requests)%nat ∧
    totalRequests (stats c) = totalRequests (stats acc.2) + Z.of_nat (length requests) ∧
    successfulRequests (stats c) - successfulRequests (stats acc.2)
      = Z.of_nat (length (filter (λ r, isData r = true) results))
        - Z.of_nat (length (filter (λ r, isData r = true) acc.1)) ∧
    failedRequests (stats c) - failedRequests (stats acc.2)
      = Z.of_nat (length (filter (λ r, isData r = false) results))
        - Z.of_nat (length (filter (λ r, isData r = false) acc.1))).
  { induction requests as [|q qs IH]; intros [results c]; simpl.
    - split_and!; lia.
    - specialize (IH (clientStep S valid D RATE_LIMITS DEFAULT rotationEnabled (results, c) q)).
      destruct (foldl _ _ qs) as [results' c'].
      unfold clientStep in IH. simpl in IH.
      pose proof (makeRequest_counts (requestRetries q) (requestEndpoint q)
                    (requestEnvironment q) c) as (H1 & H2 & H3).
      destruct (makeRequest _ _ _ _ _ _ _ _ _ _) as [result c1]. simpl in *.
      destruct IH as (I0 & I1 & I2 & I3).
      rewrite length_app in I0. rewrite !filter_app, !length_app in I2, I3.
      simpl in I0.
      destruct result as [e|s]; simpl in *;
        rewrite ?filter_cons_True, ?filter_cons_False, ?filter_nil in I2, I3 by done;
        simpl in *; split_and!; lia. }
  specialize (Hgen ([], new)).
  destruct (foldl _ _ requests) as [results c]. simpl in Hgen.
  destruct Hgen as (H0 & H1 & H2 & H3).
  assert (Hpart : (length (filter (λ r, isData r = true) results)
                   + length (filter (λ r, isData r = false) results))%nat
                  = length results).
  { clear. induction results as [|[e|s] rs IH]; simpl; [done| |];
      rewrite ?filter_cons_True, ?filter_cons_False by done; simpl; lia. }
  split_and!; lia.
Qed.

End Client.

(** The proxy accounting of one attempt. *)

Lemma selected_proxy rand now pm p pm1 :
  ProxyManager.getRandomProxy rand now pm = (Some p, pm1) →
  ∃ r, ProxyManager.redisClient pm = Some r ∧
       p ∈ ProxyManager.HEALTHY_PROXIES r ∧
       pm1 = ProxyManager.withRedis pm
               (ProxyManager.updateProxyStats p ProxyManager.request None now r).
Proof.
  unfold ProxyManager.getRandomProxy.
  destruct (ProxyManager.redisClient pm) as [r|]; [|done].
  destruct (length _ =? 0)%nat; [done|].
  destruct (elements _ !! _) as [q|] eqn:Hq; [|done].
  intros [= -> <-]. exists r. split; [done|]. split; [|done].
  by apply list_elem_of_lookup_2, elem_of_elements in Hq.
Qed.

Lemma markProxyFailure_streak (S' : Settings) p reason now m r :
  ProxyManager.redisClient m = Some r →
  ∃ r', ProxyManager.redisClient (ProxyManager.markProxyFailure S' p reason now m) = Some r' ∧
    ProxyManager.consecutiveFailures (ProxyManager.statsOf r' p)
      = ProxyManager.consecutiveFailures (ProxyManager.statsOf r p) + 1 ∧
    ProxyManager.RATE_LIMITED r' = ProxyManager.RATE_LIMITED r ∧
    ProxyManager.HEALTHY_PROXIES r' ⊆ ProxyManager.HEALTHY_PROXIES r.
Proof.
  intros Hr. unfold ProxyManager.markProxyFailure. rewrite Hr.
  destruct (js_ge _ _); simpl; (eexists; split; [reflexivity|]);
    unfold ProxyManager.statsOf; simpl; rewrite !lookup_insert_eq; simpl;
    (split; [done|]); (split; [done|]); set_solver.
Qed.

(** X12: what an attempt costs the proxy it went through.  When
    [executeRequest] sends the request through proxy [p], the failure
    streak of [p] afterwards is [0] after a 200 response, unchanged after
    a client error (400 to 499 other than 429), two longer after any
    other response below 400, and one longer after a 429 response, a
    response of 500 or more, or a transport failure; after a 429 response
    [p] is rate limited and out of the healthy set. *)
Theorem executeRequest_failure_streak (S : Settings) (rotationEnabled : bool) (rand : Q) (now : Z) (o : APIClient.Outcome) (c : APIClient.t)
    (p : string) (pm1 : ProxyManager.t) (r : ProxyManager.Redis) :
  rotationEnabled = true →
  ProxyManager.hasProxies (APIClient.proxyManager c) = true →
  ProxyManager.redisClient (APIClient.proxyManager c) = Some r →
  ProxyManager.getRandomProxy rand now (APIClient.proxyManager c) = (Some p, pm1) →
  p ≠ "" →
  ∃ r', ProxyManager.redisClient
          (APIClient.proxyManager (APIClient.executeRequest S rotationEnabled rand now o c).2) = Some r' ∧
    ProxyManager.consecutiveFailures (ProxyManager.statsOf r' p)
      = streakAfter o (ProxyManager.consecutiveFailures (ProxyManager.statsOf r p)) ∧
    (o = APIClient.Responded 429 →
       p ∈ ProxyManager.RATE_LIMITED r' ∧ (p ∉ ProxyManager.HEALTHY_PROXIES r')).
Proof.
  intros -> Hhas Hr Hsel Hp.
  destruct (selected_proxy _ _ _ _ _ Hsel) as (r0 & Hr0 & Hin & ->).
  rewrite Hr in Hr0. injection Hr0 as <-.
  unfold APIClient.executeRequest. rewrite Hhas, Hsel. simpl.
  assert (Htruthy : (p =? "")%string = false) by by apply String.eqb_neq.
  rewrite Htruthy.
  set (r1 := ProxyManager.updateProxyStats p ProxyManager.request None now r).
  set (pm1 := ProxyManager.withRedis (APIClient.proxyManager c) r1).
  assert (Hr1 : ProxyManager.redisClient pm1 = Some r1) by done.
  assert (Hs1 : ProxyManager.consecutiveFailures (ProxyManager.statsOf r1 p)
                = ProxyManager.consecutiveFailures (ProxyManager.statsOf r p)).
  { unfold r1, ProxyManager.statsOf. simpl. by rewrite lookup_insert_eq. }
  destruct o as [s|]; simpl.
  - destruct (500 <=? s) eqn:H500; simpl.
    { destruct (markProxyFailure_streak S p "error" now pm1 r1 Hr1) as (r' & Hr' & Hs' & _).
      exists r'. split; [done|]. split; [lia|]. intros [= ->]. done. }
    destruct (s =? 200) eqn:H200; simpl.
    { eexists. split; [reflexivity|].
      unfold ProxyManager.statsOf; simpl; rewrite !lookup_insert_eq; simpl.
      split; [done|]. apply Z.eqb_eq in H200. intros [= ->]. done. }
    destruct (s =? 429) eqn:H429; simpl.
    { destruct (markProxyFailure_streak S p "error" now
                  (ProxyManager.markProxyRateLimited p 60000 pm1)
                  {| ProxyManager.PROXIES := ProxyManager.PROXIES r1;
                     ProxyManager.HEALTHY_PROXIES := ProxyManager.HEALTHY_PROXIES r1 ∖ {[p]};
                     ProxyManager.UNHEALTHY_PROXIES := ProxyManager.UNHEALTHY_PROXIES r1;
                     ProxyManager.RATE_LIMITED := ProxyManager.RATE_LIMITED r1 ∪ {[p]};
                     ProxyManager.STATS := ProxyManager.STATS r1 |} eq_refl)
        as (r' & Hr' & Hs' & Hrl & Hh).
      exists r'. split; [done|]. split.
      - rewrite Hs'. unfold ProxyManager.statsOf in *. simpl in *. lia.
      - intros _. rewrite Hrl. simpl. set_solver. }
    apply Z.eqb_neq in H429.
    destruct (400 <=? s) eqn:H400; simpl.
    { assert ((s <? 500) = true) as -> by (apply Z.ltb_lt; apply Z.leb_gt in H500; lia).
      simpl. exists r1. split; [done|]. split; [done|]. by intros [= ->]. }
    destruct (markProxyFailure_streak S p ("HTTP " ++ pretty s) now pm1 r1 Hr1)
      as (r2 & Hr2 & Hs2 & _).
    destruct (markProxyFailure_streak S p "error" now _ r2 Hr2) as (r' & Hr' & Hs' & _).
    exists r'. split; [done|]. split; [lia|]. by intros [= ->].
  - destruct (markProxyFailure_streak S p "error" now pm1 r1 Hr1) as (r' & Hr' & Hs' & _).
    exists r'. split; [done|]. split; [lia|]. done.
Qed.


Lemma makeRequest_returns_first_200_witness :
  let env :=
    {| APIClient.connect := None; APIClient.limiterRand := 1 # 2;
       APIClient.limiterNow := 1000; APIClient.waited := Some 0;
       APIClient.responseTime := 250;
       APIClient.attemptRand := λ _, 1 # 2; APIClient.attemptNow := λ _, 1100;
       APIClient.outcome :=
         λ i, if (i =? 0)%nat then APIClient.Responded 503 else APIClient.Responded 200 |} in
  let result :=
    APIClient.makeRequest (sampleSettings None) (λ _, true) sampleDefaults ∅
      sampleRateConfig true 3 "app.bsky.graph.getFollowers" env APIClient.new in
  statsCoverLimiters (APIClient.rateLimiter APIClient.new) ∧
  match result.1 with
  | inr status =>
      status = 200 ∧ APIClient.waited env ≠ None ∧
      ∃ i, (i ≤ 3)%nat ∧ is200 (APIClient.outcome env i) = true ∧
           ∀ j, (j < i)%nat → is200 (APIClient.outcome env j) = false
  | inl _ =>
      APIClient.waited env = None ∨
      ∀ i, (i ≤ 3)%nat → is200 (APIClient.outcome env i) = false
  end.
Proof.
  intros env result.
  assert (Hcov : statsCoverLimiters (APIClient.rateLimiter APIClient.new)).
  { intros e [b He]. simpl in He. by rewrite lookup_empty in He. }
  split; [exact Hcov|].
  exact (makeRequest_returns_first_200 (sampleSettings None) (λ _, true) sampleDefaults ∅
           sampleRateConfig true 3
           "app.bsky.graph.getFollowers" env APIClient.new Hcov).
Defined.

Lemma executeRequest_failure_streak_witness :
  let p := "http://10.0.0.1:8080" in
  let c := APIClient.set_proxyManager (freshPool [p]) APIClient.new in
  let S := sampleSettings (Some 3) in
  ∃ r', ProxyManager.redisClient
          (APIClient.proxyManager
             (APIClient.executeRequest S true (1 # 2) 1000 (APIClient.Responded 204) c).2)
        = Some r' ∧
    ProxyManager.consecutiveFailures (ProxyManager.statsOf r' p) = 2.
Proof.
  intros p c S.
  destruct (executeRequest_failure_streak S true (1 # 2) 1000 (APIClient.Responded 204) c p
              (ProxyManager.getRandomProxy (1 # 2) 1000 (APIClient.proxyManager c)).2
              (default ProxyManager.emptyRedis
                 (ProxyManager.redisClient (APIClient.proxyManager c))))
    as (r' & Hr' & Hs & _).
  - reflexivity.
  - by vm_compute.
  - reflexivity.
  - by vm_compute.
  - done.
  - exists r'. split; [exact Hr'|]. rewrite Hs. by vm_compute.
Defined.

Section DedupMore.
Import Deduplicator.
Variable hashIdentifier : string → string.
Variable indexes : nat → nat → string → list nat.
Variable optimalParams : DedupType → nat * nat.
Variable fallbackParams : nat * nat.

Local Abbreviation known := (isKnown hashIdentifier indexes).

(** A check on a ready deduplicator: the answer, and what changes. *)
Lemma isDuplicate_known ty x d :
  isInitialized d = true →
  is_Some (bloomFilters d ty) → is_Some (redisClient d) →
  ∃ d', isDuplicate hashIdentifier indexes ty x d = (Ok (known ty d x), d') ∧
    bloomFilters d' = bloomFilters d ∧ redisClient d' = redisClient d ∧
    isInitialized d' = true ∧
    checked (stats d' ty) = checked (stats d ty) + 1 ∧
    duplicates (stats d' ty)
      = duplicates (stats d ty) + (if known ty d x then 1 else 0).
Proof.
  intros Hinit [f Hf] [r Hr].
  unfold isDuplicate, isKnown, recordKey. rewrite Hinit. simpl. rewrite Hf, Hr.
  destruct (bloom_has indexes (hashIdentifier x) f); simpl.
  - destruct (redis_exists r _); simpl; eexists; (split; [reflexivity|]); simpl;
      rewrite ?decide_True by done; simpl; rewrite ?decide_True by done; simpl;
      split_and!; try done; lia.
  - eexists. split; [reflexivity|]. simpl. rewrite decide_True by done. simpl.
    split_and!; try done; lia.
Qed.

Lemma isKnown_ext ty d d' x :
  bloomFilters d' = bloomFilters d → redisClient d' = redisClient d →
  known ty d' x = known ty d x.
Proof. unfold isKnown. by intros -> ->. Qed.

Lemma checkItem_known ty item d :
  isInitialized d = true →
  is_Some (bloomFilters d ty) → is_Some (redisClient d) →
  wellShaped ty item →
  ∃ d', checkItem hashIdentifier indexes (Some ty) item d
          = (Ok (known ty d (itemIdentifier item)), d') ∧
    bloomFilters d' = bloomFilters d ∧ redisClient d' = redisClient d ∧
    isInitialized d' = true ∧
    checked (stats d' ty) = checked (stats d ty) + 1 ∧
    duplicates (stats d' ty)
      = duplicates (stats d ty) + (if known ty d (itemIdentifier item) then 1 else 0).
Proof.
  intros Hinit Hf Hr Hshape.
  destruct ty, item; simpl in Hshape; try done; simpl;
    unfold isUserDuplicate, isPostDuplicate, isFollowDuplicate;
    by apply isDuplicate_known.
Qed.

Lemma batchLoop_partitions ty items : ∀ results d0 d,
  isInitialized d = true →
  is_Some (bloomFilters d ty) → is_Some (redisClient d) →
  bloomFilters d = bloomFilters d0 → redisClient d = redisClient d0 →
  Forall (wellShaped ty) items →
  ∃ results' d',
    batchLoop hashIdentifier indexes (Some ty) items results d = (Ok results', d') ∧
    batchDuplicates results'
      = (batchDuplicates results
         ++ filter (λ i, known ty d0 (itemIdentifier i) = true) items)%list ∧
    batchNewItems results'
      = (batchNewItems results
         ++ filter (λ i, known ty d0 (itemIdentifier i) = false) items)%list ∧
    batchTotal results' = batchTotal results ∧
    duplicateCount results'
      = duplicateCount results
        + Z.of_nat (length (filter (λ i, known ty d0 (itemIdentifier i) = true) items)) ∧
    newCount results'
      = newCount results
        + Z.of_nat (length (filter (λ i, known ty d0 (itemIdentifier i) = false) items)) ∧
    bloomFilters d' = bloomFilters d0 ∧ redisClient d' = redisClient d0 ∧
    isInitialized d' = true ∧
    checked (stats d' ty) = checked (stats d ty) + Z.of_nat (length items) ∧
    duplicates (stats d' ty)
      = duplicates (stats d ty)
        + Z.of_nat (length (filter (λ i, known ty d0 (itemIdentifier i) = true) items)).
Proof.
  induction items as [|item items IH]; intros results d0 d Hinit Hf Hr Hf0 Hr0 Hshape.
  - simpl. eexists _, _. split; [reflexivity|]. rewrite !app_nil_r.
    split_and!; try done; lia.
  - apply Forall_cons in Hshape as [Hitem Hitems].
    destruct (checkItem_known ty item d Hinit Hf Hr Hitem)
      as (d1 & Hcheck & Hf1 & Hr1 & Hinit1 & Hc1 & Hd1).
    cbn [batchLoop]. rewrite Hcheck.
    rewrite (isKnown_ext ty d0 d) in Hd1 |- * by done.
    destruct (known ty d0 (itemIdentifier item)) eqn:Hk.
    + match goal with |- context [batchLoop _ _ _ items ?res d1] =>
        destruct (IH res d0 d1 Hinit1) as (results' & d' & Hloop & H1 & H2 & H3 & H4 & H5 & H6);
          [by rewrite Hf1|by rewrite Hr1|congruence|congruence|done|]
      end.
      rewrite Hloop. eexists _, _. split; [reflexivity|].
      rewrite filter_cons_True by done. rewrite filter_cons_False by (by rewrite Hk).
      simpl in *. rewrite H1, H2, <- !app_assoc. simpl.
      destruct H6 as (? & ? & ? & ? & ?). split_and!; try done; lia.
    + match goal with |- context [batchLoop _ _ _ items ?res d1] =>
        destruct (IH res d0 d1 Hinit1) as (results' & d' & Hloop & H1 & H2 & H3 & H4 & H5 & H6);
          [by rewrite Hf1|by rewrite Hr1|congruence|congruence|done|]
      end.
      rewrite Hloop. eexists _, _. split; [reflexivity|].
      rewrite filter_cons_False by (by rewrite Hk). rewrite filter_cons_True by done.
      simpl in *. rewrite H1, H2, <- !app_assoc. simpl.
      destruct H6 as (? & ? & ? & ? & ?). split_and!; try done; lia.
Qed.

(** X13: [batchCheckDuplicates] on a ready deduplicator splits the items,
    in their order, into those the deduplicator knows (filter positions
    set and record live) and the rest; the counts are the lengths of the
    two lists and add up to the total; the call reads the filters and the
    store without changing them and counts every item as checked. *)
Theorem batchCheckDuplicates_partitions (ty : DedupType) (items : list Item)
    (d : Deduplicator.t) :
  isInitialized d = true →
  is_Some (bloomFilters d ty) → is_Some (redisClient d) →
  Forall (wellShaped ty) items →
  ∃ results d',
    batchCheckDuplicates hashIdentifier indexes items (Some ty) d = (Ok results, d') ∧
    batchDuplicates results = filter (λ i, known ty d (itemIdentifier i) = true) items ∧
    batchNewItems results = filter (λ i, known ty d (itemIdentifier i) = false) items ∧
    duplicateCount results = Z.of_nat (length (batchDuplicates results)) ∧
    newCount results = Z.of_nat (length (batchNewItems results)) ∧
    batchTotal results = duplicateCount results + newCount results ∧
    bloomFilters d' = bloomFilters d ∧ redisClient d' = redisClient d ∧
    checked (stats d' ty) = checked (stats d ty) + Z.of_nat (length items) ∧
    duplicates (stats d' ty) = duplicates (stats d ty) + duplicateCount results.
Proof.
  intros Hinit Hf Hr Hshape. unfold batchCheckDuplicates.
  edestruct (batchLoop_partitions ty items) as
    (results & d' & Hloop & H1 & H2 & H3 & H4 & H5 & H6 & H7 & H8 & H9 & H10); [done..|].
  rewrite Hloop. exists results, d'. split; [done|]. simpl in *.
  rewrite H1, H2, H3, H4, H5.
  assert (Hpart : (length (filter (λ i, known ty d (itemIdentifier i) = true) items)
                   + length (filter (λ i, known ty d (itemIdentifier i) = false) items))%nat
                  = length items).
  { clear. induction items as [|i items IH]; simpl; [done|].
    destruct (known ty d (itemIdentifier i)) eqn:Hk.
    - rewrite filter_cons_True by done. rewrite filter_cons_False by (by rewrite Hk).
      simpl. lia.
    - rewrite filter_cons_False by (by rewrite Hk). rewrite filter_cons_True by done.
      simpl. lia. }
  split_and!; try done; lia.
Qed.

(** Restarts. *)

Lemma bloomKey_not_recordKey ty ty' h :
  "bloom:" +:+ typeName ty ≠ recordPrefix ty' +:+ ":" +:+ h.
Proof. by destruct ty, ty'. Qed.

Lemma initializeBloomFilter_sets r ty d :
  ∃ X, initializeBloomFilter optimalParams fallbackParams r ty d = setFilter ty (Some X) d ∧
       (redis_get r ("bloom:" +:+ typeName ty) = None → bits X = ∅).
Proof.
  unfold initializeBloomFilter.
  destruct (redis_get r _) as [[?|?]|]; destruct (optimalParams ty), fallbackParams;
    eexists; split; try reflexivity; done.
Qed.

(** X15: a restart without [close] forgets: when no filter of the
    namespace has been saved, a mark made by one deduplicator is not seen
    by a new deduplicator that initializes on the same store.  The
    record of [x] is live in the store, and the new instance, whose
    filter is created empty, answers that [x] is no duplicate. *)
Theorem restart_without_close_forgets (ty : DedupType) (x : string)
    (meta : list (string * string)) (d d1 : Deduplicator.t) (r1 : Redis) :
  (∀ size k h, indexes size k h ≠ []) →
  markProcessed hashIdentifier indexes ty x meta d = (Ok (), d1) →
  redisClient d1 = Some r1 →
  redis_get r1 ("bloom:" +:+ typeName ty) = None →
  redis_exists r1 (recordKey hashIdentifier ty x) = true ∧
  ∃ d2,
    initialize optimalParams fallbackParams (Some r1) new = (Ok (), d2) ∧
    (isDuplicate hashIdentifier indexes ty x d2).1 = Ok false.
Proof.
  intros Hidx Hmark Hr1 Hnone.
  assert (Hlive : redis_exists r1 (recordKey hashIdentifier ty x) = true).
  { unfold markProcessed in Hmark.
    destruct (isInitialized d); simpl in Hmark; [|done].
    destruct (bloomFilters d ty); [|done]. simpl in Hmark.
    destruct (redisClient d) as [r|]; [|done].
    injection Hmark as <-. simpl in Hr1. injection Hr1 as <-.
    unfold redis_exists, recordKey. simpl. rewrite lookup_insert_eq.
    unfold isLive. simpl. apply negb_true_iff, Z.ltb_ge. lia. }
  split; [done|].
  unfold initialize, initializeBloomFilters. simpl.
  destruct (initializeBloomFilter_sets r1 users (setRedis r1 new)) as (Xu & -> & Hu).
  destruct (initializeBloomFilter_sets r1 posts (setFilter users (Some Xu) (setRedis r1 new)))
    as (Xp & -> & Hp).
  destruct (initializeBloomFilter_sets r1 follows
              (setFilter posts (Some Xp) (setFilter users (Some Xu) (setRedis r1 new))))
    as (Xf & -> & Hf).
  eexists. split; [reflexivity|].
  match goal with |- (isDuplicate _ _ _ _ ?d2).1 = _ =>
    destruct (isDuplicate_known ty x d2) as (d3 & -> & _)
  end.
  { done. }
  { destruct ty; simpl; by eexists. }
  { simpl. by eexists. }
  simpl. f_equal. unfold isKnown.
  assert (Hempty : ∀ f, bits f = ∅ → bloom_has indexes (hashIdentifier x) f = false).
  { intros f Hbits. unfold bloom_has. rewrite Hbits.
    destruct (indexes (size f) (nbHashes f) (hashIdentifier x)) as [|i l] eqn:E.
    - by apply Hidx in E.
    - simpl. rewrite bool_decide_eq_false_2; [done|]. set_solver. }
  destruct ty; simpl in *; rewrite Hempty by auto; done.
Qed.

(** Restarts: the filters are never written to the store. *)

Lemma saveBloomFilters_throws d :
  isInitialized d = true →
  (∃ ty, is_Some (bloomFilters d ty)) →
  ∃ e, saveBloomFilters d = (Throw e, d).
Proof.
  intros Hinit [ty [f Hf]]. unfold saveBloomFilters. rewrite Hinit. simpl.
  unfold saveBloomFilter.
  destruct (bloomFilters d users) eqn:Hu; [by eexists|].
  destruct (bloomFilters d posts) eqn:Hp; [by eexists|].
  destruct (bloomFilters d follows) eqn:Hfo; [by eexists|].
  destruct ty; congruence.
Qed.

Lemma close_unchanged d :
  isInitialized d = true → (∃ ty, is_Some (bloomFilters d ty)) → close d = d.
Proof.
  intros Hinit Hf. unfold close. rewrite Hinit.
  by destruct (saveBloomFilters_throws d Hinit Hf) as [e ->].
Qed.

Lemma empty_filter_misses f x :
  (∀ size k h, indexes size k h ≠ []) →
  bits f = ∅ → bloom_has indexes (hashIdentifier x) f = false.
Proof.
  intros Hidx Hbits. unfold bloom_has. rewrite Hbits.
  destruct (indexes (size f) (nbHashes f) (hashIdentifier x)) as [|i l] eqn:E.
  - by apply Hidx in E.
  - simpl. rewrite bool_decide_eq_false_2; [done|]. set_solver.
Qed.

(** A new instance on the store [r]: it has a filter for every
    namespace, empty where the store holds none. *)
Lemma fresh_instance r :
  ∃ d2, initialize optimalParams fallbackParams (Some r) new = (Ok (), d2) ∧
    isInitialized d2 = true ∧ redisClient d2 = Some r ∧
    ∀ ty, ∃ f, bloomFilters d2 ty = Some f ∧
               (redis_get r ("bloom:" +:+ typeName ty) = None → bits f = ∅).
Proof.
  unfold initialize, initializeBloomFilters. simpl.
  destruct (initializeBloomFilter_sets r users (setRedis r new)) as (Xu & -> & Hu).
  destruct (initializeBloomFilter_sets r posts (setFilter users (Some Xu) (setRedis r new)))
    as (Xp & -> & Hp).
  destruct (initializeBloomFilter_sets r follows
              (setFilter posts (Some Xp) (setFilter users (Some Xu) (setRedis r new))))
    as (Xf & -> & Hf).
  eexists. split; [reflexivity|]. simpl. split_and!; [done|done|].
  intros ty. destruct ty; simpl; eexists; (split; [reflexivity|done]).
Qed.

Lemma fresh_instance_misses ty x r :
  (∀ size k h, indexes size k h ≠ []) →
  redis_get r ("bloom:" +:+ typeName ty) = None →
  ∃ d2 f, initialize optimalParams fallbackParams (Some r) new = (Ok (), d2) ∧
    redisClient d2 = Some r ∧ bloomFilters d2 ty = Some f ∧ bits f = ∅ ∧
    bloom_has indexes (hashIdentifier x) f = false ∧
    (isDuplicate hashIdentifier indexes ty x d2).1 = Ok false.
Proof.
  intros Hidx Hnone.
  destruct (fresh_instance r) as (d2 & Hinit & Hready & Hr & Hfilters).
  destruct (Hfilters ty) as (f & Hf & Hbits). specialize (Hbits Hnone).
  pose proof (empty_filter_misses f x Hidx Hbits) as Hmiss.
  exists d2, f. split_and!; try done.
  destruct (isDuplicate_known ty x d2) as (d3 & -> & _); [done|by eexists|by eexists|].
  simpl. f_equal. unfold isKnown. by rewrite Hf, Hr, Hmiss.
Qed.

(** What a mark leaves in the store stays live for the seven days. *)
Lemma marked_record_live ty x meta d d1 dt :
  markProcessed hashIdentifier indexes ty x meta d = (Ok (), d1) →
  0 ≤ dt ≤ recordTTL →
  isInitialized d1 = true ∧ is_Some (bloomFilters d1 ty) ∧
  ∃ r, redisClient d1 = Some r ∧
       redis_exists (advance dt r) (recordKey hashIdentifier ty x) = true.
Proof.
  intros Hmark Hdt.
  destruct (marked_after_mark hashIdentifier indexes _ _ _ _ _ Hmark)
    as (now & Hinit & f & r & e & Hf & _ & Hr & Hclock & He & Hexp).
  split; [done|]. split; [by eexists|]. exists r. split; [done|].
  unfold redis_exists, advance. simpl. rewrite He. unfold isLive. rewrite Hexp. simpl.
  apply negb_true_iff, Z.ltb_ge. lia.
Qed.

Lemma redis_get_advance_None r key dt :
  0 ≤ dt → redis_get r key = None → redis_get (advance dt r) key = None.
Proof.
  intros Hdt. unfold redis_get, advance. simpl.
  destruct (data r !! key) as [e|]; [|done].
  unfold isLive. destruct (expireAt e) as [w|]; [|done]. simpl.
  destruct (w <? clock r) eqn:E1; simpl; [|done].
  intros _. apply Z.ltb_lt in E1.
  destruct (w <? clock r + dt) eqn:E2; simpl; [done|]. apply Z.ltb_ge in E2. lia.
Qed.

(** X14: [close] persists nothing.  On an initialized deduplicator that
    holds a filter, [saveBloomFilters] throws at [filter.toJSON()];
    [close] catches the error and returns with the object as it was,
    still initialized, and with the store untouched.  A new deduplicator
    that initializes on that store has an empty filter for every
    namespace for which the store holds none, whatever the old filter
    held. *)
Theorem close_saves_nothing (d : Deduplicator.t) (r : Redis) :
  isInitialized d = true →
  (∃ ty, is_Some (bloomFilters d ty)) →
  redisClient d = Some r →
  (∃ e, saveBloomFilters d = (Throw e, d)) ∧
  close d = d ∧
  ∃ d2,
    initialize optimalParams fallbackParams (redisClient (close d)) new = (Ok (), d2) ∧
    ∀ ty, redis_get r ("bloom:" +:+ typeName ty) = None →
          ∃ f, bloomFilters d2 ty = Some f ∧ bits f = ∅.
Proof.
  intros Hinit Hf Hr.
  split; [by apply saveBloomFilters_throws|].
  rewrite (close_unchanged d Hinit Hf). split; [done|]. rewrite Hr.
  destruct (fresh_instance r) as (d2 & Hd2 & _ & _ & Hfilters).
  exists d2. split; [done|]. intros ty Hnone.
  destruct (Hfilters ty) as (f & Hfty & Hbits). exists f. auto.
Qed.

(** C3 on the code: a false negative before the expiry.  After a
    successful [markProcessed] of [x], a [close] of the instance (which
    saves nothing) and less than seven days, the record of [x] is live
    in the store, and a new instance that initializes on the store
    answers that [x] is no duplicate: its filter, which no instance ever
    wrote to the store, is empty, and the store is not asked. *)
Theorem C3_false_negative_after_restart (ty : DedupType) (x : string)
    (meta : list (string * string)) (d d1 : Deduplicator.t) (r1 : Redis) (dt : Z) :
  (∀ size k h, indexes size k h ≠ []) →
  markProcessed hashIdentifier indexes ty x meta d = (Ok (), d1) →
  redisClient (close d1) = Some r1 →
  redis_get r1 ("bloom:" +:+ typeName ty) = None →
  0 ≤ dt < recordTTL →
  let r2 := advance dt r1 in
  redis_exists r2 (recordKey hashIdentifier ty x) = true ∧
  ∃ d2,
    initialize optimalParams fallbackParams (Some r2) new = (Ok (), d2) ∧
    (isDuplicate hashIdentifier indexes ty x d2).1 = Ok false.
Proof.
  intros Hidx Hmark Hr1 Hnone Hdt r2.
  destruct (marked_record_live ty x meta d d1 dt Hmark) as (Hinit & Hf & r & Hr & Hlive);
    [lia|].
  rewrite (close_unchanged d1 Hinit (ex_intro _ ty Hf)) in Hr1.
  rewrite Hr in Hr1. injection Hr1 as <-.
  split; [exact Hlive|].
  destruct (fresh_instance_misses ty x r2 Hidx) as (d2 & f & Hd2 & _ & _ & _ & _ & Hdup).
  { apply redis_get_advance_None; [lia|done]. }
  by exists d2.
Qed.

(** C6 on the code: the filter of a new instance under-represents the
    store.  [clear] is no way to get there (it throws at
    [filter.clear()] and changes nothing), but a restart is: after a
    successful [markProcessed] of [x] and a [close], the record of [x] is
    live in the store, and a new instance that initializes on the store
    has a filter of the namespace without the positions of [x]. *)
Theorem C6_restart_filter_misses_record (ty : DedupType) (x : string)
    (meta : list (string * string)) (d d1 : Deduplicator.t) (r1 : Redis) :
  (∀ size k h, indexes size k h ≠ []) →
  markProcessed hashIdentifier indexes ty x meta d = (Ok (), d1) →
  redisClient (close d1) = Some r1 →
  redis_get r1 ("bloom:" +:+ typeName ty) = None →
  (∃ e, clear (Some ty) d1 = (Throw e, d1)) ∧
  ∃ d2 f,
    initialize optimalParams fallbackParams (Some r1) new = (Ok (), d2) ∧
    redisClient d2 = Some r1 ∧
    redis_exists r1 (recordKey hashIdentifier ty x) = true ∧
    bloomFilters d2 ty = Some f ∧
    bloom_has indexes (hashIdentifier x) f = false ∧
    ¬ filterCovers hashIdentifier indexes d2 ty x.
Proof.
  intros Hidx Hmark Hr1 Hnone.
  destruct (marked_record_live ty x meta d d1 0 Hmark) as (Hinit & [f1 Hf1] & r & Hr & Hlive);
    [unfold recordTTL; lia|].
  rewrite (close_unchanged d1 Hinit (ex_intro _ ty (ex_intro _ f1 Hf1))) in Hr1.
  rewrite Hr in Hr1. injection Hr1 as <-.
  assert (Hlive' : redis_exists r (recordKey hashIdentifier ty x) = true).
  { unfold redis_exists, advance in *. simpl in Hlive. by rewrite Z.add_0_r in Hlive. }
  split.
  { unfold clear. rewrite Hinit. simpl. unfold clearType. rewrite Hf1. by eexists. }
  destruct (fresh_instance_misses ty x r Hidx Hnone)
    as (d2 & f & Hd2 & Hr2 & Hf & _ & Hmiss & _).
  exists d2, f. split_and!; try done.
  intros Hcov. destruct (Hcov r Hr2 Hlive') as (f0 & Hf0 & Hhas0).
  rewrite Hf in Hf0. injection Hf0 as <-. by rewrite Hmiss in Hhas0.
Qed.

(** No false positives. *)

Lemma store_keys_run ops : ∀ d (P : string → Prop),
  (∀ r key e, redisClient d = Some r → data r !! key = Some e → P key) →
  ∀ r key e,
    redisClient (dedupRun hashIdentifier indexes ops d) = Some r →
    data r !! key = Some e →
    P key ∨ ∃ ty i meta, OpMarkProcessed ty i meta ∈ ops ∧
                         key = recordKey hashIdentifier ty i.
Proof.
  unfold dedupRun. induction ops as [|o ops IH]; intros d P HP r key e Hr He; simpl in *.
  - left. by eapply HP.
  - assert (HP' : ∀ r key e,
      redisClient (dedupStep hashIdentifier indexes d o) = Some r →
      data r !! key = Some e →
      P key ∨ ∃ ty i meta, o = OpMarkProcessed ty i meta ∧
                           key = recordKey hashIdentifier ty i).
    { clear r key e Hr He. intros r key e Hr He.
      destruct o as [ty i|ty i meta|dt]; simpl in *.
      * destruct (isDuplicate_frame hashIdentifier indexes ty i d) as [_ Hc].
        rewrite Hc in Hr. left. by eapply HP.
      * unfold markProcessed in Hr.
        destruct (isInitialized d); simpl in Hr; [|left; by eapply HP].
        destruct (bloomFilters d ty); [|left; by eapply HP]. simpl in Hr.
        destruct (redisClient d) as [r0|] eqn:E; [|simpl in Hr; congruence].
        injection Hr as <-. simpl in He.
        destruct (decide (key = recordPrefix ty +:+ ":" +:+ hashIdentifier i)) as [->|Hne].
        -- right. by exists ty, i, meta.
        -- rewrite lookup_insert_ne in He by done. left. by eapply HP.
      * unfold tick in Hr. destruct (redisClient d) as [r0|] eqn:E; [|congruence].
        injection Hr as <-. left. by eapply HP. }
    destruct (IH _ _ HP' r key e Hr He)
      as [[?|(ty & i & meta & -> & ->)]|(ty & i & meta & Hin & ->)].
    + by left.
    + right. exists ty, i, meta. split; [|done]. apply elem_of_cons. by left.
    + right. exists ty, i, meta. split; [|done]. apply elem_of_cons. by right.
Qed.

(** X16: the check has no false positives of its own: on a store that
    was empty when the trace began, [isDuplicate] answers true for [x]
    only if some earlier operation of the trace marked an identifier of
    the same namespace with the same digest.  The filter's false
    positives are caught by the store lookup. *)
Theorem duplicate_only_if_marked (ops : list DedupOp) (d : Deduplicator.t)
    (ty : DedupType) (x : string) :
  (∀ r, redisClient d = Some r → data r = ∅) →
  (isDuplicate hashIdentifier indexes ty x (dedupRun hashIdentifier indexes ops d)).1 = Ok true →
  ∃ i meta, OpMarkProcessed ty i meta ∈ ops ∧ hashIdentifier i = hashIdentifier x.
Proof.
  intros Hempty Hdup.
  set (d' := dedupRun hashIdentifier indexes ops d) in *.
  unfold isDuplicate in Hdup.
  destruct (isInitialized d'); simpl in Hdup; [|done].
  destruct (bloomFilters d' ty) as [f|]; [|done].
  destruct (redisClient d') as [r|] eqn:Hr; [|done].
  destruct (negb _); [done|].
  destruct (redis_exists r _) eqn:Hex; [|done].
  unfold redis_exists in Hex.
  destruct (data r !! _) as [e|] eqn:He; [|done].
  destruct (store_keys_run ops d (λ _, False)) with (r := r) (e := e)
      (key := recordPrefix ty +:+ ":" +:+ hashIdentifier x)
    as [[]|(ty' & i & meta & Hin & Hkey)]; [|done..|].
  - intros r0 key e0 Hr0 He0. rewrite (Hempty r0 Hr0) in He0. by rewrite lookup_empty in He0.
  - symmetry in Hkey. apply (recordKey_inj hashIdentifier) in Hkey as [<- Hh].
    by exists i, meta.
Qed.

End DedupMore.

Lemma batchCheckDuplicates_partitions_witness :
  let d := (Deduplicator.markUserProcessed sampleHash sampleIndexes "did:plc:alice" []
              (readyDeduplicator 16 1)).2 in
  let items := [Deduplicator.ItemId "did:plc:alice"; Deduplicator.ItemId "did:plc:bob"] in
  ∃ results d',
    Deduplicator.batchCheckDuplicates sampleHash sampleIndexes items
      (Some Deduplicator.users) d = (Ok results, d') ∧
    Deduplicator.batchDuplicates results = [Deduplicator.ItemId "did:plc:alice"] ∧
    Deduplicator.batchNewItems results = [Deduplicator.ItemId "did:plc:bob"].
Proof.
  intros d items.
  destruct (batchCheckDuplicates_partitions sampleHash sampleIndexes Deduplicator.users items d)
    as (results & d' & Hbatch & Hdup & Hnew & _).
  - reflexivity.
  - by eexists.
  - by eexists.
  - repeat constructor.
  - exists results, d'. split; [exact Hbatch|]. rewrite Hdup, Hnew. by vm_compute.
Defined.

Lemma close_saves_nothing_witness :
  let d := (Deduplicator.markUserProcessed sampleHash sampleIndexes "did:plc:alice" []
              (readyDeduplicator 16 1)).2 in
  let r := default {| Deduplicator.clock := 0; Deduplicator.data := ∅ |}
             (Deduplicator.redisClient d) in
  (Deduplicator.isInitialized d = true ∧
   (∃ ty, is_Some (Deduplicator.bloomFilters d ty)) ∧
   Deduplicator.redisClient d = Some r) ∧
  (∃ e, Deduplicator.saveBloomFilters d = (Throw e, d)) ∧
  Deduplicator.close d = d ∧
  ∃ d2,
    Deduplicator.initialize (λ _, (16%nat, 1%nat)) (16%nat, 1%nat)
      (Deduplicator.redisClient (Deduplicator.close d)) Deduplicator.new = (Ok (), d2) ∧
    ∀ ty, Deduplicator.redis_get r ("bloom:" +:+ Deduplicator.typeName ty) = None →
          ∃ f, Deduplicator.bloomFilters d2 ty = Some f ∧ Deduplicator.bits f = ∅.
Proof.
  intros d r.
  assert (H1 : Deduplicator.isInitialized d = true) by reflexivity.
  assert (H2 : ∃ ty, is_Some (Deduplicator.bloomFilters d ty))
    by (exists Deduplicator.users; by eexists).
  assert (H3 : Deduplicator.redisClient d = Some r) by reflexivity.
  split; [done|].
  exact (close_saves_nothing (λ _, (16%nat, 1%nat)) (16%nat, 1%nat) d r H1 H2 H3).
Defined.

Lemma C3_false_negative_after_restart_witness :
  let x := "did:plc:alice" in
  let d := readyDeduplicator 16 1 in
  let d1 := (Deduplicator.markUserProcessed sampleHash sampleIndexes x [] d).2 in
  let r1 := default {| Deduplicator.clock := 0; Deduplicator.data := ∅ |}
              (Deduplicator.redisClient (Deduplicator.close d1)) in
  let dt := 3600000 in
  let r2 := Deduplicator.advance dt r1 in
  ((∀ size k h, sampleIndexes size k h ≠ []) ∧
   Deduplicator.markProcessed sampleHash sampleIndexes Deduplicator.users x [] d = (Ok (), d1) ∧
   Deduplicator.redisClient (Deduplicator.close d1) = Some r1 ∧
   Deduplicator.redis_get r1 ("bloom:" +:+ Deduplicator.typeName Deduplicator.users) = None ∧
   0 ≤ dt < recordTTL) ∧
  Deduplicator.redis_exists r2 (Deduplicator.recordKey sampleHash Deduplicator.users x) = true ∧
  ∃ d2,
    Deduplicator.initialize (λ _, (16%nat, 1%nat)) (16%nat, 1%nat) (Some r2) Deduplicator.new
      = (Ok (), d2) ∧
    (Deduplicator.isDuplicate sampleHash sampleIndexes Deduplicator.users x d2).1 = Ok false.
Proof.
  intros x d d1 r1 dt r2.
  assert (H1 : ∀ size k h, sampleIndexes size k h ≠ []) by done.
  assert (H2 : Deduplicator.markProcessed sampleHash sampleIndexes Deduplicator.users x [] d
               = (Ok (), d1)) by reflexivity.
  assert (H3 : Deduplicator.redisClient (Deduplicator.close d1) = Some r1) by reflexivity.
  assert (H4 : Deduplicator.redis_get r1 ("bloom:" +:+ Deduplicator.typeName Deduplicator.users)
               = None) by reflexivity.
  assert (H5 : 0 ≤ dt < recordTTL) by (unfold dt, recordTTL; lia).
  split; [done|].
  exact (C3_false_negative_after_restart sampleHash sampleIndexes (λ _, (16%nat, 1%nat))
           (16%nat, 1%nat) Deduplicator.users x [] d d1 r1 dt H1 H2 H3 H4 H5).
Defined.

Lemma C6_restart_filter_misses_record_witness :
  let x := "did:plc:alice" in
  let d := readyDeduplicator 16 1 in
  let d1 := (Deduplicator.markUserProcessed sampleHash sampleIndexes x [] d).2 in
  let r1 := default {| Deduplicator.clock := 0; Deduplicator.data := ∅ |}
              (Deduplicator.redisClient (Deduplicator.close d1)) in
  ((∀ size k h, sampleIndexes size k h ≠ []) ∧
   Deduplicator.markProcessed sampleHash sampleIndexes Deduplicator.users x [] d = (Ok (), d1) ∧
   Deduplicator.redisClient (Deduplicator.close d1) = Some r1 ∧
   Deduplicator.redis_get r1 ("bloom:" +:+ Deduplicator.typeName Deduplicator.users) = None) ∧
  (∃ e, Deduplicator.clear (Some Deduplicator.users) d1 = (Throw e, d1)) ∧
  ∃ d2 f,
    Deduplicator.initialize (λ _, (16%nat, 1%nat)) (16%nat, 1%nat) (Some r1) Deduplicator.new
      = (Ok (), d2) ∧
    Deduplicator.redisClient d2 = Some r1 ∧
    Deduplicator.redis_exists r1 (Deduplicator.recordKey sampleHash Deduplicator.users x) = true ∧
    Deduplicator.bloomFilters d2 Deduplicator.users = Some f ∧
    Deduplicator.bloom_has sampleIndexes (sampleHash x) f = false ∧
    ¬ filterCovers sampleHash sampleIndexes d2 Deduplicator.users x.
Proof.
  intros x d d1 r1.
  assert (H1 : ∀ size k h, sampleIndexes size k h ≠ []) by done.
  assert (H2 : Deduplicator.markProcessed sampleHash sampleIndexes Deduplicator.users x [] d
               = (Ok (), d1)) by reflexivity.
  assert (H3 : Deduplicator.redisClient (Deduplicator.close d1) = Some r1) by reflexivity.
  assert (H4 : Deduplicator.redis_get r1 ("bloom:" +:+ Deduplicator.typeName Deduplicator.users)
               = None) by reflexivity.
  split; [done|].
  exact (C6_restart_filter_misses_record sampleHash sampleIndexes (λ _, (16%nat, 1%nat))
           (16%nat, 1%nat) Deduplicator.users x [] d d1 r1 H1 H2 H3 H4).
Defined.

Lemma restart_without_close_forgets_witness :
  let x := "did:plc:alice" in
  let d1 := (Deduplicator.markUserProcessed sampleHash sampleIndexes x []
               (readyDeduplicator 16 1)).2 in
  let r1 := default {| Deduplicator.clock := 0; Deduplicator.data := ∅ |}
              (Deduplicator.redisClient d1) in
  Deduplicator.redis_exists r1 (Deduplicator.recordKey sampleHash Deduplicator.users x) = true ∧
  ∃ d2,
    Deduplicator.initialize (λ _, (16%nat, 1%nat)) (16%nat, 1%nat) (Some r1) Deduplicator.new
      = (Ok (), d2) ∧
    (Deduplicator.isDuplicate sampleHash sampleIndexes Deduplicator.users x d2).1 = Ok false.
Proof.
  intros x d1 r1.
  apply (restart_without_close_forgets sampleHash sampleIndexes (λ _, (16%nat, 1%nat))
           (16%nat, 1%nat) Deduplicator.users x [] (readyDeduplicator 16 1) d1 r1).
  - done.
  - reflexivity.
  - reflexivity.
  - by vm_compute.
Defined.

Lemma duplicate_only_if_marked_witness :
  let x := "did:plc:alice" in
  let ops := [OpMarkProcessed Deduplicator.users x []; OpTick 1000] in
  ∃ i meta, OpMarkProcessed Deduplicator.users i meta ∈ ops ∧ sampleHash i = sampleHash x.
Proof.
  intros x ops.
  apply (duplicate_only_if_marked sampleHash sampleIndexes ops (readyDeduplicator 16 1)).
  - by intros r [= <-].
  - by vm_compute.
Defined.

Section Strings.

Lemma rev_app_append (s t acc : string) :
  String.rev_app (s +:+ t) acc = String.rev_app t (String.rev_app s acc).
Proof.
  revert acc. induction s as [|a s IH]; intros acc; [done|].
  change (String a s +:+ t) with (String a (s +:+ t)). simpl. apply IH.
Qed.

Lemma rev_app_acc (s acc : string) :
  String.rev_app s acc = String.rev_app s "" +:+ acc.
Proof.
  revert acc. induction s as [|a s IH]; intros acc; [done|].
  simpl. rewrite (IH (String a acc)), (IH (String a "")).
  clear. induction (String.rev_app s "") as [|b u IHu]; [done|].
  change (String b u +:+ String a acc) with (String b (u +:+ String a acc)).
  change ((String b u +:+ String a "") +:+ acc)
    with (String b ((u +:+ String a "") +:+ acc)).
  by rewrite IHu.
Qed.

Lemma prefix_append (s t : string) : String.prefix s (s +:+ t) = true.
Proof.
  induction s as [|a s IH]; [by destruct t|].
  change (String a s +:+ t) with (String a (s +:+ t)). simpl.
  destruct (Ascii.ascii_dec a a); [done|done].
Qed.

Lemma endsWith_json (s : string) : endsWith ".json" (s +:+ ".json") = true.
Proof.
  unfold endsWith, String.rev. rewrite rev_app_append. simpl.
  by destruct (String.rev_app s "").
Qed.

Lemma endsWith_backup (s : string) : endsWith ".json" (s +:+ ".backup") = false.
Proof.
  unfold endsWith, String.rev. rewrite rev_app_append. simpl. done.
Qed.

Lemma length_append (s t : string) :
  String.length (s +:+ t) = (String.length s + String.length t)%nat.
Proof.
  induction s as [|a s IH]; [done|].
  change (String a s +:+ t) with (String a (s +:+ t)). simpl. by rewrite IH.
Qed.

Lemma append_ne_self (s t : string) : t ≠ "" → s +:+ t ≠ s.
Proof.
  intros Ht Heq. apply (f_equal String.length) in Heq.
  rewrite length_append in Heq. destruct t; [done|]. simpl in Heq. lia.
Qed.

Lemma append_assoc (s t u : string) : (s +:+ t) +:+ u = s +:+ (t +:+ u).
Proof.
  induction s as [|a s IH]; [done|].
  change (String a s +:+ t) with (String a (s +:+ t)).
  change (String a (s +:+ t) +:+ u) with (String a ((s +:+ t) +:+ u)).
  by rewrite IH.
Qed.

End Strings.

Section Files.
Import CheckpointManager.
Context {State : Type}.
Implicit Types (fs : Dir State) (c : Checkpoint State) (m : CheckpointManager.t State).

Lemma eqb_name (a b : string) : String.eqb a b = bool_decide (a = b).
Proof.
  destruct (String.eqb a b) eqn:E.
  - apply String.eqb_eq in E. by rewrite bool_decide_eq_true_2.
  - apply String.eqb_neq in E. by rewrite bool_decide_eq_false_2.
Qed.

Lemma pathExists_elem name fs : pathExists name fs = true ↔ name ∈ fs.*1.
Proof.
  unfold pathExists. induction fs as [|[n c] fs IH]; simpl.
  - split; [done|]. by intros ?%elem_of_nil.
  - rewrite orb_true_iff, IH, eqb_name, bool_decide_eq_true. set_solver.
Qed.

Lemma readJson_cons name n c fs :
  readJson name ((n, c) :: fs) = if String.eqb n name then Some c else readJson name fs.
Proof. unfold readJson. simpl. by destruct (String.eqb n name). Qed.

Lemma readJson_None name fs : readJson name fs = None ↔ pathExists name fs = false.
Proof.
  induction fs as [|[n c] fs IH]; [done|].
  rewrite readJson_cons. unfold pathExists in *. simpl.
  destruct (String.eqb n name); simpl; [done|]. apply IH.
Qed.

Lemma readJson_elem name c fs : readJson name fs = Some c → (name, c) ∈ fs.
Proof.
  induction fs as [|[n c'] fs IH]; [done|].
  rewrite readJson_cons. destruct (String.eqb n name) eqn:E.
  - apply String.eqb_eq in E as ->. intros [= ->]. set_solver.
  - intros H. apply elem_of_cons. right. by apply IH.
Qed.

Lemma readJson_app name fs fs' :
  readJson name (fs ++ fs')%list =
    match readJson name fs with Some c => Some c | None => readJson name fs' end.
Proof.
  induction fs as [|[n c] fs IH]; [done|].
  change (((n, c) :: fs) ++ fs')%list with ((n, c) :: (fs ++ fs')%list).
  rewrite !readJson_cons. by destruct (String.eqb n name).
Qed.

Lemma readJson_writeJson name c fs : readJson name (writeJson name c fs) = Some c.
Proof.
  unfold writeJson. destruct (pathExists name fs) eqn:E.
  - induction fs as [|[n c'] fs IH]; [done|].
    unfold pathExists in E. simpl in *. destruct (String.eqb n name) eqn:En.
    + rewrite readJson_cons. by rewrite String.eqb_refl.
    + rewrite readJson_cons, En. apply IH. done.
  - rewrite readJson_app. apply readJson_None in E. rewrite E.
    rewrite readJson_cons. by rewrite String.eqb_refl.
Qed.

Lemma readJson_writeJson_ne name name' c fs :
  name ≠ name' → readJson name (writeJson name' c fs) = readJson name fs.
Proof.
  intros Hne. unfold writeJson. destruct (pathExists name' fs).
  - induction fs as [|[n c'] fs IH]; [done|]. simpl.
    destruct (String.eqb n name') eqn:En.
    + apply String.eqb_eq in En as ->. rewrite !readJson_cons.
      assert (String.eqb name' name = false) as -> by (apply String.eqb_neq; done).
      apply IH.
    + rewrite !readJson_cons. destruct (String.eqb n name); [done|]. apply IH.
  - rewrite readJson_app. destruct (readJson name fs); [done|].
    rewrite readJson_cons.
    assert (String.eqb name' name = false) as -> by (apply String.eqb_neq; done).
    done.
Qed.

Lemma writeJson_names name c fs :
  (writeJson name c fs).*1 = if pathExists name fs then fs.*1 else (fs.*1 ++ [name])%list.
Proof.
  unfold writeJson. destruct (pathExists name fs).
  - induction fs as [|[n c'] fs IH]; [done|]. csimpl. rewrite IH.
    destruct (String.eqb n name) eqn:En; [|done].
    apply String.eqb_eq in En. by subst.
  - by rewrite fmap_app.
Qed.

Lemma writeJson_elem name c fs f :
  f ∈ writeJson name c fs → f = (name, c) ∨ f ∈ fs.
Proof.
  unfold writeJson. destruct (pathExists name fs).
  - induction fs as [|[n c'] fs IH]; simpl; [by intros ?%elem_of_nil|].
    intros [->|Hin]%elem_of_cons.
    + destruct (String.eqb n name); [by left|right; set_solver].
    + destruct (IH Hin); [by left|right; set_solver].
  - intros [?|[->|?%elem_of_nil]%elem_of_cons]%elem_of_app; [by right|by left|done].
Qed.

Lemma listCheckpoints_alt m fs :
  listCheckpoints m fs = snd <$> filter (λ f, listed (this_scraperType m) f.1 = true) fs.
Proof. done. Qed.

Lemma filter_listed_cons (ty n : string) c fs :
  filter (λ f : string * Checkpoint State, listed ty f.1 = true) ((n, c) :: fs)
  = if listed ty n
    then (n, c) :: filter (λ f : string * Checkpoint State, listed ty f.1 = true) fs
    else filter (λ f : string * Checkpoint State, listed ty f.1 = true) fs.
Proof.
  destruct (listed ty n) eqn:E.
  - by rewrite filter_cons_True.
  - rewrite filter_cons_False; [done|]. cbn [fst]. congruence.
Qed.

Lemma filter_listed_app (ty : string) fs fs' :
  filter (λ f : string * Checkpoint State, listed ty f.1 = true) (fs ++ fs')%list
  = (filter (λ f : string * Checkpoint State, listed ty f.1 = true) fs
     ++ filter (λ f : string * Checkpoint State, listed ty f.1 = true) fs')%list.
Proof. apply filter_app. Qed.

Lemma filter_listed_nil (ty : string) :
  filter (λ f : string * Checkpoint State, listed ty f.1 = true) [] = [].
Proof. done. Qed.

(** Writing a file that is not listed does not change the listing. *)
Lemma listCheckpoints_writeJson_unlisted m name c fs :
  listed (this_scraperType m) name = false →
  listCheckpoints m (writeJson name c fs) = listCheckpoints m fs.
Proof.
  intros Hname. rewrite !listCheckpoints_alt. unfold writeJson.
  destruct (pathExists name fs).
  - f_equal. induction fs as [|[n c'] fs IH]; [done|]. cbn [map fst].
    destruct (String.eqb n name) eqn:En.
    + apply String.eqb_eq in En as ->.
      rewrite !filter_listed_cons, Hname. apply IH.
    + rewrite !filter_listed_cons. by rewrite IH.
  - rewrite filter_listed_app, filter_listed_cons, Hname.
    by rewrite filter_listed_nil, app_nil_r.
Qed.

Lemma listCheckpoints_writeJson_length m name c fs :
  (length (listCheckpoints m (writeJson name c fs)) ≤ length (listCheckpoints m fs) + 1)%nat.
Proof.
  rewrite !listCheckpoints_alt, !length_fmap. unfold writeJson.
  destruct (pathExists name fs).
  - induction fs as [|[n c'] fs IH]; [simpl; lia|]. cbn [map fst].
    destruct (String.eqb n name) eqn:En.
    + apply String.eqb_eq in En as ->.
      rewrite !filter_listed_cons. destruct (listed _ name); simpl; lia.
    + rewrite !filter_listed_cons. destruct (listed _ n); simpl; lia.
  - rewrite filter_listed_app, length_app, filter_listed_cons.
    destruct (listed _ name); simpl; lia.
Qed.

Lemma listCheckpoints_elem m fs c :
  c ∈ listCheckpoints m fs → ∃ name, (name, c) ∈ fs ∧ listed (this_scraperType m) name = true.
Proof.
  rewrite listCheckpoints_alt. intros ([n c'] & -> & Hin)%list_elem_of_fmap.
  apply list_elem_of_filter in Hin as [Hl Hin]. by exists n.
Qed.

Lemma listCheckpoints_intro m fs name c :
  (name, c) ∈ fs → listed (this_scraperType m) name = true → c ∈ listCheckpoints m fs.
Proof.
  intros Hin Hl. rewrite listCheckpoints_alt. apply list_elem_of_fmap.
  exists (name, c). split; [done|]. by apply list_elem_of_filter.
Qed.

(** The file of a new checkpoint is listed, its backup is not. *)
Lemma checkpointPath_listed scraperType rest :
  listed scraperType ((scraperType +:+ rest) +:+ ".json") = true.
Proof.
  unfold listed. rewrite endsWith_json, andb_true_r.
  rewrite append_assoc. apply prefix_append.
Qed.

Lemma backupPath_unlisted scraperType path :
  listed scraperType (path +:+ ".backup") = false.
Proof. unfold listed. by rewrite endsWith_backup, andb_false_r. Qed.

(** What [createCheckpoint] leaves behind while the retention bound is
    not reached. *)
Lemma createCheckpoint_stored (S : Settings) (backup : bool) (now : Z) (stamp : string)
    (st : State) (meta : list (string * string)) m fs :
  AUTO_CHECKPOINT S = true →
  Z.of_nat (length (listCheckpoints m fs)) < CHECKPOINT_FREQUENCY S * 2 →
  ∃ checkpointId c m' fs',
    createCheckpoint S backup now stamp st meta m fs = (Some checkpointId, m', fs') ∧
    id c = checkpointId ∧ state c = st ∧ timestamp c = now ∧
    counter c = checkpointCounter m + 1 ∧
    sessionId c = this_sessionId m ∧
    metadata c = (("version", "1.0.0") :: meta) ∧
    this_scraperType m' = this_scraperType m ∧
    checkpointCounter m' = checkpointCounter m + 1 ∧
    currentCheckpoint m' = Some c ∧ lastCheckpointTime m' = Some now ∧
    readJson (checkpointId +:+ ".json") fs' = Some c ∧
    listed (this_scraperType m) (checkpointId +:+ ".json") = true ∧
    (backup = true → readJson ((checkpointId +:+ ".json") +:+ ".backup") fs' = Some c) ∧
    (∀ f, f ∈ fs' → f.2 = c ∨ f ∈ fs) ∧
    (∀ name, name ≠ checkpointId +:+ ".json" →
             name ≠ (checkpointId +:+ ".json") +:+ ".backup" →
             readJson name fs' = readJson name fs).
Proof.
  intros Hauto Hcount. unfold createCheckpoint. rewrite Hauto. simpl.
  set (checkpointId := this_scraperType m +:+ "_" +:+ this_sessionId m +:+ "_" +:+ stamp
                         +:+ "_" +:+ pretty (checkpointCounter m + 1)).
  set (c := {| id := checkpointId; scraperType := this_scraperType m;
               sessionId := this_sessionId m; timestamp := now;
               counter := checkpointCounter m + 1; state := st;
               metadata := ("version", "1.0.0") :: meta |}).
  set (m1 := {| this_scraperType := this_scraperType m; this_sessionId := this_sessionId m;
                currentCheckpoint := Some c; checkpointCounter := checkpointCounter m + 1;
                lastCheckpointTime := Some now |}).
  set (fs1 := writeJson (checkpointId +:+ ".json") c fs).
  set (fs2 := if backup then writeJson ((checkpointId +:+ ".json") +:+ ".backup") c fs1
              else fs1).
  assert (Hlisted : listed (this_scraperType m) (checkpointId +:+ ".json") = true).
  { unfold checkpointId. apply checkpointPath_listed. }
  assert (Hlist2 : listCheckpoints m1 fs2 = listCheckpoints m1 fs1).
  { unfold fs2. destruct backup; [|done].
    apply listCheckpoints_writeJson_unlisted. apply backupPath_unlisted. }
  assert (Hkeep : cleanupOldCheckpoints S m1 fs2 = fs2).
  { unfold cleanupOldCheckpoints. rewrite Hlist2.
    pose proof (listCheckpoints_writeJson_length m1 (checkpointId +:+ ".json") c fs) as Hlen.
    fold fs1 in Hlen.
    assert (listCheckpoints m1 fs = listCheckpoints m fs) as Hm by done.
    rewrite Hm in Hlen.
    destruct (_ <=? _) eqn:E; [done|]. apply Z.leb_gt in E. lia. }
  rewrite Hkeep.
  exists checkpointId, c, m1, fs2. split; [done|].
  split_and!; try done.
  - unfold fs2. destruct backup.
    + rewrite readJson_writeJson_ne; [apply readJson_writeJson|].
      intros Heq. symmetry in Heq. by apply append_ne_self in Heq.
    + apply readJson_writeJson.
  - intros ->. apply readJson_writeJson.
  - intros f Hf. unfold fs2 in Hf.
    assert (f ∈ fs1 → f.2 = c ∨ f ∈ fs) as H1.
    { intros [->|?]%writeJson_elem; [by left|by right]. }
    destruct backup; [|by apply H1].
    apply writeJson_elem in Hf as [->|Hf]; [by left|by apply H1].
  - intros name Hne1 Hne2. unfold fs2.
    destruct backup.
    + rewrite readJson_writeJson_ne by done. by apply readJson_writeJson_ne.
    + by apply readJson_writeJson_ne.
Qed.

(** X17: what [createCheckpoint] stores can be loaded by its id.  With
    automatic checkpoints on and fewer stored checkpoints of the type
    than the retention bound, [createCheckpoint] returns an id,
    [loadCheckpoint] of that id returns a document with exactly the state
    that was saved, the next sequence number of the manager and the
    creation time, and no other file of the directory has changed. *)
Theorem createCheckpoint_loadCheckpoint (S : Settings) (backup : bool) (now : Z)
    (stamp : string) (st : State) (meta : list (string * string)) m fs :
  AUTO_CHECKPOINT S = true →
  Z.of_nat (length (listCheckpoints m fs)) < CHECKPOINT_FREQUENCY S * 2 →
  ∃ checkpointId c m' fs',
    createCheckpoint S backup now stamp st meta m fs = (Some checkpointId, m', fs') ∧
    (loadCheckpoint checkpointId m' fs').1 = Some c ∧
    id c = checkpointId ∧ state c = st ∧ timestamp c = now ∧
    counter c = checkpointCounter m + 1 ∧
    checkpointCounter m' = checkpointCounter m + 1 ∧
    (∀ name, name ≠ checkpointId +:+ ".json" →
             name ≠ (checkpointId +:+ ".json") +:+ ".backup" →
             readJson name fs' = readJson name fs).
Proof.
  intros Hauto Hcount.
  destruct (createCheckpoint_stored S backup now stamp st meta m fs Hauto Hcount)
    as (checkpointId & c & m' & fs' & Hcreate & Hid & Hst & Hts & Hctr & _ & _ & _
        & Hm' & _ & _ & Hread & _ & _ & _ & Hother).
  exists checkpointId, c, m', fs'. split_and!; try done.
  unfold loadCheckpoint.
  assert (pathExists (checkpointId +:+ ".json") fs' = true) as ->.
  { destruct (pathExists _ fs') eqn:E; [done|].
    apply readJson_None in E. congruence. }
  simpl. by rewrite Hread.
Qed.

(** X18: the checkpoint just created is the one [loadLatestCheckpoint]
    returns.  When every file of the directory is older than the new
    checkpoint and the retention bound is not reached, a
    [loadLatestCheckpoint] within the maximum age returns the new
    checkpoint with the state that was saved. *)
Theorem createCheckpoint_loadLatest (S : Settings) (backup : bool) (now later : Z)
    (stamp : string) (st : State) (meta : list (string * string)) m fs :
  AUTO_CHECKPOINT S = true →
  Z.of_nat (length (listCheckpoints m fs)) < CHECKPOINT_FREQUENCY S * 2 →
  (∀ f, f ∈ fs → timestamp f.2 < now) →
  later - now ≤ maxCheckpointAge S →
  ∃ checkpointId c m' fs',
    createCheckpoint S backup now stamp st meta m fs = (Some checkpointId, m', fs') ∧
    (loadLatestCheckpoint S later m' fs').1 = Some c ∧
    id c = checkpointId ∧ state c = st.
Proof.
  intros Hauto Hcount Holder Hage.
  destruct (createCheckpoint_stored S backup now stamp st meta m fs Hauto Hcount)
    as (checkpointId & c & m' & fs' & Hcreate & Hid & Hst & Hts & _ & _ & _ & Hty
        & _ & _ & _ & Hread & Hlisted & _ & Helems & _).
  exists checkpointId, c, m', fs'. split_and!; try done.
  assert (Hin : c ∈ listCheckpoints m' fs').
  { apply (listCheckpoints_intro m' fs' (checkpointId +:+ ".json")).
    - by apply readJson_elem.
    - by rewrite Hty. }
  unfold loadLatestCheckpoint.
  destruct (length (listCheckpoints m' fs') =? 0)%nat eqn:Hlen.
  { apply Nat.eqb_eq in Hlen. destruct (listCheckpoints m' fs'); [|done].
    by apply elem_of_nil in Hin. }
  destruct (stableSort _ (listCheckpoints m' fs')) as [|latest rest] eqn:Hsort.
  { apply (stableSort_nil timestamp) in Hsort. rewrite Hsort in Hin.
    by apply elem_of_nil in Hin. }
  destruct (stableSort_head_max timestamp (listCheckpoints m' fs') latest) as [Hl Hmax].
  { by rewrite Hsort. }
  assert (latest = c) as ->.
  { apply listCheckpoints_elem in Hl as (name & Hf & _).
    destruct (Helems _ Hf) as [?|Hold]; [done|].
    specialize (Holder _ Hold). specialize (Hmax c Hin). simpl in *. lia. }
  fold (maxCheckpointAge S).
  destruct (maxCheckpointAge S <? later - timestamp c) eqn:E; [|done].
  apply Z.ltb_lt in E. lia.
Qed.

Lemma remove_cons (name n : string) c fs :
  remove name ((n, c) :: fs)
  = if String.eqb n name then remove name fs else (n, c) :: remove name fs.
Proof.
  unfold remove. destruct (String.eqb n name) eqn:E.
  - rewrite (filter_cons_False _ (n, c)); [done|]. cbn [fst]. congruence.
  - by rewrite (filter_cons_True _ (n, c)).
Qed.

(** X19: [deleteCheckpoint] removes the file of the checkpoint and its
    backup and nothing else: it reports whether the file existed,
    afterwards [loadCheckpoint] of the id finds nothing, and every other
    file reads as before. *)
Theorem deleteCheckpoint_removes (checkpointId : string) m fs :
  let '(deleted, fs') := deleteCheckpoint checkpointId fs in
  deleted = pathExists (checkpointId +:+ ".json") fs ∧
  loadCheckpoint checkpointId m fs' = (None, m) ∧
  (deleted = true → readJson ((checkpointId +:+ ".json") +:+ ".backup") fs' = None) ∧
  ∀ name, name ≠ checkpointId +:+ ".json" →
          name ≠ (checkpointId +:+ ".json") +:+ ".backup" →
          readJson name fs' = readJson name fs.
Proof.
  assert (Hremove : ∀ name name' (fs : Dir State),
    readJson name (remove name' fs) = if String.eqb name' name then None else readJson name fs).
  { intros name name' fs0.
    induction fs0 as [|[n c] fs0 IH]; [by destruct (String.eqb name' name)|].
    rewrite remove_cons. destruct (String.eqb n name') eqn:En.
    - apply String.eqb_eq in En as ->.
      rewrite IH, readJson_cons. by destruct (String.eqb name' name).
    - rewrite !readJson_cons, IH.
      destruct (String.eqb n name) eqn:En'; [|done].
      apply String.eqb_eq in En' as ->.
      by rewrite String.eqb_sym, En. }
  unfold deleteCheckpoint.
  destruct (pathExists (checkpointId +:+ ".json") fs) eqn:E.
  - split; [done|]. split_and!.
    + unfold loadCheckpoint.
      assert (pathExists (checkpointId +:+ ".json")
                (remove ((checkpointId +:+ ".json") +:+ ".backup")
                        (remove (checkpointId +:+ ".json") fs)) = false) as ->; [|done].
      apply readJson_None. rewrite !Hremove. rewrite String.eqb_refl.
      by destruct (String.eqb _ _).
    + intros _. rewrite Hremove. by rewrite String.eqb_refl.
    + intros name Hne1 Hne2. rewrite !Hremove.
      assert (String.eqb ((checkpointId +:+ ".json") +:+ ".backup") name = false) as ->
        by (apply String.eqb_neq; done).
      assert (String.eqb (checkpointId +:+ ".json") name = false) as ->
        by (apply String.eqb_neq; done).
      done.
  - split; [done|]. split_and!; [|done|done].
    unfold loadCheckpoint. by rewrite E.
Qed.

(** Import and export. *)

Lemma import_fold_keeps (cs : list (Checkpoint State)) : ∀ n fs,
  let result := foldl importStep (n, fs) cs in
  (∀ name, pathExists name fs = true → readJson name result.2 = readJson name fs) ∧
  result.1 - n = Z.of_nat (length result.2) - Z.of_nat (length fs) ∧
  (∀ c, c ∈ cs → pathExists (id c +:+ ".json") result.2 = true).
Proof.
  induction cs as [|c cs IH]; intros n fs; simpl.
  - split_and!; [done|lia|]. by intros c ?%elem_of_nil.
  - destruct (pathExists (id c +:+ ".json") fs) eqn:E; simpl.
    + destruct (IH n fs) as (H1 & H2 & H4). split_and!; [done|done|].
      intros c' [->|Hc']%elem_of_cons; [|by apply H4].
      destruct (pathExists (id c +:+ ".json") (foldl importStep (n, fs) cs).2) eqn:E';
        [done|].
      apply readJson_None in E'. rewrite H1 in E' by done.
      apply readJson_None in E'. congruence.
    + destruct (IH (n + 1) (writeJson (id c +:+ ".json") c fs)) as (H1 & H2 & H4).
      assert (Hlen : length (writeJson (id c +:+ ".json") c fs) = Datatypes.S (length fs)).
      { unfold writeJson. rewrite E. rewrite length_app. simpl. lia. }
      assert (Hex : ∀ name, pathExists name fs = true →
                            pathExists name (writeJson (id c +:+ ".json") c fs) = true).
      { intros name Hn. apply pathExists_elem. rewrite writeJson_names, E.
        apply elem_of_app. left. by apply pathExists_elem. }
      split_and!.
      * intros name Hn. rewrite H1 by auto.
        apply readJson_writeJson_ne. intros ->. congruence.
      * lia.
      * intros c' [->|Hc']%elem_of_cons; [|by apply H4].
        match goal with |- pathExists ?a ?b = true => destruct (pathExists a b) eqn:E' end;
          [done|].
        apply readJson_None in E'. rewrite H1 in E'.
        -- by rewrite readJson_writeJson in E'.
        -- apply pathExists_elem. rewrite writeJson_names, E.
           apply elem_of_app. right. set_solver.
Qed.

(** X20: [importCheckpoints] never overwrites: every file that exists
    before the import reads the same afterwards, the number it returns
    is the number of files it added, afterwards every checkpoint of the
    import has a file under its id, and a document of another scraper
    type, or an unreadable one, imports nothing. *)
Theorem importCheckpoints_keeps_existing (importData : option (ExportData State)) m fs :
  let '(importedCount, fs') := importCheckpoints importData m fs in
  (∀ name, pathExists name fs = true → readJson name fs' = readJson name fs) ∧
  importedCount = Z.of_nat (length fs') - Z.of_nat (length fs) ∧
  match importData with
  | None => fs' = fs
  | Some data =>
      if String.eqb (exportScraperType data) (this_scraperType m)
      then ∀ c, c ∈ checkpoints data → pathExists (id c +:+ ".json") fs' = true
      else fs' = fs
  end.
Proof.
  unfold importCheckpoints. destruct importData as [data|]; [|split_and!; [done|lia|done]].
  destruct (String.eqb (exportScraperType data) (this_scraperType m)); simpl;
    [|split_and!; [done|lia|done]].
  pose proof (import_fold_keeps (checkpoints data) 0 fs) as (H1 & H2 & H4).
  change (foldl _ (0, fs) (checkpoints data))
    with (foldl importStep (0, fs) (checkpoints data)).
  destruct (foldl importStep (0, fs) (checkpoints data)) as [n fs']. simpl in *.
  split_and!; [done|lia|done].
Qed.

Lemma import_fold_fresh (cs : list (Checkpoint State)) : ∀ n fs,
  NoDup ((λ c, id c +:+ ".json") <$> cs) →
  (∀ c, c ∈ cs → pathExists (id c +:+ ".json") fs = false) →
  foldl importStep (n, fs) cs
    = (n + Z.of_nat (length cs), (fs ++ ((λ c, (id c +:+ ".json", c)) <$> cs))%list).
Proof.
  induction cs as [|c cs IH]; intros n fs Hnd Hfresh; simpl.
  - rewrite app_nil_r. f_equal. lia.
  - rewrite fmap_cons in Hnd. apply NoDup_cons in Hnd as [Hc Hnd].
    rewrite (Hfresh c) by set_solver. simpl.
    rewrite IH; [| done |].
    + unfold writeJson. rewrite (Hfresh c) by set_solver.
      rewrite <- app_assoc. simpl. f_equal. lia.
    + intros c' Hc'. destruct (pathExists _ _) eqn:E; [|done].
      apply pathExists_elem in E. rewrite writeJson_names in E.
      rewrite (Hfresh c) in E by set_solver.
      apply elem_of_app in E as [E|E].
      * apply pathExists_elem in E. rewrite (Hfresh c') in E by set_solver. done.
      * apply list_elem_of_singleton in E. exfalso. apply Hc.
        rewrite <- E. apply list_elem_of_fmap. by exists c'.
Qed.

(** X21: export and import round trip.  In a directory whose listed
    files are named after the ids of their checkpoints, importing the
    export of the directory into an empty directory, for a manager of the
    same scraper type, imports every checkpoint and yields a directory
    with the same listing. *)
Theorem export_import_round_trip m m2 fs :
  namedById (this_scraperType m) fs →
  this_scraperType m2 = this_scraperType m →
  let '(importedCount, fs') := importCheckpoints (Some (exportCheckpoints m fs)) m2 [] in
  importedCount = Z.of_nat (length (listCheckpoints m fs)) ∧
  listCheckpoints m2 fs' = listCheckpoints m fs.
Proof.
  intros [Hnd Hnamed] Hty. unfold importCheckpoints, exportCheckpoints. simpl.
  rewrite Hty, String.eqb_refl. simpl.
  change (foldl _ (0, []) (listCheckpoints m fs))
    with (foldl importStep (0, []) (listCheckpoints m fs)).
  set (L := λ f : string * Checkpoint State, listed (this_scraperType m) f.1 = true).
  assert (Hpairs : (λ c, (id c +:+ ".json", c)) <$> listCheckpoints m fs = filter L fs).
  { rewrite listCheckpoints_alt. fold L. rewrite <- list_fmap_compose.
    rewrite <- (list_fmap_id (filter L fs)) at 2.
    apply Forall_fmap_ext_1, Forall_forall. intros [n c] Hin. simpl.
    apply list_elem_of_filter in Hin as [Hl Hin]. f_equal. symmetry.
    by apply (Hnamed (n, c)). }
  assert (Hnames : (λ c, id c +:+ ".json") <$> listCheckpoints m fs = (filter L fs).*1).
  { rewrite <- Hpairs. rewrite <- list_fmap_compose. done. }
  assert (Hnd' : NoDup (filter L fs).*1).
  { clear -Hnd. induction fs as [|[n c] fs IH]; [constructor|].
    apply NoDup_cons in Hnd as [Hn Hnd]. unfold L. rewrite filter_listed_cons.
    destruct (listed (this_scraperType m) n); [|by apply IH].
    csimpl. apply NoDup_cons. split; [|by apply IH].
    intros ([n' c'] & Heq & Hin)%list_elem_of_fmap. simpl in Heq. subst n'.
    apply list_elem_of_filter in Hin as [_ Hin]. apply Hn.
    apply list_elem_of_fmap. by exists (n, c'). }
  rewrite import_fold_fresh; [|by rewrite Hnames|done].
  split; [lia|]. simpl. rewrite Hpairs.
  rewrite (listCheckpoints_alt m fs), listCheckpoints_alt, Hty. fold L. f_equal.
  clear. induction fs as [|[n c] fs IH]; [done|].
  unfold L in *. rewrite filter_listed_cons.
  destruct (listed (this_scraperType m) n) eqn:Hn; [|done].
  rewrite filter_listed_cons, Hn. by rewrite IH.
Qed.

(** X22: when a checkpoint is due.  With automatic checkpoints off no
    checkpoint is ever due.  With them on, a manager that has not saved
    yet is always due, and after a [createCheckpoint] at time [now] a call
    with no items processed is due exactly from [CHECKPOINT_FREQUENCY]
    minutes after [now] on. *)
Theorem shouldCreateCheckpoint_after_create (S : Settings) (CHECKPOINT_INTERVAL : Z)
    (backup : bool) (now later : Z) (stamp : string) (st : State)
    (meta : list (string * string)) (sessionId : string) (scraperType : string) m fs :
  (AUTO_CHECKPOINT S = false →
     ∀ itemsProcessed, shouldCreateCheckpoint S CHECKPOINT_INTERVAL later itemsProcessed m
                       = false) ∧
  (AUTO_CHECKPOINT S = true →
     (∀ itemsProcessed,
        shouldCreateCheckpoint S CHECKPOINT_INTERVAL later itemsProcessed
          (freshManager State scraperType sessionId) = true) ∧
     (now ≠ 0 →
      let m' := (createCheckpoint S backup now stamp st meta m fs).1.2 in
      shouldCreateCheckpoint S CHECKPOINT_INTERVAL later 0 m'
      = (CHECKPOINT_FREQUENCY S * 60 * 1000 <=? later - now))).
Proof.
  split.
  - intros Hauto items. unfold shouldCreateCheckpoint. by rewrite Hauto.
  - intros Hauto. split.
    + intros items. unfold shouldCreateCheckpoint. rewrite Hauto. simpl.
      by destruct (_ && _).
    + intros Hnow. unfold createCheckpoint, shouldCreateCheckpoint. rewrite Hauto. simpl.
      apply Z.eqb_neq in Hnow. by rewrite Hnow.
Qed.

End Files.

Lemma createCheckpoint_loadCheckpoint_witness :
  ∃ checkpointId c m' fs',
    CheckpointManager.createCheckpoint (sampleSettings None) true 4000000
      "2026-01-01_10-50-00" 40%nat [] secondSession twoSessions
      = (Some checkpointId, m', fs') ∧
    (CheckpointManager.loadCheckpoint checkpointId m' fs').1 = Some c ∧
    CheckpointManager.state c = 40%nat ∧ CheckpointManager.counter c = 1.
Proof.
  destruct (createCheckpoint_loadCheckpoint (sampleSettings None) true 4000000
              "2026-01-01_10-50-00" 40%nat [] secondSession twoSessions)
    as (checkpointId & c & m' & fs' & Hcreate & Hload & _ & Hstate & _ & Hcounter & _).
  - reflexivity.
  - by vm_compute.
  - exists checkpointId, c, m', fs'. split_and!; [exact Hcreate|exact Hload|exact Hstate|].
    rewrite Hcounter. reflexivity.
Defined.

Lemma createCheckpoint_loadLatest_witness :
  ∃ checkpointId c m' fs',
    CheckpointManager.createCheckpoint (sampleSettings None) false 4000000
      "2026-01-01_10-50-00" 40%nat [] secondSession twoSessions
      = (Some checkpointId, m', fs') ∧
    (CheckpointManager.loadLatestCheckpoint (sampleSettings None) 5000000 m' fs').1 = Some c ∧
    CheckpointManager.id c = checkpointId ∧ CheckpointManager.state c = 40%nat.
Proof.
  apply (createCheckpoint_loadLatest (sampleSettings None) false 4000000 5000000
           "2026-01-01_10-50-00" 40%nat [] secondSession twoSessions).
  - reflexivity.
  - by vm_compute.
  - apply Forall_forall.
    assert (Hdir : ∃ l, twoSessions = l ∧
                        Forall (λ f, CheckpointManager.timestamp f.2 < 4000000) l).
    { eexists. split; [vm_compute; reflexivity|].
      repeat (constructor; [simpl; lia|]). constructor. }
    destruct Hdir as (l & -> & Hl). exact Hl.
  - by vm_compute.
Defined.

Lemma export_import_round_trip_witness :
  namedById "relationships_scraper" twoSessions ∧
  let '(importedCount, fs') :=
    CheckpointManager.importCheckpoints
      (Some (CheckpointManager.exportCheckpoints secondSession twoSessions))
      (freshManager nat "relationships_scraper" "s3") [] in
  importedCount = Z.of_nat (length (CheckpointManager.listCheckpoints secondSession twoSessions)) ∧
  CheckpointManager.listCheckpoints (freshManager nat "relationships_scraper" "s3") fs'
    = CheckpointManager.listCheckpoints secondSession twoSessions.
Proof.
  assert (Hnamed : namedById "relationships_scraper" twoSessions).
  { split.
    - apply (bool_decide_unpack _). by vm_compute.
    - apply (proj1 (Forall_forall
               (λ f : string * CheckpointManager.Checkpoint nat,
                  listed "relationships_scraper" f.1 = true →
                  f.1 = CheckpointManager.id f.2 +:+ ".json") twoSessions)).
      assert (Hdir : ∃ l, twoSessions = l ∧
                Forall (λ f : string * CheckpointManager.Checkpoint nat,
                          listed "relationships_scraper" f.1 = true →
                          f.1 = CheckpointManager.id f.2 +:+ ".json") l).
      { eexists. split; [vm_compute; reflexivity|].
        repeat (constructor; [by vm_compute|]). constructor. }
      destruct Hdir as (l & -> & Hl). exact Hl. }
  split; [exact Hnamed|].
  exact (export_import_round_trip secondSession (freshManager nat "relationships_scraper" "s3")
           twoSessions Hnamed eq_refl).
Defined.

Section CrawlBooks.
Import RelationshipsScraper.
Variable hashIdentifier : string → string.
Variable indexes : nat → nat → string → list nat.
Variable validateBatch : list Relationship → list Relationship * Z.
Variable W : Type.
Variable cm : CheckpointApi W.

Lemma sameBooks_refl s : sameBooks s s.
Proof. by repeat split. Qed.

Lemma sameBooks_trans s1 s2 s3 : sameBooks s1 s2 → sameBooks s2 s3 → sameBooks s1 s3.
Proof.
  unfold sameBooks. intros (?&?&?&?&?&?&?&?&?) (?&?&?&?&?&?&?&?&?).
  split_and!; congruence.
Qed.

Lemma processRelationship_books sourceUser ty currentDepth new next s rel :
  let r := processRelationship hashIdentifier indexes sourceUser ty currentDepth
             (new, next, s) rel in
  sameBooks s r.2 ∧
  (Forall (queueEntryOk (options s) (currentDepth + 1)) next →
   Forall (queueEntryOk (options s) (currentDepth + 1)) r.1.2).
Proof.
  unfold processRelationship.
  destruct (subject rel) as [targetUser|]; [|by split; [apply sameBooks_refl|]].
  destruct (String.eqb (did targetUser) "") eqn:Hdid; [by split; [apply sameBooks_refl|]|].
  apply String.eqb_neq in Hdid.
  destruct (Deduplicator.isFollowDuplicate _ _ _ _ _) as [[[|]|e] d1]; simpl;
    [by split|..|by split].
  destruct (Deduplicator.markFollowProcessed _ _ _ _ _ _) as [[[]|e] d2]; simpl;
    [|by split].
  destruct (currentDepth <? maxDepth (options s)); simpl; [|by split].
  case_bool_decide; simpl; [by split|].
  destruct (minFollowerCount (options s) <=? followersCount targetUser) eqn:Hmin; simpl;
    [|by split].
  split; [done|]. intros Hnext. apply Forall_app. split; [done|].
  apply Forall_singleton. split_and!; [done|done|]. by apply Z.leb_le.
Qed.

Lemma processRelationship_fold_books sourceUser ty currentDepth rels : ∀ new next s,
  let r := foldl (processRelationship hashIdentifier indexes sourceUser ty currentDepth)
             (new, next, s) rels in
  sameBooks s r.2 ∧
  (Forall (queueEntryOk (options s) (currentDepth + 1)) next →
   Forall (queueEntryOk (options s) (currentDepth + 1)) r.1.2).
Proof.
  induction rels as [|rel rels IH]; intros new next s; cbn [foldl].
  - split; [apply sameBooks_refl|done].
  - pose proof (processRelationship_books sourceUser ty currentDepth new next s rel)
      as [Hs1 Hq1].
    destruct (processRelationship _ _ _ _ _ _ _) as [[new1 next1] s1]. simpl in *.
    destruct (IH new1 next1 s1) as [Hs2 Hq2].
    split; [by eapply sameBooks_trans|].
    intros Hnext. destruct Hs1 as (Ho & _). rewrite Ho in Hq2. auto.
Qed.

Lemma saveBatch_books force s :
  crawlBooks s → crawlBooks (saveBatch force s) ∧
  options (saveBatch force s) = options s ∧
  depthQueues (saveBatch force s) = depthQueues s ∧
  processedUsers (saveBatch force s) = processedUsers s ∧
  shouldStop (saveBatch force s) = shouldStop s ∧
  (force = true → currentBatch (saveBatch force s) = []).
Proof.
  intros [Hq (Hp & Hs & Hu)]. unfold saveBatch.
  destruct (length (currentBatch s) =? 0)%nat eqn:Hlen.
  { split_and!; try done. intros _. apply Nat.eqb_eq in Hlen. by destruct (currentBatch s). }
  destruct (negb force && _) eqn:Hforce.
  { split_and!; try done. intros ->. done. }
  split_and!; try done. split; [done|].
  unfold countersExact, emitted in *. simpl.
  rewrite concat_app, !length_app in *. simpl. rewrite !app_nil_r.
  split_and!; [lia|lia|done].
Qed.

Lemma stableSort_Forall {A} (key : A → Z) (P : A → Prop) (l : list A) :
  Forall P l → Forall P (stableSort (λ a b, key b - key a <? 0) l).
Proof.
  rewrite !Forall_forall. intros H x Hx. apply H. by apply (stableSort_elem key).
Qed.

Lemma processRelationships_books relationships sourceUser ty currentDepth s :
  crawlBooks s →
  let r := processRelationships hashIdentifier indexes validateBatch
             relationships sourceUser ty currentDepth s in
  crawlBooks r.2 ∧ options r.2 = options s ∧
  dom (depthQueues r.2) = dom (depthQueues s) ∧
  processedUsers r.2 = processedUsers s ∧ shouldStop r.2 = shouldStop s.
Proof.
  intros Hinv. unfold processRelationships.
  destruct (length relationships =? 0)%nat; [done|].
  destruct (validateBatch relationships) as [validRelationships validationErrors].
  set (s1 := if 0 <? validationErrors then _ else _).
  assert (H1 : sameBooks s s1).
  { unfold s1. destruct (0 <? validationErrors); by repeat split. }
  pose proof (processRelationship_fold_books sourceUser ty currentDepth validRelationships
                [] [] s1) as [H2 Hnext].
  destruct (foldl _ _ validRelationships) as [[new next] s2]. simpl in H2, Hnext.
  specialize (Hnext (Forall_nil_2 _)).
  pose proof (sameBooks_trans _ _ _ H1 H2) as (Ho & Hdq & Hpu & Hcb & Hsv & Hst & Hup & Hrp & Hrs).
  destruct H1 as (Ho1 & _). rewrite Ho1 in Hnext.
  destruct Hinv as [Hq (Hp & Hs & Hu)].
  set (s3 := if (0 <? length new)%nat then _ else s2).
  assert (H3 : crawlBooks s3 ∧ options s3 = options s ∧ depthQueues s3 = depthQueues s ∧
               processedUsers s3 = processedUsers s ∧ shouldStop s3 = shouldStop s).
  { unfold s3. destruct (0 <? length new)%nat eqn:Hn.
    - split_and!; try done. split.
      + intros k q Hk. simpl in *. rewrite Ho. rewrite Hdq in Hk. by apply Hq.
      + unfold countersExact, emitted in *. simpl. rewrite Hsv, Hcb, Hpu, Hup, Hrp, Hrs.
        rewrite !length_app in *. split_and!; [lia|done|done].
    - split_and!; try done. split.
      + intros k q Hk. rewrite Ho. rewrite Hdq in Hk. by apply Hq.
      + unfold countersExact, emitted in *. rewrite Hsv, Hcb, Hpu, Hup, Hrp, Hrs. done. }
  clearbody s3. destruct H3 as ([Hq3 Hc3] & Ho3 & Hdq3 & Hpu3 & Hst3).
  set (queued := if _ && _ then _ else _).
  assert (H4 : crawlBooks queued.2 ∧ options queued.2 = options s ∧
               dom (depthQueues queued.2) = dom (depthQueues s) ∧
               processedUsers queued.2 = processedUsers s ∧
               shouldStop queued.2 = shouldStop s).
  { unfold queued. destruct (_ && _); [|simpl; by rewrite Hdq3].
    destruct (depthQueues s3 !! (currentDepth + 1)) as [nextDepthQueue|] eqn:Hnq;
      [|simpl; by rewrite Hdq3].
    simpl. split_and!; try done.
    - split; [|done]. intros k q. simpl.
      destruct (decide (k = currentDepth + 1)) as [->|Hne].
      + rewrite lookup_insert_eq. intros [= <-]. apply Forall_app. split.
        * by apply Hq3.
        * rewrite Ho3. destruct (prioritizePopularUsers (options s)); [|done].
          by apply (stableSort_Forall (λ qu, followersCount (user qu))).
      + rewrite lookup_insert_ne by done. apply Hq3.
    - rewrite dom_insert_L, <- Hdq3.
      apply elem_of_dom_2 in Hnq. set_solver. }
  destruct queued as [[[]|e] s4]; simpl in *; [|done].
  destruct H4 as (Hb4 & Ho4 & Hd4 & Hp4 & Hs4).
  destruct (saveInterval (options s4) <=? _); simpl; [|done].
  destruct (saveBatch_books false s4 Hb4) as (Hb5 & Ho5 & Hd5 & Hp5 & Hs5 & _).
  split_and!; try done; congruence.
Qed.

Lemma scrapePages_books ty u currentDepth maxItems pages : ∀ scraped s,
  crawlBooks s →
  let s' := scrapePages hashIdentifier indexes validateBatch ty u currentDepth
              maxItems scraped pages s in
  crawlBooks s' ∧ options s' = options s ∧
  dom (depthQueues s') = dom (depthQueues s) ∧ processedUsers s' = processedUsers s.
Proof.
  induction pages as [|[items|e] pages IH]; intros scraped s Hinv; simpl; [done| |done].
  set (r := if (0 <? length items)%nat then _ else _).
  assert (Hr : crawlBooks r.2 ∧ options r.2 = options s ∧
               dom (depthQueues r.2) = dom (depthQueues s) ∧
               processedUsers r.2 = processedUsers s).
  { unfold r. destruct (0 <? length items)%nat; [|done].
    destruct (processRelationships_books items u ty currentDepth s Hinv)
      as (? & ? & ? & ? & ?). done. }
  destruct r as [[[]|e] s1]; simpl in *; [|done].
  destruct Hr as (Hb & Ho & Hd & Hp).
  destruct (maxItems <=? _); [done|].
  destruct (maxRelationships (options s1) <=? _); [done|].
  destruct (shouldStop s1); [done|].
  destruct (IH (scraped + Z.of_nat (length items)) s1 Hb) as (? & ? & ? & ?).
  split_and!; [done|congruence..].
Qed.

Lemma scrapeUserRelationships_books api u currentDepth s :
  crawlBooks s →
  let s' := scrapeUserRelationships hashIdentifier indexes validateBatch api u
              currentDepth s in
  crawlBooks s' ∧ options s' = options s ∧
  dom (depthQueues s') = dom (depthQueues s) ∧ processedUsers s' = processedUsers s.
Proof.
  intros Hinv. unfold scrapeUserRelationships, scrapeUserFollowing, scrapeUserFollowers.
  edestruct (scrapePages_books follower u currentDepth) as (H1 & Ho1 & Hd1 & Hp1); [exact Hinv|].
  edestruct (scrapePages_books following u currentDepth) as (H2 & Ho2 & Hd2 & Hp2);
    [exact H1|].
  split_and!; [exact H2| | |].
  - etrans; [exact Ho2|exact Ho1].
  - etrans; [exact Hd2|exact Hd1].
  - etrans; [exact Hp2|exact Hp1].
Qed.

Lemma processQueue_books api currentDepth queue : ∀ s w,
  crawlBooks s →
  is_Some (depthQueues s !! currentDepth) →
  Forall (queueEntryOk (options s) currentDepth) queue →
  let s' := (processQueue hashIdentifier indexes validateBatch W cm api currentDepth
               queue s w).1.2 in
  crawlBooks s' ∧ options s' = options s ∧
  dom (depthQueues s') = dom (depthQueues s).
Proof.
  induction queue as [|qu rest IH]; intros s w Hinv Hcur Hqueue; simpl; [done|].
  destruct (shouldStop s); [done|].
  apply Forall_cons in Hqueue as [Hqu Hrest].
  set (s0 := set_depthQueues (<[currentDepth := rest]> (depthQueues s)) s).
  assert (Hdom0 : dom (depthQueues s0) = dom (depthQueues s)).
  { unfold s0. simpl. rewrite dom_insert_L. destruct Hcur as [q Hq].
    apply elem_of_dom_2 in Hq. set_solver. }
  assert (H0 : crawlBooks s0).
  { destruct Hinv as [Hq Hc]. split; [|done]. intros k q. unfold s0. simpl.
    destruct (decide (k = currentDepth)) as [->|Hne].
    - rewrite lookup_insert_eq. by intros [= <-].
    - rewrite lookup_insert_ne by done. apply Hq. }
  assert (Hcur0 : is_Some (depthQueues s0 !! currentDepth)).
  { unfold s0. simpl. rewrite lookup_insert_eq. by eexists. }
  case_bool_decide as Hseen.
  { destruct (IH s0 w H0 Hcur0 Hrest) as (? & ? & ?). split_and!; [done|done|congruence]. }
  destruct (scrapeUserRelationships_books api (user qu) currentDepth s0 H0)
    as (H1 & Ho1 & Hd1 & Hp1).
  set (s1 := scrapeUserRelationships _ _ _ _ _ _ s0) in *.
  set (s2 := incUsersProcessed _).
  assert (H2 : crawlBooks s2 ∧ options s2 = options s ∧
               dom (depthQueues s2) = dom (depthQueues s)).
  { unfold s2. split_and!; [|done|by rewrite <- Hdom0]. destruct H1 as [Hq1 (Hp & Hs & Hu)].
    split; [done|]. unfold countersExact, emitted in *. simpl.
    split_and!; [done|done|].
    rewrite Hu. rewrite size_union by (rewrite Hp1; set_solver).
    rewrite size_singleton. lia. }
  clearbody s2. destruct H2 as (H2 & Ho2 & Hd2).
  set (p := if _ =? 0 then _ else _).
  assert (Hp : p.1 = s2).
  { unfold p. destruct (_ =? 0); [apply saveCheckpoint_same|done]. }
  destruct p as [s3 w3]. simpl in Hp. subst s3.
  destruct (maxRelationships (options s2) <=? _); [done|].
  destruct (IH s2 w3 H2) as (? & ? & ?).
  - apply elem_of_dom. rewrite Hd2. by apply elem_of_dom.
  - by rewrite Ho2.
  - split_and!; [done|congruence..].
Qed.

Lemma scrapeLevels_books api n : ∀ currentDepth s w,
  crawlBooks s →
  let s' := (scrapeLevels hashIdentifier indexes validateBatch W cm api n
               currentDepth s w).1 in
  crawlBooks s' ∧ options s' = options s ∧
  dom (depthQueues s') = dom (depthQueues s).
Proof.
  induction n as [|n IH]; intros currentDepth s w Hinv; simpl; [done|].
  destruct (shouldStop s); [done|].
  assert (Hinv1 : crawlBooks (set_currentDepth currentDepth s)) by done.
  simpl.
  destruct (depthQueues s !! currentDepth) as [[|qu queue]|] eqn:Hq;
    [by apply (IH _ _ _ Hinv1)| |by apply (IH _ _ _ Hinv1)].
  pose proof (processQueue_books api currentDepth (qu :: queue) _ w Hinv1) as Hpq.
  destruct (processQueue _ _ _ _ _ _ _ _ _ _) as [[returned s2] w2]. simpl in Hpq.
  destruct Hpq as (H2 & Ho2 & Hd2).
  { simpl. by rewrite Hq. }
  { destruct Hinv as [Hqs _]. by apply (Hqs currentDepth). }
  destruct returned; [done|].
  destruct (IH (currentDepth + 1) s2 w2 H2) as (? & ? & ?).
  split_and!; [done|congruence..].
Qed.

Lemma loadInitialUserQueue_books userFiles s :
  crawlBooks s →
  let r := loadInitialUserQueue userFiles s in
  crawlBooks r.2 ∧ options r.2 = options s ∧
  dom (depthQueues r.2) = dom (depthQueues s).
Proof.
  intros Hinv. unfold loadInitialUserQueue.
  destruct (length userFiles =? 0)%nat; [done|].
  destruct (depthQueues s !! 0) as [q|] eqn:Hq0; [|done].
  simpl. split_and!; [|done|].
  - destruct Hinv as [Hq Hc]. split; [|done]. intros k q'. simpl.
    destruct (decide (k = 0)) as [->|Hne]; [|rewrite lookup_insert_ne by done; apply Hq].
    rewrite lookup_insert_eq. intros [= <-]. apply Forall_app. split; [by apply Hq|].
    apply Forall_take.
    assert (Hseeds : Forall (queueEntryOk (options s) 0)
              ((λ u, {| user := u; depth := 0 |}) <$>
                 filter (λ u, negb (String.eqb (did u) "")
                              && (minFollowerCount (options s) <=? followersCount u) = true)
                        (concat userFiles))).
    { apply Forall_fmap, Forall_forall. intros u [Hu _]%list_elem_of_filter.
      apply andb_true_iff in Hu as [Hdid Hmin]. simpl.
      split_and!; [done| |by apply Z.leb_le].
      apply negb_true_iff in Hdid. by apply String.eqb_neq. }
    destruct (prioritizePopularUsers (options s)); [|done].
    by apply (stableSort_Forall (λ qu, followersCount (user qu))).
  - rewrite dom_insert_L. apply elem_of_dom_2 in Hq0. set_solver.
Qed.

(** A crawl that does not resume keeps the books. *)
Lemma start_books api userFiles s w :
  crawlBooks s →
  let r := start hashIdentifier indexes validateBatch W cm api userFiles false s w in
  crawlBooks r.1.2 ∧ options r.1.2 = options s ∧
  dom (depthQueues r.1.2) = dom (depthQueues s) ∧
  (r.1.1 = Ok () → currentBatch r.1.2 = []).
Proof.
  intros Hinv. unfold start. destruct (isRunning s); [done|]. simpl.
  assert (H0 : crawlBooks (set_shouldStop false (set_isRunning true s))) by done.
  unfold loadFrontier.
  pose proof (loadInitialUserQueue_books userFiles _ H0) as (H1 & Ho1 & Hd1).
  destruct (loadInitialUserQueue userFiles _) as [[[]|e] s1]; simpl in *; [|done].
  unfold scrapeRelationships.
  pose proof (scrapeLevels_books api (Z.to_nat (maxDepth (options s1) - 0 + 1)) 0 s1 w H1)
    as (H2 & Ho2 & Hd2).
  destruct (scrapeLevels _ _ _ _ _ _ _ _ _ _) as [s2 w2]. simpl in *.
  destruct (saveBatch_books true s2 H2) as (H3 & Ho3 & Hd3 & _ & _ & Hflush).
  split_and!; [done|congruence|congruence|auto].
Qed.

(** X23: the counters of a crawl are exact.  After [start] without
    resume on a scraper whose counters are exact (a new scraper's are),
    [relationshipsProcessed] is the number of records handed to the
    output, [relationshipsSaved] the number of records written to files
    and [usersProcessed] the number of visited users; when [start]
    returns normally, the last batch has been flushed, so every record
    handed to the output is in a file and the two relationship counters
    agree.  The file manager's writes are taken to succeed, as in
    [saveBatch]. *)
Theorem start_counters_exact api userFiles s w :
  crawlBooks s →
  let r := start hashIdentifier indexes validateBatch W cm api userFiles false s w in
  countersExact r.1.2 ∧
  (r.1.1 = Ok () →
     currentBatch r.1.2 = [] ∧
     relationshipsSaved (stats r.1.2) = relationshipsProcessed (stats r.1.2) ∧
     relationshipsSaved (stats r.1.2) = Z.of_nat (length (concat (saved r.1.2)))).
Proof.
  intros Hinv r.
  destruct (start_books api userFiles s w Hinv) as ([_ Hc] & _ & _ & Hflush).
  fold r in Hc, Hflush. split; [done|]. intros Hok. specialize (Hflush Hok).
  destruct Hc as (Hp & Hs & _). unfold emitted in Hp. rewrite Hflush, app_nil_r in Hp.
  split_and!; [done|congruence|done].
Qed.

(** X24: the frontier stays within its bounds.  After [start] without
    resume on a scraper whose queues are in order (those [initialize]
    creates are), the queues are those of the depths that existed before,
    so none beyond [maxDepth] appears, and every user waiting in
    the queue of depth [k] carries depth [k], has a DID, and has at least
    [minFollowerCount] followers. *)
Theorem start_frontier_bounded api userFiles s w :
  crawlBooks s →
  let s' := (start hashIdentifier indexes validateBatch W cm api userFiles false s w).1.2 in
  dom (depthQueues s') = dom (depthQueues s) ∧
  ∀ k q, depthQueues s' !! k = Some q →
    Forall (λ qu, depth qu = k ∧ did (user qu) ≠ "" ∧
                  minFollowerCount (options s) ≤ followersCount (user qu)) q.
Proof.
  intros Hinv s'.
  destruct (start_books api userFiles s w Hinv) as ([Hq _] & Ho & Hd & _).
  fold s' in Hq, Ho, Hd. split; [done|].
  intros k q Hk. specialize (Hq k q Hk). by rewrite Ho in Hq.
Qed.

End CrawlBooks.

Lemma crawlBooks_ready : crawlBooks (readyScraper sampleOptions).
Proof.
  split.
  - intros k q. unfold readyScraper. simpl.
    intros [[_ <-]|[_ [[_ <-]|[_ Hk]]%lookup_insert_Some]]%lookup_insert_Some;
      [constructor|constructor|done].
  - split_and!; reflexivity.
Qed.

Lemma start_counters_exact_witness :
  let s := readyScraper sampleOptions in
  let w : CheckpointWorld := (relationshipsManager, []) in
  let r := RelationshipsScraper.start sampleHash sampleIndexes acceptAll CheckpointWorld
             RelationshipsScraper.checkpointManager mutualFollow [[alice]] false s w in
  crawlBooks s ∧
  countersExact r.1.2 ∧
  (r.1.1 = Ok () →
     RelationshipsScraper.currentBatch r.1.2 = [] ∧
     RelationshipsScraper.relationshipsSaved (RelationshipsScraper.stats r.1.2)
       = RelationshipsScraper.relationshipsProcessed (RelationshipsScraper.stats r.1.2) ∧
     RelationshipsScraper.relationshipsSaved (RelationshipsScraper.stats r.1.2)
       = Z.of_nat (length (concat (RelationshipsScraper.saved r.1.2)))).
Proof.
  intros s w. split; [exact crawlBooks_ready|].
  exact (start_counters_exact sampleHash sampleIndexes acceptAll CheckpointWorld
           RelationshipsScraper.checkpointManager mutualFollow [[alice]] s w
           crawlBooks_ready).
Defined.

Lemma start_frontier_bounded_witness :
  let s := readyScraper sampleOptions in
  let w : CheckpointWorld := (relationshipsManager, []) in
  let s' := (RelationshipsScraper.start sampleHash sampleIndexes acceptAll CheckpointWorld
               RelationshipsScraper.checkpointManager mutualFollow [[alice]] false s w).1.2 in
  crawlBooks s ∧
  dom (RelationshipsScraper.depthQueues s') = dom (RelationshipsScraper.depthQueues s) ∧
  ∀ k q, RelationshipsScraper.depthQueues s' !! k = Some q →
    Forall (λ qu, RelationshipsScraper.depth qu = k ∧
                  RelationshipsScraper.did (RelationshipsScraper.user qu) ≠ "" ∧
                  RelationshipsScraper.minFollowerCount (RelationshipsScraper.options s)
                    ≤ RelationshipsScraper.followersCount (RelationshipsScraper.user qu)) q.
Proof.
  intros s w. split; [exact crawlBooks_ready|].
  exact (start_frontier_bounded sampleHash sampleIndexes acceptAll CheckpointWorld
           RelationshipsScraper.checkpointManager mutualFollow [[alice]] s w
           crawlBooks_ready).
Defined.

Lemma restore_reproduces_frontier_witness :
  let s := midCrawl in
  let s' := readyScraper sampleOptions in
  RelationshipsScraper.options s' = RelationshipsScraper.options s ∧
  ∃ s'',
    RelationshipsScraper.restore
      {| RelationshipsScraper.data := Some (RelationshipsScraper.checkpointState 1 s);
         RelationshipsScraper.loadedMetadata := [] |} s'
      = (Ok (RelationshipsScraper.checkpointState 1 s), s'') ∧
    RelationshipsScraper.processedUsers s'' = RelationshipsScraper.processedUsers s ∧
    RelationshipsScraper.depthQueues s'' = RelationshipsScraper.depthQueues s.
Proof.
  intros s s'. split; [reflexivity|].
  apply (restore_reproduces_frontier 1 [] s s'); [reflexivity| |].
  - intros k [q Hq]. unfold s, midCrawl in Hq. simpl in Hq.
    apply lookup_insert_Some in Hq as [[<- _]|[_ Hq]]; [done|].
    apply lookup_insert_Some in Hq as [[<- _]|[_ Hq]]; done.
  - intros k [q Hq]. unfold s', readyScraper in Hq. simpl in Hq.
    unfold s, midCrawl. simpl.
    apply lookup_insert_Some in Hq as [[<- _]|[Hne Hq]].
    { rewrite lookup_insert_eq. by eexists. }
    rewrite lookup_insert_ne by done.
    apply lookup_insert_Some in Hq as [[<- _]|[_ Hq]]; [|done].
    rewrite lookup_insert_eq. by eexists.
Defined.


Lemma C5_registered_again_in_two_sets_witness :
  let p := "http://10.0.0.1:8080" in
  let m := ProxyManager.markProxyRateLimited p 60000 (freshPool [p]) in
  let r := default ProxyManager.emptyRedis (ProxyManager.redisClient m) in
  let m' := ProxyManager.addProxies [p] m in
  (ProxyManager.redisClient m = Some r ∧ p ∈ [p] ∧ p ∈ ProxyManager.RATE_LIMITED r) ∧
  ProxyManager.registered m' p ∧ ProxyManager.healthy m' p ∧
  ProxyManager.rateLimited m' p ∧ ¬ exactlyOne m' p.
Proof.
  intros p m r m'.
  assert (H1 : ProxyManager.redisClient m = Some r) by reflexivity.
  assert (H2 : p ∈ [p]) by (apply list_elem_of_singleton; reflexivity).
  assert (H3 : p ∈ ProxyManager.RATE_LIMITED r) by (by vm_compute).
  split; [done|].
  exact (C5_registered_again_in_two_sets m r [p] p H1 H2 H3).
Defined.

Lemma filterCovers_run_witness :
  let ops := [OpMarkProcessed Deduplicator.users "did:plc:alice" []; OpTick 1000;
              OpIsDuplicate Deduplicator.users "did:plc:alice"] in
  Forall forwardInTime ops ∧
  (∀ ty x, filterCovers sampleHash sampleIndexes (readyDeduplicator 16 1) ty x) ∧
  filterCovers sampleHash sampleIndexes
    (dedupRun sampleHash sampleIndexes ops (readyDeduplicator 16 1))
    Deduplicator.users "did:plc:alice".
Proof.
  intros ops.
  assert (Hfw : Forall forwardInTime ops) by (repeat constructor; simpl; lia).
  assert (Hready : ∀ ty x,
            filterCovers sampleHash sampleIndexes (readyDeduplicator 16 1) ty x)
    by (intros ty x; apply filterCovers_ready).
  split; [exact Hfw|]. split; [exact Hready|].
  exact (filterCovers_run sampleHash sampleIndexes ops (readyDeduplicator 16 1) Hfw Hready
           Deduplicator.users "did:plc:alice").
Defined.

Section CoverageAllCalls.
Import Deduplicator.
Variable hashIdentifier : string → string.
Variable indexes : nat → nat → string → list nat.

Local Abbreviation covers := (filterCovers hashIdentifier indexes).

(** The patterns [clear] deletes by carry the plural names, the record
    keys the singular ones. *)
Lemma plural_prefix_no_record ty ty' h :
  String.prefix (typeName ty +:+ ":") (recordPrefix ty' +:+ ":" +:+ h) = false.
Proof. by destruct ty, ty'. Qed.

Lemma clearType_records ty0 d r r' ty x :
  bloomFilters d ty0 = None →
  redisClient d = Some r →
  redisClient (clearType ty0 d).2 = Some r' →
  redis_exists r' (recordKey hashIdentifier ty x)
  = redis_exists r (recordKey hashIdentifier ty x).
Proof.
  intros Hf Hr. unfold clearType. rewrite Hf, Hr. simpl. intros [= <-].
  unfold redis_exists, redis_del, redis_delPrefix, recordKey. simpl.
  rewrite lookup_delete_ne by apply bloomKey_not_recordKey.
  destruct (data r !! (recordPrefix ty +:+ ":" +:+ hashIdentifier x)) as [e|] eqn:He.
  - by rewrite (map_lookup_filter_Some_2 _ _ _ e He (plural_prefix_no_record ty0 ty _)).
  - rewrite map_lookup_filter_None_2; [done|by left].
Qed.

Lemma clearType_covers ty0 d :
  (∀ ty x, covers d ty x) → ∀ ty x, covers (clearType ty0 d).2 ty x.
Proof.
  intros Hinv ty x r' Hr' Hlive.
  destruct (bloomFilters d ty0) as [f0|] eqn:Hf0.
  { unfold clearType in *. rewrite Hf0 in *. simpl in *. by apply (Hinv ty x r'). }
  destruct (redisClient d) as [r|] eqn:Hr.
  - rewrite (clearType_records ty0 d r r' ty x Hf0 Hr Hr') in Hlive.
    destruct (Hinv ty x r Hr Hlive) as (f & Hf & Hhas).
    exists f. split; [|done].
    unfold clearType. rewrite Hf0, Hr. done.
  - unfold clearType in Hr'. rewrite Hf0, Hr in Hr'. simpl in Hr'. congruence.
Qed.

Lemma clearTypes_covers types : ∀ d,
  (∀ ty x, covers d ty x) → ∀ ty x, covers (clearTypes types d).2 ty x.
Proof.
  induction types as [|ty0 types IH]; intros d Hinv; simpl; [done|].
  pose proof (clearType_covers ty0 d Hinv) as H1.
  destruct (clearType ty0 d) as [[[]|e] d1]; simpl in *; [by apply IH|done].
Qed.

Lemma clear_covers type d :
  (∀ ty x, covers d ty x) → ∀ ty x, covers (clear type d).2 ty x.
Proof.
  intros Hinv. unfold clear. destruct (negb (isInitialized d)); [done|].
  by apply clearTypes_covers.
Qed.

Lemma saveBloomFilters_same d : (saveBloomFilters d).2 = d.
Proof.
  unfold saveBloomFilters. destruct (negb (isInitialized d)); [done|].
  simpl. unfold saveBloomFilter.
  destruct (bloomFilters d users); [done|].
  destruct (bloomFilters d posts); [done|].
  by destruct (bloomFilters d follows).
Qed.

Lemma close_covers d :
  (∀ ty x, covers d ty x) → ∀ ty x, covers (close d) ty x.
Proof.
  intros Hinv. unfold close. destruct (isInitialized d); [|done].
  pose proof (saveBloomFilters_same d) as Hsame.
  destruct (saveBloomFilters d) as [[[]|e] d1]; simpl in Hsame; subst d1; [|done].
  destruct (redisClient d) as [r|] eqn:Hr; [|done].
  intros ty x r' Hr' Hlive. simpl in Hr'. injection Hr' as <-.
  by apply (Hinv ty x r Hr).
Qed.

Lemma callStep_covers d c :
  callForward c →
  (∀ ty x, covers d ty x) →
  ∀ ty x, covers (callStep hashIdentifier indexes d c) ty x.
Proof.
  intros Hfw Hinv. destruct c as [o|type|]; simpl.
  - by apply filterCovers_step.
  - by apply clear_covers.
  - by apply close_covers.
Qed.

(** X30: within one instance the filter keeps covering the store,
    whatever is called.  When every live record of a deduplicator has its
    filter positions set, the same holds after any sequence of duplicate
    checks, marks, [clear] and [close] calls and forward steps of the
    store clock: [clear] throws at [filter.clear()] where the filter
    exists, and where it does not it deletes keys under the plural names
    only, never a record; [close] writes nothing. *)
Theorem filterCovers_all_calls (calls : list DedupCall) (d : Deduplicator.t) :
  Forall callForward calls →
  (∀ ty x, covers d ty x) →
  ∀ ty x, covers (callRun hashIdentifier indexes calls d) ty x.
Proof.
  unfold callRun. revert d.
  induction calls as [|c calls IH]; intros d Hfw Hinv; simpl; [done|].
  inversion Hfw; subst. apply IH; [done|]. by apply callStep_covers.
Qed.

End CoverageAllCalls.

Lemma filterCovers_all_calls_witness :
  let calls := [CallOp (OpMarkProcessed Deduplicator.users "did:plc:alice" []);
                CallClear (Some Deduplicator.users); CallClose;
                CallOp (OpTick 1000); CallClear None] in
  Forall callForward calls ∧
  (∀ ty x, filterCovers sampleHash sampleIndexes (readyDeduplicator 16 1) ty x) ∧
  filterCovers sampleHash sampleIndexes
    (callRun sampleHash sampleIndexes calls (readyDeduplicator 16 1))
    Deduplicator.users "did:plc:alice".
Proof.
  intros calls.
  assert (Hfw : Forall callForward calls) by (repeat constructor; simpl; lia).
  assert (Hready : ∀ ty x,
            filterCovers sampleHash sampleIndexes (readyDeduplicator 16 1) ty x)
    by (intros ty x; apply filterCovers_ready).
  split; [exact Hfw|]. split; [exact Hready|].
  exact (filterCovers_all_calls sampleHash sampleIndexes calls (readyDeduplicator 16 1)
           Hfw Hready Deduplicator.users "did:plc:alice").
Defined.

Section Constructor.
Import RelationshipsScraper.

(** The scraper cannot be constructed.  The checkpoint manager's
    constructor throws exactly when it is given no scraper type, and the
    scraper's constructor, which gives it none, throws for every
    options object. *)
Theorem constructor_throws (State : Type) (sessionId : string) (o : Options) :
  (∃ e, CheckpointManager.new State None sessionId = Throw e) ∧
  (∀ ty, ∃ m, CheckpointManager.new State (Some ty) sessionId = Ok m) ∧
  (∃ e, new sessionId o = Throw e).
Proof.
  split_and!.
  - by eexists.
  - intros ty. by eexists.
  - by eexists.
Qed.
End Constructor.
